(** * Colour-space conversion engine (COLOR and VISION modules)

    A shallow embedding of the colour library: the primitive space
    transforms ([RGB], [Yxy], [XYZ]), the Munsell and PCCS engines, the
    perceptual evaluation functions ([Evaluation]) and the dispatcher
    [convert], followed by the properties established about them.

    Numbers.  A JavaScript number is modelled by [JS.num]: a real number, one
    of the two infinities, or NaN.  Arithmetic on finite values is exact real
    arithmetic (rounding is abstracted away, and so is the sign of zero: a
    zero divisor counts as [+0]).  Functions whose intermediate values stay
    finite on finite arguments are written directly over [R]. *)

From Stdlib Require Import Reals Lra Lia ZArith List String Ascii Bool.
From ExtLib Require Import Structures.Monad.
Import ListNotations.

Open Scope R_scope.

(* ===================================================================== *)
(** ** JavaScript numbers *)
(* ===================================================================== *)

Module JS.

Inductive num : Type :=
| Fin (r : R)
| PInf
| NInf
| NaN.

Definition Rltb (a b : R) : bool := if Rlt_dec a b then true else false.
Definition Rleb (a b : R) : bool := if Rle_dec a b then true else false.
Definition Reqb (a b : R) : bool := if Req_dec_T a b then true else false.

(** [Number.isNaN] *)
Definition isNaN (a : num) : bool :=
  match a with NaN => true | _ => false end.

Definition neg (a : num) : num :=
  match a with
  | Fin r => Fin (- r)
  | PInf => NInf
  | NInf => PInf
  | NaN => NaN
  end.

Definition add (a b : num) : num :=
  match a, b with
  | NaN, _ | _, NaN => NaN
  | Fin x, Fin y => Fin (x + y)
  | PInf, NInf | NInf, PInf => NaN
  | PInf, _ | _, PInf => PInf
  | NInf, _ | _, NInf => NInf
  end.

Definition sub (a b : num) : num := add a (neg b).

(** infinity of the sign of [x] ([x] is not zero) *)
Definition inf_like (x : R) : num := if Rltb 0 x then PInf else NInf.

Definition mul (a b : num) : num :=
  match a, b with
  | NaN, _ | _, NaN => NaN
  | Fin x, Fin y => Fin (x * y)
  | Fin x, PInf | PInf, Fin x => if Reqb x 0 then NaN else inf_like x
  | Fin x, NInf | NInf, Fin x => if Reqb x 0 then NaN else inf_like (- x)
  | PInf, PInf | NInf, NInf => PInf
  | PInf, NInf | NInf, PInf => NInf
  end.

Definition div (a b : num) : num :=
  match a, b with
  | NaN, _ | _, NaN => NaN
  | Fin x, Fin y =>
      if Reqb y 0
      then (if Reqb x 0 then NaN else inf_like x)
      else Fin (x / y)
  | Fin _, PInf | Fin _, NInf => Fin 0
  | PInf, Fin y => if Rltb y 0 then NInf else PInf
  | NInf, Fin y => if Rltb y 0 then PInf else NInf
  | PInf, PInf | PInf, NInf | NInf, PInf | NInf, NInf => NaN
  end.

(** [a < b] *)
Definition lt (a b : num) : bool :=
  match a, b with
  | NaN, _ | _, NaN => false
  | Fin x, Fin y => Rltb x y
  | _, NInf => false
  | NInf, _ => true
  | PInf, _ => false
  | Fin _, PInf => true
  end.

(** [a <= b] *)
Definition le (a b : num) : bool :=
  match a, b with
  | NaN, _ | _, NaN => false
  | Fin x, Fin y => Rleb x y
  | NInf, _ => true
  | _, PInf => true
  | PInf, _ => false
  | Fin _, NInf => false
  end.

(** [a === b] on numbers *)
Definition eq (a b : num) : bool :=
  match a, b with
  | Fin x, Fin y => Reqb x y
  | PInf, PInf | NInf, NInf => true
  | _, _ => false
  end.

(** [Math.abs] *)
Definition abs (a : num) : num :=
  match a with
  | Fin r => Fin (Rabs r)
  | PInf | NInf => PInf
  | NaN => NaN
  end.

(** [Math.sqrt] *)
Definition sqrt (a : num) : num :=
  match a with
  | Fin r => if Rltb r 0 then NaN else Fin (R_sqrt.sqrt r)
  | PInf => PInf
  | NInf | NaN => NaN
  end.

(** [Math.round]: the nearest integer, ties towards [+Infinity]. *)
Definition round (x : R) : Z := Zfloor (x + 1 / 2).

(** Truncation towards zero, and the [ToInt32] conversion behind [x | 0]. *)
Definition trunc (x : R) : Z :=
  if Rltb x 0 then (- Zfloor (- x))%Z else Zfloor x.

Definition wrap32 (n : Z) : Z :=
  ((n + 2 ^ 31) mod 2 ^ 32 - 2 ^ 31)%Z.

Definition toInt32 (a : num) : Z :=
  match a with
  | Fin x => wrap32 (trunc x)
  | PInf | NInf | NaN => 0%Z
  end.

(** [Math.pow] with a finite exponent. *)
Definition is_integer (y : R) : bool := Reqb y (IZR (Zfloor y)).

Definition pow (a : num) (y : R) : num :=
  match a with
  | Fin x =>
      if Rltb 0 x then Fin (Rpower x y)
      else if Reqb x 0
           then (if Rltb 0 y then Fin 0 else if Reqb y 0 then Fin 1 else PInf)
           else if is_integer y then Fin (powerRZ x (Zfloor y)) else NaN
  | PInf => if Rltb 0 y then PInf else if Reqb y 0 then Fin 1 else Fin 0
  | NInf =>
      if Rltb 0 y
      then (if is_integer y && Z.odd (Zfloor y) then NInf else PInf)
      else if Reqb y 0 then Fin 1 else Fin 0
  | NaN => if Reqb y 0 then Fin 1 else NaN
  end.

(** [Number.MAX_VALUE] = (2 - 2^-52) * 2^1023 *)
Definition MAX_VALUE : R := IZR (2 ^ 1024 - 2 ^ 971).

(** What a JavaScript call yields: a value, or a thrown [TypeError]. *)
Inductive result (A : Type) : Type :=
| Ok (a : A)
| TypeError.
Arguments Ok {A} a.
Arguments TypeError {A}.

End JS.

Declare Scope js_scope.
Delimit Scope js_scope with js.
Infix "+" := JS.add : js_scope.
Infix "-" := JS.sub : js_scope.
Infix "*" := JS.mul : js_scope.
Infix "/" := JS.div : js_scope.
Infix "<?" := JS.lt (at level 70) : js_scope.
Infix "<=?" := JS.le (at level 70) : js_scope.
Infix "=?" := JS.eq (at level 70) : js_scope.
Coercion JS.Fin : R >-> JS.num.

(** A colour is an array of three numbers. *)
Definition triple : Type := (JS.num * JS.num * JS.num)%type.

(** The process-wide "was the last conversion saturated" flags. *)
Record flags : Type := mkFlags {
  RGB_isSaturated : bool;
  Yxy_isSaturated : bool;
  Munsell_isSaturated : bool
}.

Definition set_RGB (b : bool) (st : flags) : flags :=
  mkFlags b (Yxy_isSaturated st) (Munsell_isSaturated st).
Definition set_Yxy (b : bool) (st : flags) : flags :=
  mkFlags (RGB_isSaturated st) b (Munsell_isSaturated st).
Definition set_Munsell (b : bool) (st : flags) : flags :=
  mkFlags (RGB_isSaturated st) (Yxy_isSaturated st) b.

(* ===================================================================== *)
(** ** Lab: tristimulus constants *)
(* ===================================================================== *)

Module Lab.

Definition D65_xyz : R * R * R := (0.31273, 0.32902, 0.35825).

Definition D65_XYZ : R * R * R :=
  let '(x, y, z) := D65_xyz in (x / y, 1, z / y).

(** Constants for simplification of calculation. *)
Definition _C1 : R := 6 ^ 3 / 29 ^ 3.
Definition _C2 : R := 29 ^ 2 / 6 ^ 2 / 3.
Definition _C3 : R := 6 / 29.
Definition _C4 : R := 6 ^ 2 / 29 ^ 2 * 3.

(** The tristimulus value in use (D65 unless reassigned). *)
Definition XYZ_TRISTIMULUS_VALUES : R * R * R := D65_XYZ.

(** Conversion function; [Math.pow] is only reached with a positive base. *)
Definition _func (x : R) : R :=
  if JS.Rltb _C1 x then Rpower x (1 / 3) else _C2 * x + 16 / 116.

(** Inverse conversion function. *)
Definition _invFunc (x : R) : R :=
  if JS.Rltb _C3 x then x ^ 3 else (x - 16 / 116) * _C4.

(** CIE 1931 XYZ to CIELAB, on finite components. *)
Definition fromXYZ (xyz : R * R * R) : R * R * R :=
  let '(x, y, z) := xyz in
  let '(xn, yn, zn) := XYZ_TRISTIMULUS_VALUES in
  let fy := _func (y / yn) in
  (116 * fy - 16, 500 * (_func (x / xn) - fy), 200 * (fy - _func (z / zn))).

Definition lightnessFromXYZ (xyz : R * R * R) : R :=
  let '(x, y, z) := xyz in
  let '(xn, yn, zn) := XYZ_TRISTIMULUS_VALUES in
  let fy := _func (y / yn) in
  116 * fy - 16.

(** CIELAB to CIE 1931 XYZ, on finite components. *)
Definition toXYZ (lab : R * R * R) : R * R * R :=
  let '(ls, as_, bs) := lab in
  let '(xn, yn, zn) := XYZ_TRISTIMULUS_VALUES in
  let fy := (ls + 16) / 116 in
  (_invFunc (fy + as_ / 500) * xn, _invFunc fy * yn,
   _invFunc (fy - bs / 200) * zn).

End Lab.

(* ===================================================================== *)
(** ** RGB: the sRGB colour system *)
(* ===================================================================== *)

Module RGB.

(** One clamping statement pair of [_checkRange] on one array cell. *)
Definition clamp_cell (v min max : Z) (isSaturated : bool) : Z * bool :=
  let '(v, isSaturated) :=
    if (max <? v)%Z then (max, true) else (v, isSaturated) in
  if (v <? min)%Z then (min, true) else (v, isSaturated).

(** [_checkRange] clamps the array in place and tells whether it did. *)
Definition _checkRange (vs : Z * Z * Z) (min max : Z) : (Z * Z * Z) * bool :=
  let '(v0, v1, v2) := vs in
  let isSaturated := false in
  let '(v0, isSaturated) := clamp_cell v0 min max isSaturated in
  let '(v1, isSaturated) := clamp_cell v1 min max isSaturated in
  let '(v2, isSaturated) := clamp_cell v2 min max isSaturated in
  ((v0, v1, v2), isSaturated).

(** sRGB to linear RGB (gamma correction). *)
Definition _func (x : JS.num) : JS.num :=
  if (x <? 0.03928)%js then (x / 12.92)%js
  else JS.pow ((x + 0.055) / 1.055)%js 2.4.

(** Linear RGB to sRGB (inverse gamma correction). *)
Definition _invFunc (x : JS.num) : JS.num :=
  if (0.00304 <? x)%js then (JS.pow x (1 / 2.4) * 1.055 - 0.055)%js
  else (x * 12.92)%js.

Definition toLRGB (v : triple) : triple :=
  let '(r, g, b) := v in
  (_func (r / 255)%js, _func (g / 255)%js, _func (b / 255)%js).

(** The array built by [fromLRGB] before it is range-checked. *)
Definition fromLRGB_raw (v : triple) : Z * Z * Z :=
  let '(lr, lg, lb) := v in
  (JS.toInt32 (_invFunc lr * 255)%js,
   JS.toInt32 (_invFunc lg * 255)%js,
   JS.toInt32 (_invFunc lb * 255)%js).

Definition fromLRGB (v : triple) (st : flags) : (Z * Z * Z) * flags :=
  let '(dest, sat) := _checkRange (fromLRGB_raw v) 0 255 in
  (dest, set_RGB sat st).

(** The 32-bit operators: [a << n] wraps its result to 32 bits, [a >> n]
    propagates the sign, and [&] and [|] work on the two's complement
    bits, which is what [Z.land] and [Z.lor] do on signed integers. *)
Definition shl32 (a n : Z) : Z := JS.wrap32 (Z.shiftl a n).

Definition fromColorInteger (v : JS.num) : Z * Z * Z :=
  let v := JS.toInt32 v in
  (Z.land (Z.shiftr v 16) 255,
   Z.land (Z.shiftr v 8) 255,
   Z.land v 255).

Definition toColorInteger (rgb : triple) : Z :=
  let '(r, g, b) := rgb in
  Z.lor
    (Z.lor (Z.lor (shl32 (JS.toInt32 r) 16) (shl32 (JS.toInt32 g) 8))
           (JS.toInt32 b))
    (JS.toInt32 (JS.Fin 4278190080)).

End RGB.

(* ===================================================================== *)
(** ** XYZ: conversion of the standard illuminant *)
(* ===================================================================== *)

Module XYZ.

Definition fromIlluminantC (v : triple) : triple :=
  let '(x, y, z) := v in
  ((0.9972812 * x + (-0.0093756) * y + (-0.0154171) * z)%js,
   ((-0.0010298) * x + 1.0007636 * y + 0.0002084 * z)%js,
   (0.9209267 * z)%js).

Definition toIlluminantC (v : triple) : triple :=
  let '(x, y, z) := v in
  ((1.0027359 * x + 0.0093941 * y + 0.0167846 * z)%js,
   (0.0010319 * x + 0.9992466 * y + (-0.0002089) * z)%js,
   (1.0858628 * z)%js).

End XYZ.

(* ===================================================================== *)
(** ** LMS, Linear RGB and YIQ: the matrix transforms *)
(* ===================================================================== *)

(** A 3 x 3 matrix, row by row, and its product with a colour. *)
Definition matrix3 : Type := (R * R * R) * (R * R * R) * (R * R * R).

Definition apply3 (m : matrix3) (v : triple) : triple :=
  let '((m00, m01, m02), (m10, m11, m12), (m20, m21, m22)) := m in
  let '(x, y, z) := v in
  ((m00 * x + m01 * y + m02 * z)%js,
   (m10 * x + m11 * y + m12 * z)%js,
   (m20 * x + m21 * y + m22 * z)%js).

Module LMS.

Definition SMITH_POKORNY : matrix3 :=
  ((0.15514, 0.54312, -0.03286),
   (-0.15514, 0.45684, 0.03286),
   (0.0, 0.0, 0.01608)).

Definition SMITH_POKORNY_INV : matrix3 :=
  ((2.944812906606763, -3.500977991936487, 13.17218214714747),
   (1.000040001600064, 1.000040001600064, 0.0),
   (0.0, 0.0, 62.18905472636816)).

Definition BRADFORD : matrix3 :=
  ((0.8951000, 0.2664000, -0.1614000),
   (-0.7502000, 1.7135000, 0.0367000),
   (0.0389000, -0.0685000, 1.0296000)).

Definition BRADFORD_INV : matrix3 :=
  ((0.9869929, -0.1470543, 0.1599627),
   (0.4323053, 0.5183603, 0.0492912),
   (-0.0085287, 0.0400428, 0.9684867)).

Definition VON_KRIES : matrix3 :=
  ((0.4002400, 0.7076000, -0.0808100),
   (-0.2263000, 1.1653200, 0.0457000),
   (0.0000000, 0.0000000, 0.9182200)).

Definition VON_KRIES_INV : matrix3 :=
  ((1.8599364, -1.1293816, 0.2198974),
   (0.3611914, 0.6388125, -0.0000064),
   (0.0000000, 0.0000000, 1.0890636)).

(** [fromXYZ] reads [LMS.matrix] and [toXYZ] reads [LMS.matrixInverse];
    both are arguments here, with the values the library starts with. *)
Definition matrix : matrix3 := SMITH_POKORNY.
Definition matrixInverse : matrix3 := SMITH_POKORNY_INV.

Definition fromXYZ (matrix : matrix3) (xyz : triple) : triple :=
  apply3 matrix xyz.

Definition toXYZ (matrixInverse : matrix3) (lms : triple) : triple :=
  apply3 matrixInverse lms.

End LMS.

Module LRGB.

Definition toXYZ (lrgb : triple) : triple :=
  let '(lr, lg, lb) := lrgb in
  ((0.4124564 * lr + 0.3575761 * lg + 0.1804375 * lb)%js,
   (0.2126729 * lr + 0.7151522 * lg + 0.0721750 * lb)%js,
   (0.0193339 * lr + 0.1191920 * lg + 0.9503041 * lb)%js).

Definition fromXYZ (xyz : triple) : triple :=
  let '(x, y, z) := xyz in
  ((3.2404542 * x + (-1.5371385) * y + (-0.4985314) * z)%js,
   ((-0.9692660) * x + 1.8760108 * y + 0.0415560 * z)%js,
   (0.0556434 * x + (-0.2040259) * y + 1.0572252 * z)%js).

End LRGB.

Module YIQ.

Definition fromLRGB (lrgb : triple) : triple :=
  let '(lr, lg, lb) := lrgb in
  ((0.2990 * lr + 0.5870 * lg + 0.1140 * lb)%js,
   (0.595716 * lr + (-0.274453) * lg + (-0.321263) * lb)%js,
   (0.211456 * lr + (-0.522591) * lg + 0.311135 * lb)%js).

Definition toLRGB (yiq : triple) : triple :=
  let '(y, i, q) := yiq in
  ((y + 0.9563 * i + 0.6210 * q)%js,
   (y + (-0.2721) * i + (-0.6474) * q)%js,
   (y + (-1.1070) * i + 1.7046 * q)%js).

End YIQ.

(* ===================================================================== *)
(** ** Yxy *)
(* ===================================================================== *)

Module Yxy.

Definition fromXYZ (v : triple) : triple :=
  let '(x, y, z) := v in
  let sum := (x + y + z)%js in
  if (sum =? 0)%js then (y, JS.Fin 0.31273, JS.Fin 0.32902)
  else (y, (x / sum)%js, (y / sum)%js).

Definition toXYZ (v : triple) (st : flags) : triple * flags :=
  let '(y, sx, sy) := v in
  let d0 := (sx * y / sy)%js in
  if JS.isNaN d0 then ((JS.Fin 0, JS.Fin 0, JS.Fin 0), set_Yxy false st)
  else
    let d1 := y in
    let d2 := ((1 - sx - sy) * y / sy)%js in
    let '(wx, wy, wz) := Lab.D65_XYZ in
    ((d0, d1, d2),
     set_Yxy ((wx <? d0)%js || (wy <? d1)%js || (wz <? d2)%js) st).

End Yxy.

(* ===================================================================== *)
(** ** Munsell (HVC) *)
(* ===================================================================== *)

Definition bindR {A B : Type} (c : JS.result A) (k : A -> JS.result B)
  : JS.result B :=
  match c with
  | JS.Ok a => k a
  | JS.TypeError => JS.TypeError
  end.

#[global] Instance Monad_result : Monad JS.result :=
  {| ret := @JS.Ok; bind := @bindR |}.

Notation "x <- c ;; k" := (bindR c (fun x => k))
  (at level 61, c at next level, right associativity).
Notation "' p <- c ;; k" := (bindR c (fun x => let 'p := x in k))
  (at level 61, p pattern, c at next level, right associativity).

Module Munsell.

Definition MONO_LIMIT_C : R := 0.05.
Definition _TBL_V : list R := [1; 2; 3; 4; 5; 6; 7; 8; 9].
Definition _MIN_HUE : R := 0.
Definition _MAX_HUE : R := 100.
Definition _HUE_NAMES : list string :=
  ["R"; "YR"; "Y"; "GY"; "G"; "BG"; "B"; "PB"; "P"; "RP"]%string.
Definition _EP : R := 0.0000000000001.
Definition _ILLUMINANT_C : R * R := (0.3101, 0.3162).

(** The class defines [_MAX_HUE] only.  Reading [Munsell.MAX_HUE] yields
    [undefined], and both places that read it ([H += Munsell.MAX_HUE] and
    [Munsell.MAX_HUE <= H]) convert it to a number, which is NaN. *)
Definition MAX_HUE : JS.num := JS.NaN.

Definition _TBL_SRC_MIN : list (list (list Z)) := [
  [
    [0; 363; 271; (-334); (-300); (-6); 4; (-2); 0; (-5); 4; (-1); 1];
    [1; 377; 282; (-337); (-307); (-5); 1; (-6); 1; (-4); 3];
    [2; 391; 293; (-340); (-313); (-4); (-1); (-8); (-1); (-7); 2];
    [3; 402; 303; (-338); (-317); (-6); (-5); (-10); (-2); (-9); 1];
    [4; 413; 315; (-333); (-323); (-15); (-7); (-5); (-6); (-12); 0];
    [5; 426; 334; (-321); (-331); (-31); (-13); (-7); (-11)];
    [6; 438; 358; (-310); (-336)];
    [7; 443; 378];
    [8; 445; 398];
    [9; 436; 418];
    [10; 423; 427];
    [11; 404; 429];
    [12; 380; 421];
    [13; 354; 409];
    [14; 336; 398; (-295); (-202)];
    [15; 315; 384; (-317); (-230)];
    [16; 301; 372; (-330); (-254); (-20); 31];
    [17; 291; 363; (-337); (-277); (-28); 27; (-35); 15];
    [18; 283; 356; (-337); (-290); (-28); 12; (-9); (-7)];
    [19; 276; 348; (-336); (-299); (-22); 5; 1; (-11)];
    [20; 269; 341; (-334); (-310); (-14); (-1); 5; (-16)];
    [21; 260; 329; (-332); (-317); 1; (-8); 2; (-3)];
    [22; 250; 314; (-325); (-326); 9; (-4)];
    [23; 243; 302; (-316); (-327); 9; (-3)];
    [24; 236; 288; (-306); (-326); 11; 1];
    [25; 232; 278; (-299); (-324); 14; 5];
    [26; 229; 268; (-291); (-319); 16; 9];
    [27; 229; 258; (-286); (-311); 15; 12; 9; 5];
    [28; 231; 249; (-284); (-301); 14; 11; 8; 7];
    [29; 236; 242; (-282); (-293); 10; 9; 9; 9];
    [30; 243; 237; (-285); (-287); 9; 8; 10; 9; 7; 8];
    [31; 255; 231; (-287); (-280); 9; 9; 10; 12; 6; 9; 3; 4; 2; 4; 0; 0; 1; 5; 0; (-1); 1; 2; (-1); 0; 1; 1; 0; 0; (-1); 0; 1; 1; 0; 1; 0; 0; 0; 0];
    [32; 268; 228; (-290); (-273); 5; 9; 7; 12; 3; 4; 2; 4; 2; 4; 0; 1; 1; 3; 1; 1; 0; 2; (-1); (-1); 1; 1; 1; 0; (-1); 1];
    [33; 281; 230; (-295); (-273); 4; 12; 3; 5; 1; 7; 1; 2; 2; 4; 0; 2; 1; 3; 1; 0; (-1); 1; 1; 2; (-1); (-1)];
    [34; 294; 233; (-303); (-273); 3; 10; 1; 5; 1; 5; 1; 3; 1; 2; 0; 4; 0; 3; 1; 0; 0; 0];
    [35; 303; 236; (-307); (-275); 1; 10; 0; 4; 1; 5; (-1); 3; 2; 1; (-1); 5; 1; 3; 0; 0];
    [36; 313; 240; (-313); (-277); 0; 8; (-2); 3; 1; 6; 0; 3; 0; 1; 1; 5; (-1); 2];
    [37; 324; 246; (-319); (-282); (-2); 7; (-1); 3; (-1); 6; 0; 3; 0; 1; (-1); 4];
    [38; 338; 254; (-326); (-288); (-3); 6; (-2); 2; 0; 6; (-3); 2; 0; 4];
    [39; 350; 262; (-329); (-294); (-5); 6; (-2); 1; (-2); 4; (-1); 3]
  ];
  [
    [0; 353; 296; (-321); (-314); (-3); 1; 0; (-2); (-4); 1; (-2); 0; (-1); 1];
    [1; 361; 303; (-320); (-316); (-4); (-1); 2; (-3); (-5); 1; (-2); (-2); (-3); 1];
    [2; 369; 311; (-320); (-319); (-3); (-2); 4; (-3); (-8); (-4); (-5); 1; 0; (-2)];
    [3; 375; 318; (-316); (-319); (-5); (-4); 1; (-4); (-3); (-7); (-8); (-1); (-4); (-1)];
    [4; 381; 327; (-314); (-321); (-6); (-6); 1; (-7); (-8); (-7); (-6); (-4); (-4); (-3)];
    [5; 385; 337; (-310); (-323); (-7); (-7); 4; (-6)];
    [6; 388; 348; (-309); (-322); (-3); (-7)];
    [7; 389; 359; (-309); (-322); (-1); (-6)];
    [8; 387; 369; (-306); (-321)];
    [9; 383; 379; (-303); (-319)];
    [10; 376; 384; (-298); (-311)];
    [11; 366; 386; (-292); (-300)];
    [12; 356; 385; (-293); (-291)];
    [13; 342; 380; (-296); (-285)];
    [14; 331; 374; (-304); (-283); (-1); 19];
    [15; 317; 365; (-309); (-284); (-7); 11; (-11); 21];
    [16; 307; 358; (-315); (-292); (-6); 7; (-8); 14; (-10); 10; (-8); 2];
    [17; 298; 351; (-320); (-302); (-5); 3; (-3); 0; (-12); 14; (-4); (-5); (-3); (-6); 0; (-5)];
    [18; 292; 345; (-320); (-305); (-4); (-2); (-2); (-3); (-8); 5; (-2); (-2); 1; (-5); 2; (-3)];
    [19; 287; 340; (-320); (-309); (-1); (-4); (-2); (-1); (-4); 1; (-2); (-2); 3; (-4); 4; (-3)];
    [20; 282; 334; (-320); (-312); 3; (-4); (-3); (-1); (-1); (-2); 0; (-3); 6; (-3); 2; (-3)];
    [21; 277; 327; (-320); (-316); 6; (-4); (-4); 0; 4; (-4); 3; 0; 5; (-2)];
    [22; 270; 318; (-317); (-321); 8; (-1); (-4); (-3); 7; (-1); 8; 0];
    [23; 265; 310; (-314); (-322); 8; (-1); (-1); (-1); 8; 1; 7; 3];
    [24; 261; 301; (-312); (-323); 8; 0; 2; (-2); 8; 4];
    [25; 258; 294; (-310); (-323); 8; 0; 5; 1; 7; 3];
    [26; 256; 287; (-307); (-322); 8; (-1); 6; 3; 9; 6];
    [27; 255; 280; (-304); (-320); 9; 3; 5; 3; 9; 7];
    [28; 256; 273; (-302); (-315); 8; 5; 6; 3; 8; 9];
    [29; 259; 268; (-300); (-311); 6; 4; 6; 6; 8; 8; 5; 5];
    [30; 264; 262; (-302); (-305); 6; 5; 7; 6; 6; 7; 5; 6; 3; 1];
    [31; 271; 258; (-300); (-301); 6; 7; 5; 7; 5; 5; 6; 7; 2; 4; 2; 1; 0; 2; 2; 3; (-1); (-1); 1; 3; 0; 0; 1; 1; (-1); 0; 1; 0; (-1); 1; 1; 0; (-1); 0];
    [32; 280; 257; (-300); (-298); 4; 9; 1; 3; 6; 7; 3; 6; 1; 2; 1; 2; 1; 2; 1; 1; 0; 1; 0; 2; 1; 0; 0; 1; 0; 0; 0; 1; 0; 0];
    [33; 289; 258; (-302); (-295); 3; 8; 1; 1; 2; 6; 2; 5; 1; 2; 0; 3; 2; 1; (-1); 2; 1; 1; 0; 0; 0; 2; 1; (-1); (-1); 1];
    [34; 298; 261; (-305); (-296); 1; 8; 0; (-1); 2; 7; 0; 3; 1; 2; 0; 5; 1; 0; 0; 1; 1; 1; (-1); 1; 1; 0; 0; 2];
    [35; 307; 265; (-309); (-298); 0; 7; (-1); (-2); 1; 7; 0; 3; 0; 3; 0; 2; 1; 2; 0; 1; 0; 0; 0; 2];
    [36; 316; 269; (-313); (-299); (-1); 4; (-1); (-1); 0; 7; (-1); 2; 1; 2; (-1); 2; (-1); 2; 1; 2; 0; 0];
    [37; 328; 275; (-318); (-300); (-1); 1; 0; (-2); (-3); 6; (-1); 2; (-1); 1; 0; 3; (-1); 2; (-1); 1];
    [38; 338; 283; (-320); (-306); (-3); 1; 0; (-2); (-4); 4; 0; 2; (-1); 2; (-1); 1; (-2); 4];
    [39; 346; 289; (-322); (-310); (-2); 2; 0; (-2); (-4); 1; (-2); 2; (-2); 2; (-2); 2]
  ];
  [
    [0; 353; 307; (-317); (-317); (-3); (-1); 0; (-1); (-3); 0; (-1); (-1); (-5); 1; 1; (-1)];
    [1; 359; 313; (-316); (-318); (-4); (-2); 2; (-2); (-4); (-2); (-2); (-1); (-6); 1; 0; (-1)];
    [2; 365; 319; (-315); (-319); (-6); (-2); 3; (-4); (-3); (-3); (-6); (-3); (-6); 1; 0; (-2)];
    [3; 369; 325; (-314); (-320); (-5); (-3); 1; (-4); (-3); (-4); (-5); (-5); (-10); (-1); 0; (-2)];
    [4; 373; 331; (-315); (-321); (-4); (-4); 0; (-5); (-6); (-5); (-3); (-4); (-7); (-3)];
    [5; 376; 339; (-316); (-322); (-1); (-4); (-6); (-5); (-7); (-3)];
    [6; 377; 348; (-316); (-324); (-2); (-5); (-10); (-6)];
    [7; 377; 355; (-316); (-323); (-6); (-7); (-9); (-6)];
    [8; 375; 363; (-316); (-324); (-6); (-8); (-9); (-8)];
    [9; 370; 370; (-312); (-323); (-8); (-11)];
    [10; 365; 375; (-311); (-322); (-6); (-10)];
    [11; 359; 378; (-309); (-318); (-6); (-9)];
    [12; 351; 379; (-306); (-313); (-6); (-8)];
    [13; 341; 377; (-305); (-306); (-6); (-8)];
    [14; 332; 373; (-309); (-303); (-3); (-2); (-3); 4];
    [15; 318; 364; (-309); (-299); (-3); 3; (-5); 5; (-8); 2];
    [16; 309; 358; (-313); (-304); (-2); 6; (-4); 4; (-7); 3; (-2); 0; (-6); 5];
    [17; 300; 350; (-316); (-308); (-4); 0; 0; (-1); (-7); 5; 0; (-3); 0; (-2); (-2); (-4); 0; (-2); (-4); 1; 0; (-2)];
    [18; 294; 344; (-317); (-310); (-1); (-2); 0; (-4); (-5); 2; 1; (-3); 0; (-2); 2; (-4); 2; (-1); (-2); (-1); (-2); 2];
    [19; 289; 339; (-316); (-311); 0; (-5); 1; (-3); (-3); 1; 1; (-1); 2; (-4); 2; (-1); 2; (-2); (-1); 0; (-1); 0];
    [20; 284; 334; (-315); (-314); 2; (-4); 2; (-2); (-1); (-1); 0; 0; 3; (-4); 2; 0; 2; (-3); 2; (-1); (-1); 0];
    [21; 280; 327; (-316); (-315); 5; (-4); 3; (-2); (-2); (-1); 4; (-1); 2; (-1); 3; (-1); 2; (-1); 2; 1];
    [22; 274; 319; (-314); (-318); 8; (-2); 0; (-2); 3; (-1); 4; (-1); 3; 1; 2; (-1); 4; 1];
    [23; 270; 312; (-313); (-320); 9; 0; 3; (-1); 2; 0; 5; 2; 2; (-1); 4; 1];
    [24; 266; 305; (-310); (-321); 8; (-1); 5; 2; 1; (-1); 7; 3; 1; 0];
    [25; 264; 298; (-310); (-321); 11; 2; 3; 0; 3; 1; 6; 3];
    [26; 262; 292; (-306); (-321); 10; 4; 3; (-1); 4; 2; 5; 4];
    [27; 262; 286; (-304); (-318); 10; 4; 2; 1; 6; 4; 3; 1];
    [28; 263; 280; (-301); (-313); 6; 3; 5; 4; 4; 3; 3; 1; 4; 5];
    [29; 266; 276; (-301); (-311); 6; 4; 5; 4; 4; 4; 2; 3; 3; 2];
    [30; 271; 272; (-303); (-308); 5; 5; 6; 6; 2; 1; 3; 4; 3; 2; 2; 2; 2; 4];
    [31; 278; 269; (-304); (-306); 5; 6; 5; 6; 2; 3; 3; 3; 3; 3; 3; 2; 1; 4; 1; 2; 1; (-1); 0; 2; 0; 2; 1; 0; 0; 0; 0; 0; 1; 2];
    [32; 285; 267; (-304); (-302); 4; 6; 3; 5; 1; 2; 4; 6; 0; 0; 2; 3; 2; 3; 0; 1; 0; 1; 1; 0; 0; 2; 1; 0; 0; 1; 0; (-1); 0; 2];
    [33; 292; 268; (-305); (-302); 3; 7; 3; 5; 0; 1; 2; 5; 0; 1; 1; 2; 1; 2; 0; 2; 1; 0; 0; 1; 0; 2; 0; (-1); 0; 1; 1; 1; 0; 0];
    [34; 300; 270; (-307); (-301); 1; 6; 1; 2; 0; 3; 2; 3; 0; 3; 0; 1; 1; 2; 0; 2; 0; 0; 0; 0; 1; 2; 0; 0; 0; 1; 0; 0];
    [35; 309; 274; (-311); (-303); 1; 5; (-1); 1; 0; 4; 0; 2; 1; 3; 0; 2; 0; 0; 0; 3; 0; 0; 0; 0; 1; 1; (-1); 0; 0; 2];
    [36; 317; 279; (-313); (-306); (-1); 4; 0; 2; (-1); 2; (-1); 2; 0; 2; 0; 4; 0; (-2); (-1); 4; 1; 0; (-1); 0; 0; 1];
    [37; 327; 286; (-314); (-310); (-3); 5; 0; (-1); (-2); 2; (-1); 3; 0; 1; (-1); 1; (-1); 1; (-1); 2; 1; (-1)];
    [38; 337; 294; (-315); (-314); (-4); 3; (-2); 0; (-2); 1; (-1); 1; (-2); 0; 0; 2; (-3); 2; 0; 0];
    [39; 345; 300; (-316); (-315); (-4); 1; (-1); (-1); (-2); 1; (-2); (-1); (-2); 2; (-2); 0; (-2); 1]
  ];
  [
    [0; 342; 311; (-312); (-318); (-2); 0; 0; (-1); (-3); 0; 1; (-1); (-3); (-1); (-2); 1; 3; (-2); (-4); 1];
    [1; 346; 315; (-311); (-317); (-2); (-2); 0; (-2); (-3); 0; 0; (-1); 0; (-2); (-5); 0; 3; (-1)];
    [2; 351; 320; (-310); (-318); (-3); (-1); 1; (-3); (-4); (-1); 0; (-2); (-1); (-2); (-3); (-1); (-2); (-2)];
    [3; 354; 324; (-309); (-318); (-2); (-2); 0; (-2); (-4); (-3); (-3); (-2); 0; (-2); (-6); (-3); (-2); (-1); (-1); (-2)];
    [4; 358; 329; (-308); (-317); (-4); (-3); 0; (-3); (-4); (-4); (-4); (-1); (-3); (-3); (-9); (-2)];
    [5; 362; 337; (-310); (-320); (-5); (-4); (-1); (-2); (-5); (-3); (-8); (-3)];
    [6; 365; 344; (-311); (-320); (-8); (-6); (-4); (-5); (-6); (-2); (-6); (-4)];
    [7; 366; 350; (-311); (-319); (-10); (-9); (-7); (-5); (-6); (-3)];
    [8; 366; 359; (-313); (-323); (-10); (-10); (-8); (-6); (-7); (-4)];
    [9; 363; 365; (-312); (-322); (-11); (-12); (-7); (-7); (-8); (-7)];
    [10; 359; 370; (-311); (-321); (-10); (-13); (-8); (-10)];
    [11; 354; 373; (-310); (-319); (-9); (-12); (-8); (-12)];
    [12; 348; 373; (-309); (-314); (-7); (-11); (-8); (-13)];
    [13; 338; 371; (-305); (-309); (-7); (-9); (-6); (-9)];
    [14; 331; 368; (-308); (-308); (-5); (-3); (-3); (-4); (-4); (-6)];
    [15; 319; 360; (-310); (-304); (-1); 2; (-4); 3; (-4); (-5); (-5); 0];
    [16; 311; 355; (-312); (-308); (-2); 6; (-3); 1; (-4); 4; (-5); 3; (-2); (-3); 0; (-8)];
    [17; 301; 347; (-313); (-312); (-3); 5; (-3); (-2); (-2); 3; (-3); 1; 1; (-7); (-1); (-2); 0; (-1); 1; (-4); 0; (-1); (-3); 0; 2; (-2)];
    [18; 296; 342; (-314); (-314); (-2); 1; (-2); (-1); (-2); (-2); (-4); 2; 7; (-8); (-2); 0; 2; (-1); 4; (-5); (-1); 0; (-5); 4; 3; (-3)];
    [19; 292; 337; (-314); (-314); (-1); (-1); (-1); (-2); 0; 0; (-4); 0; 7; (-6); 0; 0; 1; 0; 4; (-4); 0; 0; (-3); 1; 0; 0];
    [20; 288; 333; (-313); (-316); (-1); (-1); 1; (-2); 1; (-1); (-4); 1; 8; (-4); 1; (-2); (-1); 0; 4; (-2); 1; (-1); 0; 0; 0; 1];
    [21; 284; 327; (-313); (-316); 2; (-3); 0; 0; 0; (-2); 2; (-1); 4; (-1); 3; (-1); 0; 0; 3; (-1); 2; 0; 0; (-1)];
    [22; 280; 321; (-312); (-319); 2; (-1); 1; (-2); 2; 0; 3; (-1); 3; (-1); 3; 0; 2; 0; 1; 0];
    [23; 276; 315; (-309); (-319); 1; (-2); 3; 0; 1; (-2); 4; 1; 3; 0; 4; 2; 2; 0];
    [24; 274; 309; (-310); (-320); 5; (-1); 0; (-1); 3; 0; 5; 1; 1; 2; 8; 2];
    [25; 273; 304; (-310); (-321); 6; 1; 0; (-3); 3; 2; 7; 3; (-1); (-1); 9; 6];
    [26; 272; 299; (-308); (-320); 6; 0; 0; (-1); 5; 2; 4; 1; 1; 2];
    [27; 273; 295; (-307); (-320); 5; 2; 1; (-1); 6; 4; 1; 1; 2; 1];
    [28; 275; 291; (-307); (-317); 5; 2; 0; (-1); 6; 4; 2; 2; 1; 1; 3; 2];
    [29; 278; 288; (-307); (-316); 4; 2; 1; 1; 5; 5; 1; 1; 2; 0; 3; 3; 1; 2];
    [30; 282; 284; (-308); (-312); 3; 2; 0; 1; 6; 4; 1; 3; 2; 0; 1; 2; 2; 1; 1; 1];
    [31; 286; 282; (-306); (-311); 1; 3; 2; 1; 3; 4; 2; 3; 2; 2; 2; 1; 2; 2; 0; 0; 3; 5; 0; 0; 1; 1];
    [32; 291; 280; (-306); (-308); 1; 2; 2; 4; 1; 2; 2; 2; 1; 2; 3; 3; 0; 2; 1; (-1); 1; 4; 0; 1; 0; (-2); 1; 3; 0; 0];
    [33; 296; 281; (-306); (-309); 0; 5; 3; 2; 0; 2; 1; 2; 1; 3; 1; 0; 0; 2; 0; 1; 2; 3; 0; 0; (-1); 0; 1; 1; 1; 1; (-1); (-2)];
    [34; 302; 283; (-308); (-309); 0; 4; 2; 2; (-1); 2; 2; 2; 0; 1; 0; 1; 0; 3; 1; 0; 0; 3; 1; (-1); (-1); 1; 0; 0; 1; 2; (-1); (-2)];
    [35; 309; 286; (-310); (-310); 1; 4; (-1); 1; 0; 2; 0; 2; 0; 0; 0; 1; 0; 2; 0; 2; 0; 1; 0; 1; 1; (-1); (-1); 1; 0; 0; 0; 1];
    [36; 316; 290; (-311); (-311); (-1); 1; (-1); 3; 0; 1; (-1); 1; 0; 2; 0; 1; 0; (-1); (-1); 0; 0; 5; 0; 0; 0; (-1); (-1); 1; 1; (-1)];
    [37; 323; 295; (-312); (-313); (-1); 1; (-1); 1; (-1); 2; (-1); 0; 0; 2; (-1); 0; 0; 0; 0; 0; (-2); 3; 0; 0; 0; 2];
    [38; 331; 301; (-313); (-315); 0; 0; (-2); 1; (-3); 2; 1; (-2); (-1); 2; (-2); 0; 1; (-1); (-1); 1; (-2); 2];
    [39; 337; 306; (-313); (-316); 0; 0; (-2); (-1); (-3); 1; 0; (-1); (-1); 1; (-1); (-1); 0; 0; (-1); (-1)]
  ];
  [
    [0; 333; 313; (-307); (-317); 0; (-1); 0; (-1); (-4); 0; 3; (-2); (-6); 2; 3; (-2); (-2); 0; 1; 0];
    [1; 336; 316; (-306); (-317); 0; (-1); (-1); (-1); (-1); (-1); 1; (-2); (-6); 1; 2; (-2); (-1); (-1); 0; 0];
    [2; 339; 319; (-304); (-316); (-1); (-1); (-1); (-2); 1; (-1); (-2); (-3); (-5); 1; 3; (-3); (-2); 0; (-6); (-1)];
    [3; 343; 323; (-305); (-317); (-1); 0; 1; (-2); (-1); (-3); (-2); (-2); (-4); (-1); 0; (-2); (-5); (-1); (-3); (-1)];
    [4; 347; 328; (-306); (-316); 1; (-2); (-1); (-2); (-1); (-3); (-3); (-2); (-8); (-3); (-2); 0; (-1); (-2)];
    [5; 351; 334; (-309); (-319); 2; 0; (-1); (-3); (-5); (-4); (-8); (-1); (-5); (-3); (-5); 0];
    [6; 353; 340; (-309); (-319); 1; (-1); (-4); (-5); (-8); (-5); (-7); (-2); (-4); (-2)];
    [7; 354; 345; (-309); (-319); 0; (-2); (-7); (-5); (-9); (-5); (-6); (-4); (-6); (-3)];
    [8; 355; 351; (-310); (-318); (-2); (-4); (-9); (-8); (-9); (-6); (-6); (-4)];
    [9; 353; 357; (-309); (-319); (-3); (-4); (-10); (-11); (-9); (-7); (-5); (-3)];
    [10; 350; 362; (-308); (-318); (-4); (-6); (-10); (-13); (-8); (-6); (-5); (-5)];
    [11; 347; 364; (-309); (-316); (-3); (-5); (-10); (-13); (-7); (-9); (-4); (-6)];
    [12; 342; 365; (-308); (-314); (-3); (-5); (-7); (-11); (-8); (-11); (-4); (-6)];
    [13; 335; 364; (-308); (-314); (-1); 1; (-5); (-9); (-8); (-12); (-2); (-7)];
    [14; 329; 361; (-310); (-312); (-1); 2; (-2); (-3); (-5); (-8); (-3); (-9)];
    [15; 319; 356; (-311); (-313); 0; 6; (-2); 1; (-2); 1; (-4); (-5); (-2); (-7)];
    [16; 311; 351; (-311); (-314); 0; 5; (-3); 4; (-2); 2; (-4); 3; (-1); (-5); (-4); 3; (-1); (-1)];
    [17; 303; 345; (-312); (-316); (-1); 2; (-3); 2; (-1); 0; (-4); 3; 0; (-2); (-2); 1; (-3); (-1); 3; (-5); 0; (-1); 1; (-3); (-1); (-1); 0; (-1)];
    [18; 298; 339; (-312); (-315); (-1); (-1); (-3); 2; 0; (-3); (-5); 3; 4; (-6); (-2); 2; 0; (-2); 4; (-4); (-1); (-1); (-1); 3; 2; (-4); 0; 1];
    [19; 295; 336; (-312); (-317); (-1); (-2); (-2); 3; 0; (-4); (-4); 3; 6; (-4); (-3); (-1); 1; 1; 4; (-4); 0; 0; (-1); 0; 2; (-2); 1; 0];
    [20; 291; 331; (-311); (-316); 1; (-2); (-3); 1; 2; (-2); (-5); 2; 7; (-4); (-2); 0; 1; 0; 3; (-3); 0; 0; 1; (-1); 3; (-1); 0; 0];
    [21; 288; 327; (-310); (-317); 1; (-2); (-3); 1; 1; (-2); (-1); (-1); 6; (-2); (-3); 0; 3; 0; 2; (-2); 1; 0; 3; 0];
    [22; 284; 321; (-309); (-317); 2; (-2); (-3); (-1); 1; (-1); 1; 0; 8; 0; (-5); (-2); 2; 0; 4; 1; 3; (-1)];
    [23; 281; 316; (-307); (-317); 0; (-1); 0; (-3); 1; 0; 1; 0; 6; 0; (-1); 0; 0; 0];
    [24; 280; 311; (-309); (-318); 1; (-2); 2; 0; 1; (-1); 2; 0; 5; 2; (-2); (-1)];
    [25; 279; 307; (-309); (-319); 2; (-1); 2; 0; 1; (-1); 1; 0; 6; 2; (-1); 0];
    [26; 279; 303; (-309); (-318); 3; (-3); 1; 0; 3; 1; 1; (-1); 3; 3; 0; (-1)];
    [27; 280; 300; (-309); (-319); 3; (-1); 2; 1; 2; 0; 1; 0; 3; 3; 1; (-1)];
    [28; 282; 297; (-309); (-318); 2; 0; 2; 0; 2; 2; 2; 0; 1; 3; 2; (-1); 3; 5];
    [29; 285; 294; (-310); (-316); 2; (-1); 2; 2; 2; 1; 1; 1; 3; 3; 1; (-1); 0; 2];
    [30; 288; 292; (-310); (-315); 1; (-1); 2; 3; 1; 1; 2; 2; 1; 1; 2; 0; 1; 2];
    [31; 292; 291; (-310); (-315); 0; (-1); 4; 3; 1; 4; 0; (-1); 1; 2; 3; 2; 0; 1; 2; 1];
    [32; 296; 291; (-310); (-316); 1; 0; 1; 5; 3; 2; (-1); 1; 2; 1; 0; 2; 3; 2; 0; 1; 1; 1];
    [33; 300; 291; (-310); (-315); 1; 1; 1; 3; 2; 4; 0; (-1); 1; 3; 1; 1; 0; 2; 0; 0; 0; 1; 1; 0; 1; 2];
    [34; 305; 293; (-311); (-316); 0; 2; 2; 2; 0; 3; 0; 0; 1; 3; (-1); 0; 2; 1; (-1); 2; 1; 0; 0; 0; 1; 2; (-1); 0];
    [35; 310; 296; (-310); (-317); (-1); 2; 1; 1; (-1); 3; 0; 0; 1; 2; (-1); 1; 0; 0; 0; 2; 1; (-1); (-1); 3; 0; (-1); 1; 1; (-1); 0];
    [36; 315; 299; (-310); (-317); (-1); 0; 0; 1; (-1); 4; 0; (-1); (-1); 2; 0; 0; 0; 1; 0; 1; 0; 0; (-1); 2; 1; (-2); (-1); 3; 0; (-1)];
    [37; 320; 302; (-310); (-317); 0; 0; (-1); 0; (-2); 3; 1; 0; (-2); 0; 0; 2; 0; 0; (-1); 0; 0; 0; 0; 3; (-1); (-2)];
    [38; 326; 307; (-310); (-319); 1; 1; (-1); 0; (-3); 1; 1; (-1); (-2); 2; 0; (-1); (-1); 1; 0; 0; (-1); 1; 0; (-1)];
    [39; 330; 310; (-308); (-318); (-1); 0; (-1); (-1); (-2); 1; 1; (-1); (-4); 1; 2; (-1); (-3); 0; 2; 0; (-4); 1]
  ];
  [
    [0; 329; 314; (-307); (-317); 1; (-1); (-4); 1; 3; (-2); (-1); 0; (-2); (-1); 4; (-1); (-5); 1];
    [1; 332; 317; (-307); (-318); 1; 1; (-2); (-2); 1; 0; 0; (-2); (-3); 0; 3; (-2); (-3); 1];
    [2; 334; 319; (-305); (-316); 0; (-1); (-2); (-1); 2; (-1); (-1); (-2); (-2); 0; 2; (-1); (-3); (-1)];
    [3; 338; 323; (-307); (-317); 0; (-1); 1; (-1); 2; (-1); (-4); (-1); 1; (-2); (-2); (-1); (-2); (-1)];
    [4; 342; 327; (-307); (-316); (-2); (-2); 2; (-1); 1; (-1); (-2); (-2); (-2); (-2); (-5); (-2); 0; 0];
    [5; 345; 332; (-309); (-317); 1; (-2); (-2); (-2); 1; (-1); (-3); (-2); (-6); (-2); (-6); (-2); (-3); (-1)];
    [6; 347; 337; (-310); (-318); 2; 0; (-3); (-4); (-3); (-3); (-5); (-2); (-6); (-3); (-4); (-2); (-6); (-2)];
    [7; 349; 342; (-312); (-319); 1; 0; (-2); (-5); (-6); (-2); (-5); (-5); (-8); (-3); (-2); (-1)];
    [8; 349; 348; (-312); (-319); 1; (-3); (-5); (-4); (-6); (-5); (-6); (-5); (-6); (-4)];
    [9; 348; 354; (-312); (-321); 0; (-2); (-4); (-7); (-8); (-5); (-7); (-7); (-4); (-2)];
    [10; 346; 358; (-313); (-320); 2; (-3); (-6); (-7); (-8); (-8); (-7); (-7); (-1); (-1)];
    [11; 343; 360; (-311); (-320); (-1); 0; (-5); (-8); (-7); (-10); (-6); (-7); (-2); (-2)];
    [12; 340; 361; (-312); (-319); 0; 0; (-4); (-6); (-7); (-10); (-5); (-9); (-2); (-2)];
    [13; 334; 361; (-311); (-318); 0; 0; (-2); (-1); (-6); (-12); (-4); (-8); (-3); (-4)];
    [14; 329; 359; (-312); (-317); (-1); 1; (-1); 1; (-3); (-6); (-3); (-8); (-3); (-7)];
    [15; 319; 355; (-310); (-318); (-2); 3; 0; 5; (-3); (-2); (-1); (-3); (-2); (-1); (-1); (-10)];
    [16; 311; 350; (-310); (-318); 0; 4; (-2); 2; (-2); 1; (-2); 2; (-3); 3; (-1); (-4); (-2); 2; 0; (-4)];
    [17; 304; 344; (-311); (-318); (-1); 0; (-1); 2; (-2); 1; (-1); (-1); (-2); 4; (-1); (-2); (-3); 1; 0; (-1); 0; (-2); (-2); 1; 0; (-3); 1; (-1)];
    [18; 299; 338; (-311); (-316); 0; (-2); (-2); (-1); 0; 0; (-4); 2; 2; (-3); (-1); 0; 0; (-1); (-1); 0; 0; (-1); 0; 0; 1; (-1); 0; (-1)];
    [19; 296; 334; (-311); (-316); 0; (-3); 0; 1; (-1); (-1); (-2); 1; 1; (-2); 0; (-1); (-1); 1; 2; (-1); 0; (-1); (-1); (-1); 2; 0; 0; 0];
    [20; 293; 330; (-311); (-316); 2; (-2); (-1); 0; 0; 0; (-2); (-1); 3; 0; (-2); (-2); 1; 1; 0; (-1); 2; (-1); (-1); 0; 3; (-2)];
    [21; 290; 327; (-310); (-317); 3; (-2); (-3); (-1); 2; (-1); (-2); 1; 3; (-2); (-1); 0; 1; (-1); 1; 0; 1; (-1)];
    [22; 287; 322; (-309); (-318); 1; (-1); 1; (-1); 0; 0; 0; (-1); 2; (-1); 1; 1; 1; (-1); 0; (-1)];
    [23; 285; 317; (-310); (-317); 3; (-1); 1; (-1); 0; (-1); 1; 0; 3; 0; (-1); 0; 2; (-1)];
    [24; 284; 313; (-310); (-318); 2; (-1); 2; (-1); 1; 0; 0; (-1); 3; 1; 0; (-1); 2; 1];
    [25; 284; 310; (-311); (-319); 1; (-2); 3; 0; 3; 0; (-2); (-1); 4; 2; (-1); (-1)];
    [26; 284; 306; (-310); (-318); 0; (-3); 3; 0; 2; 0; 2; 0; 0; 0; 0; 1];
    [27; 285; 304; (-310); (-320); 0; (-1); 3; 0; 2; 0; 0; 0; 3; 1; (-1); 0];
    [28; 287; 301; (-310); (-318); (-1); (-2); 3; 1; 2; 1; (-1); (-2); 3; 3; (-1); (-1)];
    [29; 290; 299; (-312); (-318); 1; (-1); 1; 1; 3; 1; (-2); (-1); 3; 2];
    [30; 292; 298; (-311); (-318); (-1); (-2); 3; 3; 1; 1; (-1); (-1); 1; 1];
    [31; 296; 296; (-312); (-317); 0; (-1); 3; 4; 0; 0; (-1); (-1); 2; 1];
    [32; 299; 296; (-312); (-317); 1; (-1); 2; 4; 0; 1; 0; (-1); 1; 2; 1; (-1)];
    [33; 302; 296; (-311); (-316); 0; (-1); 2; 3; 0; 1; 2; 2; (-1); 1; 2; 0; (-1); 3];
    [34; 305; 297; (-310); (-316); 0; 0; 1; 2; (-1); 1; 2; 2; (-1); 0; 1; 1; 0; 2; 0; (-1)];
    [35; 311; 299; (-311); (-315); (-1); (-2); 1; 3; (-1); 0; 1; 2; (-1); 1; 1; 0; 0; 1; (-1); (-1); 0; 1; 1; 2];
    [36; 315; 302; (-312); (-317); 2; 0; (-2); 1; 0; 1; 0; 1; 0; (-1); (-1); 3; 0; 0; 0; (-2); 0; 3; (-1); 0; 1; (-1)];
    [37; 319; 305; (-311); (-317); 1; (-1); (-1); 2; (-1); 0; 0; (-1); 0; 2; 0; (-1); (-2); 2; 1; (-1); (-1); 2; 0; (-1)];
    [38; 323; 309; (-309); (-318); 1; (-1); (-2); 2; (-1); 0; 1; (-1); (-1); (-1); 0; 2; (-1); (-1); 1; (-1); (-4); 4];
    [39; 326; 311; (-308); (-316); 2; (-2); (-5); 1; 2; (-1); 0; (-1); (-1); 1; 0; (-2); (-3); 2; 3; (-2)]
  ];
  [
    [0; 326; 315; (-307); (-317); 1; (-1); 0; 0; (-1); (-1); 3; (-1); (-2); 0; (-1); 0];
    [1; 328; 317; (-306); (-317); 1; 0; 0; (-1); (-1); (-1); 4; 0; (-4); (-2); 1; 0];
    [2; 331; 319; (-307); (-316); 2; (-1); 0; 0; (-1); (-2); 3; (-1); (-3); 0];
    [3; 334; 322; (-307); (-316); 1; 0; 3; (-2); (-4); (-1); 4; 0; (-3); (-2); 0; (-1)];
    [4; 336; 325; (-305); (-314); 0; (-2); 2; (-1); (-4); (-1); 4; (-1); (-3); (-2); (-1); (-1)];
    [5; 339; 330; (-306); (-316); 0; (-1); (-1); (-2); (-2); (-2); 3; 0; (-3); (-1); (-8); (-3); (-4); (-2); (-6); 0];
    [6; 342; 335; (-309); (-317); 1; (-1); (-3); (-3); 0; (-1); (-1); (-2); (-6); (-2); (-5); (-3); (-7); (-2); (-2); (-1)];
    [7; 344; 340; (-311); (-319); 1; 0; (-3); (-3); (-3); (-3); (-1); (-2); (-7); (-3); (-5); (-3); (-5); (-3)];
    [8; 344; 345; (-310); (-318); (-2); (-3); (-2); (-4); (-3); (-2); (-4); (-4); (-6); (-4); (-5); (-3); (-3); (-2)];
    [9; 344; 351; (-312); (-322); (-1); (-2); (-3); (-3); (-2); (-3); (-6); (-6); (-6); (-5); (-4); (-3)];
    [10; 342; 354; (-312); (-319); (-1); (-4); (-3); (-5); (-2); (-2); (-7); (-8); (-6); (-5); (-2); (-3)];
    [11; 340; 356; (-312); (-319); (-2); (-4); (-2); (-2); (-2); (-5); (-7); (-9); (-5); (-4); (-2); (-4)];
    [12; 337; 357; (-312); (-319); (-1); (-2); (-1); (-3); (-3); (-3); (-7); (-11); (-3); (-4); (-4); (-5)];
    [13; 333; 357; (-313); (-319); 0; (-1); (-1); (-1); (-2); (-1); (-5); (-11); (-2); (-5); (-4); (-7)];
    [14; 328; 356; (-312); (-319); (-2); (-1); 0; 2; (-1); 0; (-3); (-6); (-2); (-7); (-3); (-9)];
    [15; 319; 352; (-311); (-319); (-1); 1; 0; 3; (-2); 2; (-1); (-1); (-1); (-1); (-1); (-7); (-1); (-6)];
    [16; 312; 347; (-311); (-318); 0; 1; (-1); 3; (-2); 1; (-1); 2; (-1); 1; (-3); 1; 0; (-3); (-2); 2; 0; (-4)];
    [17; 305; 341; (-311); (-318); 0; 0; (-1); 3; (-1); 1; (-3); 0; 1; (-1); (-2); 1; 0; 0; (-3); 0; 0; 1; 0; (-3); (-4); 3];
    [18; 300; 337; (-310); (-319); 0; (-1); (-1); 1; (-3); 1; 1; (-1); (-3); 0; 1; (-1); 1; (-2); (-2); 1; 1; (-2); 1; (-1); 2; (-2)];
    [19; 297; 333; (-309); (-318); 0; (-1); (-1); 0; (-2); 1; 0; 0; (-1); (-1); 0; (-1); 2; (-1); (-1); 0; 0; (-1); 3; (-1); 0; (-2)];
    [20; 295; 330; (-310); (-318); 1; (-1); (-1); 0; (-1); 0; 1; (-1); (-2); 1; 2; (-2); 0; 0; 1; (-1); (-2); 1; 4; (-2)];
    [21; 293; 327; (-310); (-319); 2; 0; (-2); 0; (-1); (-1); 2; (-1); (-1); (-1); 3; 0; (-2); 0; 2; (-1); (-2); 0];
    [22; 290; 323; (-309); (-319); 2; (-1); (-2); 1; 0; (-2); 3; 0; 0; (-1); 0; 0; 0; 0; 2; (-1)];
    [23; 288; 318; (-309); (-317); 3; (-1); (-2); (-1); 0; 0; 2; (-1); 2; 0; (-1); (-1); 2; 1];
    [24; 287; 314; (-310); (-317); 4; (-1); (-2); (-2); 1; 1; 0; (-2); 3; 1; (-1); 0];
    [25; 287; 311; (-311); (-318); 3; (-1); 0; (-1); (-1); 0; 3; (-2); 1; 2; 0; (-2)];
    [26; 288; 308; (-313); (-319); 3; (-1); 1; 0; 0; (-3); 0; 0; 5; 3];
    [27; 289; 306; (-313); (-319); 3; (-1); 0; (-2); 0; 0; 1; (-1)];
    [28; 291; 304; (-313); (-319); 1; (-1); 1; (-1); 0; (-1); 0; 0];
    [29; 293; 303; (-313); (-321); 1; 1; 0; (-1); 0; (-1)];
    [30; 295; 301; (-313); (-319); 1; (-1); 0; 1; (-1); (-1)];
    [31; 298; 300; (-313); (-319); 1; (-1); 0; 1; 0; (-1)];
    [32; 301; 300; (-313); (-320); 1; 1; 0; 1; 0; (-1); 2; 1];
    [33; 303; 300; (-311); (-319); 0; 1; 1; 1; 0; 0; 0; 1];
    [34; 306; 301; (-311); (-319); 0; 1; 1; 1; (-1); 0; 1; 2; 1; 1];
    [35; 311; 304; (-311); (-320); 0; 1; 0; 0; 0; 1; (-1); 2; 1; (-1); 0; 1; (-1); 1];
    [36; 314; 305; (-310); (-318); 0; 0; 0; (-1); (-1); 2; (-1); 1; 1; 0; 0; (-1); (-1); 2; 0; 0; 0; (-1)];
    [37; 317; 308; (-309); (-319); 1; (-1); (-1); 2; (-1); 0; 0; 0; (-1); 0; 1; (-1); (-1); 1; 0; 0];
    [38; 321; 310; (-309); (-317); 2; (-1); (-1); 0; (-2); 1; 2; (-2); (-1); 1; 0; (-1); (-1); 1];
    [39; 323; 313; (-307); (-318); 1; (-1); (-1); 0; (-1); 1; 2; (-3); (-1); 1; (-1); 0]
  ];
  [
    [0; 322; 315; (-303); (-316); 0; (-2); 1; 0; (-2); 0];
    [1; 324; 317; (-302); (-316); (-1); (-1); 2; (-1); 0; 0];
    [2; 325; 319; (-299); (-316); (-3); 0; 3; (-2); (-1); 0];
    [3; 328; 321; (-300); (-314); (-1); (-1); 2; (-1); (-2); (-2)];
    [4; 330; 324; (-298); (-313); (-3); (-2); 1; 0; (-2); (-3)];
    [5; 333; 328; (-299); (-313); (-5); (-3); 3; (-1); (-5); (-1); 3; (-1)];
    [6; 337; 333; (-305); (-315); (-2); (-3); 2; 1; (-5); (-4); 0; (-1); (-3); (-1)];
    [7; 340; 338; (-310); (-317); 0; (-3); 1; 0; (-5); (-3); (-1); (-2); (-5); (-2); (-2); (-3); (-6); (-2); (-5); (-2)];
    [8; 341; 343; (-312); (-319); 0; (-1); 0; (-3); (-4); (-3); (-3); (-3); (-3); (-2); (-5); (-4); (-4); (-2); (-3); (-2)];
    [9; 341; 348; (-314); (-321); 2; (-1); (-3); (-4); (-2); (-3); (-3); (-2); (-5); (-5); (-4); (-3); (-5); (-3); (-1); (-2)];
    [10; 339; 352; (-313); (-321); 0; (-2); (-1); (-3); (-3); (-4); (-4); (-3); (-4); (-6); (-5); (-4); (-3); (-3)];
    [11; 338; 354; (-314); (-322); 0; 0; (-1); (-3); (-4); (-5); (-1); (-3); (-7); (-7); (-2); (-4); (-4); (-4)];
    [12; 336; 355; (-314); (-322); 0; 1; (-1); (-4); (-3); (-3); (-3); (-4); (-4); (-7); (-3); (-4); (-4); (-5)];
    [13; 333; 356; (-316); (-323); 2; 1; (-2); (-2); (-1); 0; (-3); (-6); (-2); (-5); (-4); (-7); (-3); (-6)];
    [14; 328; 354; (-313); (-321); (-1); 1; (-1); (-1); (-1); 1; (-2); (-2); (-1); (-5); (-4); (-10); (-1); (-2); (-1); (-8)];
    [15; 319; 350; (-311); (-319); (-1); 1; 0; 0; (-2); 2; 0; 1; (-1); 0; (-2); (-4); 0; (-5); (-2); (-8)];
    [16; 312; 346; (-310); (-319); (-1); 1; (-1); (-1); (-1); 5; (-1); 1; (-1); (-1); (-2); 1; 0; 1; (-2); 0; 0; (-4); 0; (-2)];
    [17; 305; 340; (-309); (-319); (-2); 3; 1; (-2); (-2); 1; (-2); 2; 1; (-2); (-2); 3; (-1); 1; 0; (-2); (-1); (-1); (-1); (-1)];
    [18; 301; 336; (-310); (-320); (-1); 2; 0; (-1); (-1); (-1); (-1); 0; 0; 0; (-1); (-1); (-1); 0; 0; 1; 0; (-3)];
    [19; 298; 333; (-309); (-320); (-1); 2; 1; (-3); (-1); 2; (-2); (-1); 1; 0; 0; (-1); (-1); 0; 1; 0];
    [20; 296; 329; (-309); (-318); (-1); 0; 1; (-1); 0; 0; (-2); 0; 2; (-1); (-1); 0; 0; 1; 0; (-3)];
    [21; 294; 327; (-309); (-319); 1; 0; (-1); (-1); 0; 0; 0; (-1); 1; (-1); 0; 0; (-2); 0];
    [22; 292; 323; (-309); (-318); 1; (-1); (-1); (-1); 1; 0; 0; 0; 2; (-1); (-1); 0];
    [23; 290; 318; (-308); (-316); (-1); (-2); 1; 0; 1; 0; 0; (-1); 3; 0; (-1); 0];
    [24; 289; 315; (-309); (-317); 0; (-1); 1; (-1); 1; 1; 0; (-2); 3; 1];
    [25; 290; 312; (-313); (-317); 2; (-2); 1; (-1); 1; 0; 0; (-1)];
    [26; 291; 310; (-315); (-320); 3; (-1); (-1); (-2)];
    [27; 292; 308; (-315); (-320); 1; (-2); 0; (-1)];
    [28; 294; 306; (-316); (-321); 1; 0; (-1); (-2)];
    [29; 296; 305; (-316); (-322); 0; 0];
    [30; 297; 304; (-314); (-322); (-2); (-1)];
    [31; 300; 303; (-314); (-321); (-2); (-2)];
    [32; 303; 304; (-315); (-323); 0; (-1); 1; (-1)];
    [33; 305; 304; (-314); (-323); 1; 1; 0; 0];
    [34; 307; 305; (-313); (-323); 1; 1; 0; 0; 1; 2];
    [35; 311; 307; (-311); (-322); 0; 2; 1; (-3); (-1); 3; 0; 0];
    [36; 313; 308; (-308); (-320); (-2); (-1); 1; 0; (-1); 1; 0; 1; 0; (-1)];
    [37; 315; 310; (-306); (-320); 0; 0; (-1); (-1); (-1); 2; 0; (-2); 0; 2];
    [38; 318; 312; (-305); (-319); 0; 0; 0; (-1); (-1); 1; 1; (-2)];
    [39; 320; 314; (-304); (-319); 0; 0; 0; (-1); (-1); 1; 2; (-2)]
  ];
  [
    [0; 321; 316; (-302); (-318); 0; 0];
    [1; 321; 317; (-297); (-316); (-2); (-1)];
    [2; 324; 319; (-298); (-315); (-3); (-1)];
    [3; 326; 321; (-297); (-314); (-3); 0];
    [4; 328; 323; (-296); (-311); (-4); (-3)];
    [5; 332; 327; (-300); (-312); (-3); (-2)];
    [6; 335; 333; (-303); (-315); (-4); (-3)];
    [7; 338; 338; (-308); (-317); (-3); (-4); 0; 0];
    [8; 339; 343; (-310); (-319); (-3); (-3); 0; (-2)];
    [9; 339; 347; (-312); (-320); (-2); (-4); (-1); (-1); (-2); (-4); (-2); (-2)];
    [10; 338; 350; (-314); (-320); 0; (-3); (-2); (-2); (-2); (-4); (-2); (-2); (-4); (-4); (-3); (-4); (-4); (-4); (-2); (-3)];
    [11; 337; 353; (-315); (-323); 0; (-1); (-1); (-2); (-3); (-4); (-1); (-2); (-4); (-5); (-3); (-5); (-4); (-2)];
    [12; 335; 354; (-314); (-323); (-1); 0; 0; (-2); (-4); (-5); (-1); (-1); (-3); (-5); (-3); (-5); (-3); (-4)];
    [13; 332; 354; (-314); (-321); (-1); (-2); (-1); 0; (-2); (-4); 0; 0; (-4); (-6); (-2); (-7); (-2); (-1)];
    [14; 328; 353; (-312); (-320); (-3); (-1); 0; 0; (-2); (-3); (-1); 0; (-2); (-4); (-1); (-4); (-2); (-5)];
    [15; 320; 350; (-313); (-321); 1; 3; (-2); (-1); 0; 1; (-1); (-2); (-2); 0; 0; 1; (-1); (-4)];
    [16; 312; 345; (-310); (-319); (-1); 4; 0; (-5); (-1); 5; (-2); (-3); 0; 3; (-2); 1; (-1); 0];
    [17; 306; 340; (-310); (-319); (-1); 3; (-1); (-4); 0; 3; 0; (-2); (-2); 3; 0; 0];
    [18; 302; 336; (-311); (-320); (-1); 2; 1; (-3); (-1); 0; (-1); 1];
    [19; 299; 332; (-310); (-318); (-1); 1; 1; (-2); 1; (-1); (-3); 1];
    [20; 297; 329; (-310); (-318); (-1); 0; 1; 0; 2; (-3); (-2); 2];
    [21; 295; 327; (-309); (-319); (-2); 0; 2; 0; 1; (-2)];
    [22; 293; 323; (-309); (-317); (-1); (-1); 1; (-1); 2; (-1)];
    [23; 291; 319; (-309); (-317); (-1); (-1); 1; 0; 4; (-1)];
    [24; 291; 316; (-312); (-318); 1; 0];
    [25; 291; 313; (-314); (-319)];
    [26; 292; 310; (-316); (-319)];
    [27; 294; 309; (-319); (-322)];
    [28; 295; 308; (-319); (-324)];
    [29; 298; 306];
    [30; 299; 306];
    [31; 302; 305];
    [32; 304; 305; (-317); (-325)];
    [33; 305; 305; (-314); (-323)];
    [34; 307; 306; (-314); (-325)];
    [35; 311; 308; (-310); (-323); (-1); 1];
    [36; 313; 309; (-308); (-321); (-1); 0];
    [37; 315; 311; (-307); (-321); 1; 0];
    [38; 317; 313; (-304); (-320); 0; 0];
    [39; 319; 314; (-303); (-318); 0; (-1)]
  ]
]%Z.

(** [_integrate]: running sums of the x and of the y increments. *)
Fixpoint _integrate (c2_ c3_ : Z) (cs : list Z) : list Z :=
  match cs with
  | c2 :: c3 :: rest =>
      (c2 + c2_)%Z :: (c3 + c3_)%Z :: _integrate (c2_ + c2) (c3_ + c3) rest
  | _ => cs
  end.

Fixpoint pairs (cs : list Z) : list (R * R) :=
  match cs with
  | c2 :: c3 :: rest => (IZR c2 / 1000, IZR c3 / 1000) :: pairs rest
  | _ => []
  end.

(** The row that [_initTable] stores at [_TBL[vi][c0]]: entry [c1 >= 1]
    of the array is element [c1 - 1] of this list. *)
Definition decode_row (cs : list Z) : list (R * R) :=
  pairs (_integrate 0 0 (_integrate 0 0 cs)).

Definition src_row (vi : nat) (c0 : Z) : option (list Z) :=
  match nth_error _TBL_SRC_MIN vi with
  | Some block =>
      match find (fun cs => (hd (-1) cs =? c0)%Z) block with
      | Some cs => Some (tl cs)
      | None => None
      end
  | None => None
  end.

(** The index [h10 / 25] of a hue row, when it is one of the 40 rows. *)
Definition hue_row (h10 : Z) : option Z :=
  if ((h10 mod 25 =? 0) && (0 <=? h10 / 25) && (h10 / 25 <? 40))%Z
  then Some (h10 / 25)%Z else None.

(** [_TBL[vi][h10 / 25][c / 2]]; [TypeError] when the read goes through a
    missing array, [Ok None] for a hole. *)
Definition _TBL (vi : nat) (h10 c : Z) : JS.result (option (R * R)) :=
  if (List.length _TBL_SRC_MIN <=? vi)%nat then JS.TypeError
  else
    match hue_row h10 with
    | None => JS.TypeError
    | Some hi =>
        match src_row vi hi with
        | Some cs =>
            if ((c mod 2 =? 0) && (1 <=? c / 2))%Z
            then JS.Ok (nth_error (decode_row cs) (Z.to_nat (c / 2 - 1)))
            else JS.Ok None
        | None => JS.Ok None
        end
    end.

(** [_TBL_MAX_C[vi][h10 / 25]], [None] for [undefined]. *)
Definition _TBL_MAX_C (vi : nat) (h10 : Z) : JS.result (option Z) :=
  if (List.length _TBL_SRC_MIN <=? vi)%nat then JS.TypeError
  else
    match hue_row h10 with
    | None => JS.Ok None
    | Some hi =>
        match src_row vi hi with
        | Some cs => JS.Ok (Some (2 * Z.of_nat (List.length (decode_row cs)))%Z)
        | None => JS.Ok (Some 0%Z)
        end
    end.

(** [_getXy]; its callers index the answer at once, so a hole is a
    [TypeError] for them. *)
Definition _getXy (vi : nat) (h10 c : Z) : JS.result (R * R) :=
  if (c =? 0)%Z then JS.Ok _ILLUMINANT_C
  else
    e <- _TBL vi h10 c ;;
    match e with
    | Some xy => JS.Ok xy
    | None => JS.TypeError
    end.

(** Y of XYZ (C) from Munsell's V. *)
Definition _v2y (v : JS.num) : JS.num :=
  if (v <=? 1)%js then (v * 0.0121)%js
  else
    let v2 := (v * v)%js in
    let v3 := (v2 * v)%js in
    let y := (0.0467 * v3 + 0.5602 * v2 - 0.1753 * v + 0.8007)%js in
    (y / 100)%js.

(** The body of the [while (true)] loop of [_y2v]; [None] when [fuel]
    iterations did not reach the [break]. *)
Fixpoint _y2v_loop (fuel : nat) (y v : JS.num) : option JS.num :=
  match fuel with
  | O => None
  | S fuel' =>
      let f := (_v2y v * 100 - y * 100)%js in
      let fp := (3 * 0.0467 * (v * v) + 2 * 0.5602 * v - 0.1753)%js in
      let v1 := (JS.neg f / fp + v)%js in
      if (JS.abs (v1 - v) <? 0.01)%js then Some v
      else _y2v_loop fuel' y v1
  end.

(** Munsell's V from Y of XYZ (C), by Newton's method. *)
Definition _y2v (fuel : nat) (y : JS.num) : option JS.num :=
  if (y <=? 0.0121)%js then Some (y / 0.0121)%js
  else _y2v_loop fuel y (JS.Fin 10).

Definition _eq0 (a : R) : bool := JS.Rltb (Rabs a) _EP.

Definition ltOpt (a : Z) (b : option Z) : bool :=
  match b with Some b => (a <? b)%Z | None => false end.
Definition leOpt (a : option Z) (b : Z) : bool :=
  match a with Some a => (a <=? b)%Z | None => false end.

(** One side of the out-of-table case of [_interpolateXY]. *)
Definition edge_xy (vi : nat) (h10 c_l c_u : Z) (maxC : option Z) (rc : R)
  : JS.result (R * R) :=
  if ltOpt c_l maxC then
    a <- _getXy vi h10 c_l ;;
    d <- _getXy vi h10 c_u ;;
    JS.Ok ((fst d - fst a) * rc + fst a, (snd d - snd a) * rc + snd a)
  else
    match maxC with
    | Some m => _getXy vi h10 m
    | None => JS.TypeError
    end.

(** Chromaticity for hue [h] and chroma [c] on the surface of lightness
    index [vi]; the third component is [false] outside the table. *)
Definition _interpolateXY (h c : R) (vi : nat) : JS.result (R * R * bool) :=
  let h10 := h * 10 in
  let h10_l := JS.toInt32 (JS.Fin (IZR (Zfloor (h10 / 25) * 25))) in
  let h10_u := (h10_l + 25)%Z in
  let c_l := JS.toInt32 (JS.Fin (IZR (Zfloor (c / 2) * 2))) in
  let c_u := (c_l + 2)%Z in
  let rh := (h10 - IZR h10_l) / (IZR h10_u - IZR h10_l) in
  let rc := (c - IZR c_l) / (IZR c_u - IZR c_l) in
  let h10_u := if (h10_u =? 1000)%Z then 0%Z else h10_u in
  maxC_hl <- _TBL_MAX_C vi h10_l ;;
  maxC_hu <- _TBL_MAX_C vi h10_u ;;
  if leOpt maxC_hl c_l || leOpt maxC_hu c_l then
    xy_hl <- edge_xy vi h10_l c_l c_u maxC_hl rc ;;
    xy_hu <- edge_xy vi h10_u c_l c_u maxC_hu rc ;;
    JS.Ok ((fst xy_hu - fst xy_hl) * rh + fst xy_hl,
           (snd xy_hu - snd xy_hl) * rh + snd xy_hl,
           false)
  else if (c_l =? 0)%Z then
    let o := _ILLUMINANT_C in
    d <- _getXy vi h10_l c_u ;;
    C <- _getXy vi h10_u c_u ;;
    let cd_x := (fst C - fst d) * rh + fst d in
    let cd_y := (snd C - snd d) * rh + snd d in
    JS.Ok ((cd_x - fst o) * rc + fst o, (cd_y - snd o) * rc + snd o, true)
  else
    a <- _getXy vi h10_l c_l ;;
    d <- _getXy vi h10_l c_u ;;
    b <- _getXy vi h10_u c_l ;;
    C <- _getXy vi h10_u c_u ;;
    let ab_x := (fst b - fst a) * rh + fst a in
    let ab_y := (snd b - snd a) * rh + snd a in
    let cd_x := (fst C - fst d) * rh + fst d in
    let cd_y := (snd C - snd d) * rh + snd d in
    JS.Ok ((cd_x - ab_x) * rc + ab_x, (cd_y - ab_y) * rc + ab_y, true).

(** [let vi_l = -1; while (_TBL_V[vi_l + 1] <= v) ++vi_l;] *)
Fixpoint scan_V (tbl : list R) (v : R) (vi_l : Z) : Z :=
  match tbl with
  | [] => vi_l
  | t :: tbl' => if JS.Rleb t v then scan_V tbl' v (vi_l + 1) else vi_l
  end.

Definition last_V : R := last _TBL_V 0.

(** The tail of every path of [toXYZ]. *)
Definition finish (dest : triple) (st : flags) : triple * flags :=
  let '(xyz, st) := Yxy.toXYZ dest st in
  (XYZ.fromIlluminantC xyz, st).

(** Munsell (HVC) to CIE 1931 XYZ, for a colour of finite components. *)
Definition toXYZ (hvc : R * R * R) (st : flags) : JS.result (triple * flags) :=
  let '(h, v, c) := hvc in
  let h := if JS.Rleb _MAX_HUE h then h - _MAX_HUE else h in
  let dest0 := _v2y (JS.Fin v) in
  let st := set_Munsell false st in
  if _eq0 v || JS.Rltb h 0 || JS.Rltb c MONO_LIMIT_C then
    let st := set_Munsell (_eq0 v && JS.Rltb 0 c) st in
    JS.Ok (finish (dest0, JS.Fin (fst _ILLUMINANT_C), JS.Fin (snd _ILLUMINANT_C)) st)
  else if JS.Rleb last_V v then
    ' (x, y, _) <- _interpolateXY h c (List.length _TBL_V - 1) ;;
    let st := set_Munsell (JS.Rltb last_V v) st in
    JS.Ok (finish (dest0, JS.Fin x, JS.Fin y) st)
  else
    let vi_l := scan_V _TBL_V v (-1) in
    let vi_u := (vi_l + 1)%Z in
    ' (xl, yl, st) <-
      (if (vi_l =? -1)%Z
       then JS.Ok (fst _ILLUMINANT_C, snd _ILLUMINANT_C, set_Munsell true st)
       else
         ' (x, y, inside) <- _interpolateXY h c (Z.to_nat vi_l) ;;
         JS.Ok (x, y, if inside then st else set_Munsell true st)) ;;
    ' (xu, yu, inside) <- _interpolateXY h c (Z.to_nat vi_u) ;;
    let st := if inside then st else set_Munsell true st in
    let v_l := if (vi_l =? -1)%Z then 0 else nth (Z.to_nat vi_l) _TBL_V 0 in
    let v_h := nth (Z.to_nat vi_u) _TBL_V 0 in
    let r := (v - v_l) / (v_h - v_l) in
    let x := (xu - xl) * r + xl in
    let y := (yu - yl) * r + yl in
    JS.Ok (finish (dest0, JS.Fin x, JS.Fin y) st).

(** *** Looking a chromaticity up in a cell of the table *)

(** [_cross]: the z component of the cross product of two plane vectors. *)
Definition _cross (ax ay bx by_ : JS.num) : JS.num :=
  (ax * by_ - ay * bx)%js.

(** Whether the point (x, y) is in the triangle abc; the corners come
    from the table and are finite, the point is any pair of numbers. *)
Definition _isInside (a b c : R * R) (x y : JS.num) : bool :=
  let '(a0, a1) := a in
  let '(b0, b1) := b in
  let '(c0, c1) := c in
  if (_cross (x - a0) (y - a1) (JS.Fin (b0 - a0)) (JS.Fin (b1 - a1)) <? 0)%js
  then false
  else if (_cross (x - b0) (y - b1) (JS.Fin (c0 - b0)) (JS.Fin (c1 - b1)) <? 0)%js
  then false
  else if (_cross (x - c0) (y - c1) (JS.Fin (a0 - c0)) (JS.Fin (a1 - c1)) <? 0)%js
  then false
  else true.

(** The ratios [h, v] of the point (x, y) in the cell of corners a, d, b,
    c, on finite numbers; [None] is [null].  The only operation that can
    leave the finite numbers is [Math.sqrt] of a negative discriminant:
    [rt] is then NaN, every comparison on [v1] and [v2] fails and [v]
    stays [-1]. *)
Definition _interpolationRatio (x y : R) (a d b c : R * R) : option (R * R) :=
  let '(a0, a1) := a in
  let '(d0, d1) := d in
  let '(b0, b1) := b in
  let '(c0, c1) := c in
  let ea := (a0 - d0) * (a1 + c1 - b1 - d1) - (a0 + c0 - b0 - d0) * (a1 - d1) in
  let eb := (x - a0) * (a1 + c1 - b1 - d1) + (a0 - d0) * (b1 - a1)
            - (a0 + c0 - b0 - d0) * (y - a1) - (b0 - a0) * (a1 - d1) in
  let ec := (x - a0) * (b1 - a1) - (y - a1) * (b0 - a0) in
  let v :=
    if _eq0 ea then (if negb (_eq0 eb) then - ec / eb else -1)
    else
      match JS.sqrt (JS.Fin (eb * eb - 4 * ea * ec)) with
      | JS.Fin rt =>
          let v1 := (- eb + rt) / (2 * ea) in
          let v2 := (- eb - rt) / (2 * ea) in
          if JS.Reqb a0 b0 && JS.Reqb a1 b1
          then (if JS.Rleb 0 v2 && JS.Rleb v2 1 then v2 else -1)
          else if JS.Rleb 0 v1 && JS.Rleb v1 1 then v1
          else if JS.Rleb 0 v2 && JS.Rleb v2 1 then v2
          else -1
      | _ => -1
      end in
  if JS.Rltb v 0 then None
  else
    let deX := (a0 - d0 - b0 + c0) * v - a0 + b0 in
    let deY := (a1 - d1 - b1 + c1) * v - a1 + b1 in
    let h1 := if negb (_eq0 deX) then ((a0 - d0) * v + x - a0) / deX else -1 in
    let h2 := if negb (_eq0 deY) then ((a1 - d1) * v + y - a1) / deY else -1 in
    let h := if JS.Rleb 0 h1 && JS.Rleb h1 1 then h1
             else if JS.Rleb 0 h2 && JS.Rleb h2 1 then h2
             else -1 in
    if JS.Rltb h 0 then None else Some (h, v).

Section Formatting.

(** The conversion of a number to a string is the host's. *)
Variable numberToString : R -> string.

Definition hueValueToHueName (hue chroma : R) : string :=
  if JS.Reqb hue (-1) || _eq0 chroma then "N"%string
  else
    let hue := if JS.Rleb hue 0 then hue + _MAX_HUE else hue in
    let h10 := Z.rem (JS.toInt32 (JS.Fin (hue * 10))) 100 in
    let c := JS.toInt32 (JS.Fin (hue / 10)) in
    let '(h10, c) := if (h10 =? 0)%Z then (100%Z, (c - 1)%Z) else (h10, c) in
    let name :=
      if (c <? 0)%Z then "undefined"%string
      else nth (Z.to_nat c) _HUE_NAMES "undefined"%string in
    (numberToString (IZR (JS.round (IZR h10 * 10)) / 100) ++ name)%string.

Definition toString (hvc : R * R * R) : string :=
  let '(h, v, c) := hvc in
  let vstr := IZR (JS.round (v * 10)) / 10 in
  if JS.Rltb c MONO_LIMIT_C then
    ("N " ++ numberToString vstr)%string
  else
    let hue := hueValueToHueName h c in
    let cstr := IZR (JS.round (c * 10)) / 10 in
    (hue ++ " " ++ numberToString vstr ++ "/" ++ numberToString cstr)%string.

End Formatting.

End Munsell.

(* ===================================================================== *)
(** ** PCCS (hls) *)
(* ===================================================================== *)

Module PCCS.

Definition _MIN_HUE : R := 0.
Definition _MAX_HUE : R := 24.
Definition _MONO_LIMIT_S : R := 0.01.

Definition _MUNSELL_H : list R :=
  [96;
   0; 4; 7; 10; 14; 18; 22; 25; 28; 33; 38; 43;
   49; 55; 60; 65; 70; 73; 76; 79; 83; 87; 91; 96; 100].

Definition _COEFFICIENTS : list (R * R * R) :=
  [(0.853642, 0.084379, -0.002798);
   (1.042805, 0.046437, 0.001607);
   (1.079160, 0.025470, 0.003052);
   (1.039472, 0.054749, -0.000511);
   (0.925185, 0.050245, 0.000953);
   (0.968557, 0.012537, 0.003375);
   (1.070433, -0.047359, 0.007385);
   (1.087030, -0.051075, 0.006526);
   (1.089652, -0.050206, 0.006056);
   (0.880861, 0.060300, -0.001280);
   (0.897326, 0.053912, -0.000860);
   (0.887834, 0.055086, -0.000847);
   (0.853642, 0.084379, -0.002798)].

(** Reading a cell of an array of numbers for arithmetic or comparison:
    a read outside the array yields [undefined], hence NaN. *)
Definition read (l : list R) (i : Z) : JS.num :=
  if (i <? 0)%Z then JS.NaN
  else match nth_error l (Z.to_nat i) with
       | Some r => JS.Fin r
       | None => JS.NaN
       end.

(** Reading the row [_COEFFICIENTS[i / 2]] for an even [i]; the caller
    indexes the row, so a missing row is a [TypeError]. *)
Definition coefficient_row (i : Z) : JS.result (R * R * R) :=
  if (i <? 0)%Z then JS.TypeError
  else match nth_error _COEFFICIENTS (Z.to_nat (i / 2)) with
       | Some r => JS.Ok r
       | None => JS.TypeError
       end.

(** *** Accurate calculation *)

Definition _calcInterpolatedCoefficients (h : R)
  : JS.result (R * R * R * R) :=
  let h := if JS.Rltb _MAX_HUE h then h - _MAX_HUE else h in
  let hf := JS.toInt32 (JS.Fin (IZR (Zfloor h))) in
  let hf := if negb (Z.rem hf 2 =? 0)%Z then (hf - 1)%Z else hf in
  let hc := (hf + 2)%Z in
  let hc := if JS.Rltb _MAX_HUE (IZR hc) then (hc - 24)%Z else hc in
  ' (af0, af1, af2) <- coefficient_row hf ;;
  ' (ac0, ac1, ac2) <- coefficient_row hc ;;
  let t := (h - IZR hf) / (IZR hc - IZR hf) in
  JS.Ok (0, t * (ac0 - af0) + af0, t * (ac1 - af1) + af1,
         t * (ac2 - af2) + af2).

(** The [while (true)] loop of [_solveEquation]; [None] when [fuel]
    iterations did not reach the [break]. *)
Fixpoint _solveEquation_loop (fuel : nat) (x a3 a2 a1 a0 : JS.num)
  : option JS.num :=
  match fuel with
  | O => None
  | S fuel' =>
      let y := (a3 * x * x * x + a2 * x * x + a1 * x + a0)%js in
      let yp := (3 * a3 * x * x + 2 * a2 * x + a1)%js in
      let x1 := (JS.neg y / yp + x)%js in
      if (JS.abs (x1 - x) <? 0.001)%js then Some x
      else _solveEquation_loop fuel' x1 a3 a2 a1 a0
  end.

Definition _solveEquation (fuel : nat) (x0 a3 a2 a1 a0 : JS.num)
  : option JS.num :=
  _solveEquation_loop fuel x0 a3 a2 a1 a0.

Definition _simplyCalcPccsS (V C h : R) : JS.num :=
  let Ct := 12 + 1.7 * sin ((h + 2.2) * PI / 12) in
  let gt := 0.81 - 0.24 * sin ((h - 2.6) * PI / 12) in
  let e2 := 0.004 in
  let e1 := 0.077 in
  let e0 := (JS.Fin (- C) / JS.Fin (Ct * (1 - exp (- gt * V))))%js in
  ((JS.Fin (- e1) + JS.sqrt (JS.Fin (e1 * e1) - JS.Fin (4 * e2) * e0))
   / JS.Fin (2 * e2))%js.

Definition _calcPccsS (fuel : nat) (V C h : R)
  : JS.result (option JS.num) :=
  ' (_, a1, a2, a3) <- _calcInterpolatedCoefficients h ;;
  let g := 0.81 - 0.24 * sin ((h - 2.6) / 12 * PI) in
  let a0 := (JS.Fin (- C) / JS.Fin (1 - exp (- g * V)))%js in
  JS.Ok (_solveEquation fuel (_simplyCalcPccsS V C h)
           (JS.Fin a3) (JS.Fin a2) (JS.Fin a1) a0).

Definition _calcMunsellH (h : R) : JS.num :=
  let h1 := JS.toInt32 (JS.Fin (IZR (Zfloor h))) in
  let h2 := (h1 + 1)%Z in
  let H1 := read _MUNSELL_H h1 in
  let H2 := read _MUNSELL_H h2 in
  let H2 := if (H2 <? H1)%js then JS.Fin 100 else H2 in
  (H1 + (H2 - H1) * JS.Fin (h - IZR h1) / JS.Fin (IZR h2 - IZR h1))%js.

Definition _calcMunsellC (h l s : R) : JS.result JS.num :=
  ' (_, a1, a2, a3) <- _calcInterpolatedCoefficients h ;;
  let g := 0.81 - 0.24 * sin ((h - 2.6) / 12 * PI) in
  JS.Ok (JS.Fin ((a3 * s * s * s + a2 * s * s + a1 * s) * (1 - exp (- g * l)))).

(** *** Concise calculation *)

Definition _simplyCalcMunsellH (h : R) : JS.num :=
  let x := (h - 1) * PI / 12 in
  JS.Fin (100 * x / (2 * PI) - 1
          + 0.12 * cos x + 0.34 * cos (2 * x) + 0.4 * cos (3 * x)
          - 2.7 * sin x + 1.5 * sin (2 * x) - 0.4 * sin (3 * x)).

Definition _simplyCalcMunsellC (h l s : R) : JS.result JS.num :=
  let Ct := 12 + 1.7 * sin ((h + 2.2) * PI / 12) in
  let gt := 0.81 - 0.24 * sin ((h - 2.6) * PI / 12) in
  JS.Ok (JS.Fin (Ct * (0.077 * s + 0.0040 * s * s) * (1 - exp (- gt * l)))).

(** *** Conversion methods

    Of a method object, [toMunsell] reads the keys [_calcMunsellH] and
    [_calcMunsellC]; a key the object does not have is [None], and calling
    it throws. *)
Record ConversionMethod : Type := mkMethod {
  m_calcMunsellH : option (R -> JS.num);
  m_calcMunsellC : option (R -> R -> R -> JS.result JS.num)
}.

(** [CONCISE] stores [_simplyCalcMunsellC] under the key [_calcMunsellS];
    it has no key [_calcMunsellC]. *)
Definition CONCISE : ConversionMethod :=
  mkMethod (Some _simplyCalcMunsellH) None.

Definition ACCURATE : ConversionMethod :=
  mkMethod (Some _calcMunsellH) (Some _calcMunsellC).

Definition call {A : Type} (f : option A) : JS.result A :=
  match f with Some f => JS.Ok f | None => JS.TypeError end.

(** PCCS (hls) to Munsell (HVC) under the conversion method [m]. *)
Definition toMunsell (m : ConversionMethod) (hls : R * R * R) : JS.result triple :=
  let '(h, l, s) := hls in
  calcH <- call (m_calcMunsellH m) ;;
  let H := calcH h in
  C <- (if JS.Rleb _MONO_LIMIT_S s
        then calcC <- call (m_calcMunsellC m) ;; calcC h l s
        else JS.Ok (JS.Fin 0)) ;;
  let H := if (H <? 0)%js then (H + Munsell.MAX_HUE)%js else H in
  let H := if (Munsell.MAX_HUE <=? H)%js then (H - Munsell.MAX_HUE)%js else H in
  JS.Ok (H, JS.Fin l, C).

(** *** From Munsell to PCCS *)

(** The loop of [_calcPccsH] from index [i] on, over the breakpoints not
    yet visited: [h1] is the last index whose breakpoint is at most [H],
    [h2] the index at which the loop breaks, or -1 when it runs out. *)
Fixpoint calcPccsH_scan (H : JS.num) (ts : list R) (i h1 : Z) : Z * Z :=
  match ts with
  | [] => (h1, (-1)%Z)
  | t :: ts' =>
      let h1 := if (JS.Fin t <=? H)%js then i else h1 in
      if (H <? JS.Fin t)%js then (h1, i)
      else calcPccsH_scan H ts' (i + 1)%Z h1
  end.

(** The two calls of [console.error] only write to the console. *)
Definition _calcPccsH (H : JS.num) : JS.num :=
  let '(h1, h2) := calcPccsH_scan H (tl _MUNSELL_H) 1 (-1) in
  (JS.Fin (IZR h1)
   + JS.Fin (IZR (h2 - h1)) * (H - read _MUNSELL_H h1)
     / (read _MUNSELL_H h2 - read _MUNSELL_H h1))%js.

Section FromMunsell.

(** The functions stored in [PCCS.conversionMethod] under the keys
    [_calcPccsH] and [_calcPccsS]; both methods have both keys.  The
    saturation is computed by a loop, which may not return ([None]). *)
Variable calcPccsH : JS.num -> JS.num.
Variable calcPccsS : R -> R -> JS.num -> JS.result (option JS.num).

(** Munsell (HVC) to PCCS (hls). *)
Definition fromMunsell (HVC : R * R * R) : JS.result (option triple) :=
  let '(H, V, C) := HVC in
  let H := if (Munsell.MAX_HUE <=? JS.Fin H)%js
           then (JS.Fin H - Munsell.MAX_HUE)%js else JS.Fin H in
  let h := calcPccsH H in
  s <- (if JS.Rleb Munsell.MONO_LIMIT_C C then calcPccsS V C h
        else JS.Ok (Some (JS.Fin 0))) ;;
  match s with
  | None => JS.Ok None
  | Some s =>
      let h := if (JS.Fin _MAX_HUE <=? h)%js then (h - JS.Fin _MAX_HUE)%js else h in
      JS.Ok (Some (h, JS.Fin V, s))
  end.

End FromMunsell.

End PCCS.

(* ===================================================================== *)
(** ** Evaluation: colour difference and categorical colours *)
(* ===================================================================== *)

Module Evaluation.

(** [Math.atan2] on finite arguments. *)
Definition atan2 (y x : R) : R :=
  if JS.Rltb 0 x then atan (y / x)
  else if JS.Rltb x 0 then
    (if JS.Rleb 0 y then atan (y / x) + PI else atan (y / x) - PI)
  else if JS.Rltb 0 y then PI / 2
  else if JS.Rltb y 0 then - PI / 2
  else 0.

(** The helper functions local to [CIEDE2000]. *)
Definition sq (v : R) : R := v * v.
Definition atan_deg (y x : R) : R :=
  let v := atan2 y x * 180 / PI in
  if JS.Rltb v 0 then v + 360 else v.
Definition sin_deg (deg : R) : R := sin (deg * PI / 180).
Definition cos_deg (deg : R) : R := cos (deg * PI / 180).

(** [Math.pow(c, 7) / (Math.pow(c, 7) + Math.pow(25, 7))] *)
Definition ratio7 (c : R) : R := c ^ 7 / (c ^ 7 + 25 ^ 7).

(** The weighting factor [G] of the two chromas. *)
Definition G_of (as1 bs1 as2 bs2 : R) : R :=
  let C1 := sqrt (as1 * as1 + bs1 * bs1) in
  let C2 := sqrt (as2 * as2 + bs2 * bs2) in
  let Cb := (C1 + C2) / 2 in
  0.5 * (1 - sqrt (ratio7 Cb)).

(** Adjusted chroma [Cp] and hue angle [hp] of one colour. *)
Definition Cp_of (G as_ bs : R) : R :=
  let ap := (1 + G) * as_ in
  sqrt (ap * ap + bs * bs).

Definition hp_of (G as_ bs : R) : R :=
  let ap := (1 + G) * as_ in
  if JS.Reqb bs 0 && JS.Reqb ap 0 then 0 else atan_deg bs ap.

(** The hue difference [Dhp] ([let Dhp = 0] and the [if] chain). *)
Definition Dhp_of (Cp1 Cp2 hp1 hp2 : R) : R :=
  if JS.Rltb (Cp1 * Cp2) 1e-10 then 0
  else if JS.Rleb (Rabs (hp2 - hp1)) 180 then hp2 - hp1
  else if JS.Rltb 180 (hp2 - hp1) then (hp2 - hp1) - 360
  else if JS.Rltb (hp2 - hp1) (-180) then (hp2 - hp1) + 360
  else 0.

(** The mean hue [hbp] ([let hbp = 0] and the [if] chain). *)
Definition hbp_of (Cp1 Cp2 hp1 hp2 : R) : R :=
  if JS.Rltb (Cp1 * Cp2) 1e-10 then hp1 + hp2
  else if JS.Rleb (Rabs (hp2 - hp1)) 180 then (hp1 + hp2) / 2
  else if JS.Rltb 180 (Rabs (hp2 - hp1)) && JS.Rltb (hp1 + hp2) 360
       then (hp1 + hp2 + 360) / 2
  else if JS.Rltb 180 (Rabs (hp2 - hp1)) && JS.Rleb 360 (hp1 + hp2)
       then (hp1 + hp2 - 360) / 2
  else 0.

(** The weighting functions, one definition for each [const]. *)
Definition T_of (hbp : R) : R :=
  1 - 0.17 * cos_deg (hbp - 30) + 0.24 * cos_deg (2 * hbp)
  + 0.32 * cos_deg (3 * hbp + 6) - 0.2 * cos_deg (4 * hbp - 63).
Definition Dth_of (hbp : R) : R := 30 * exp (- sq ((hbp - 275) / 25)).
Definition RC_of (Cbp : R) : R := 2 * sqrt (ratio7 Cbp).
Definition SL_of (Lbp : R) : R :=
  1 + 0.015 * sq (Lbp - 50) / sqrt (20 + sq (Lbp - 50)).
Definition SC_of (Cbp : R) : R := 1 + 0.045 * Cbp.
Definition SH_of (Cbp T : R) : R := 1 + 0.015 * Cbp * T.
Definition RT_of (Dth RC : R) : R := - sin_deg (2 * Dth) * RC.

(** The sum under the final square root. *)
Definition DE_sum (DLp DCp DHp SL SC SH RT : R) : R :=
  let kL := 1 in
  let kC := 1 in
  let kH := 1 in
  sq (DLp / (kL * SL)) + sq (DCp / (kC * SC)) + sq (DHp / (kH * SH))
  + RT * (DCp / (kC * SC)) * (DHp / (kH * SH)).

(** The part of [CIEDE2000] after the hue angles. *)
Definition DE_of (ls1 Cp1 hp1 ls2 Cp2 hp2 : R) : R :=
  let DLp := ls2 - ls1 in
  let DCp := Cp2 - Cp1 in
  let Dhp := Dhp_of Cp1 Cp2 hp1 hp2 in
  let DHp := 2 * sqrt (Cp1 * Cp2) * sin_deg (Dhp / 2) in
  let Lbp := (ls1 + ls2) / 2 in
  let Cbp := (Cp1 + Cp2) / 2 in
  let hbp := hbp_of Cp1 Cp2 hp1 hp2 in
  let T := T_of hbp in
  let Dth := Dth_of hbp in
  let RC := RC_of Cbp in
  let SL := SL_of Lbp in
  let SC := SC_of Cbp in
  let SH := SH_of Cbp T in
  let RT := RT_of Dth RC in
  sqrt (DE_sum DLp DCp DHp SL SC SH RT).

(** Colour difference by CIEDE2000, on Lab colours of finite components. *)
Definition CIEDE2000 (lab1 lab2 : R * R * R) : R :=
  let '(ls1, as1, bs1) := lab1 in
  let '(ls2, as2, bs2) := lab2 in
  let G := G_of as1 bs1 as2 bs2 in
  let Cp1 := Cp_of G as1 bs1 in
  let Cp2 := Cp_of G as2 bs2 in
  let hp1 := hp_of G as1 bs1 in
  let hp2 := hp_of G as2 bs2 in
  DE_of ls1 Cp1 hp1 ls2 Cp2 hp2.

(** *** Basic categorical colours *)

Definition CATEGORICAL_COLORS : list string :=
  ["white"; "black"; "red"; "green";
   "yellow"; "blue"; "brown"; "purple";
   "pink"; "orange"; "gray"]%string.

Definition _Y_TO_LUM : R := 60.
Definition _LUM_TABLE : list Z := [2; 5; 10; 20; 30; 40]%Z.

(** [_CC_TABLE[clum]], [None] for [undefined]. *)
Definition _CC_TABLE (clum : Z) : option string :=
  match clum with
  | 2%Z => Some "...................5.................557................557...............55777.............55.777............55577777...........55577777..........5557777777........55511..6767.......333.116666666......3331.666666.......3333116666........33331116...........33333.............3333..............33..................................................................................."%string
  | 5%Z => Some "5..................55................557...............55777..............55777.............5577777...........555777777.........5557777777.........55a77777777.......555aa77777727.....555aaa66666666....3353aa666666666...33333a6666666......33333366666.......333333366.........33333333..........333333.............3333..............33................3.............................."%string
  | 10%Z => Some "5..................57................557...............55777..............557777............5577777...........555777777.........55577777788.......555aa777..88.......555aa77...222.....555aa.68668.222...5333aa666666999...33333a66666699....3333333666666......3333333666........333333336.........3333333...........333333.............333...............33................3............"%string
  | 20%Z => Some ".......................................77..............55777..............557777............557777............557777788.........55577778888.......555577.88888.......555.78888888......555aa.8888882.....5533.a888999999...33333366999999....3333333669999......33333334.99.......333333344.........33333333..........333333............33333..............33................3............"%string
  | 30%Z => Some "..........................................................................5.77..............55777.............55777.............55577.8...........55557788...........55557888..........555508888.........3535348888........33333449999.......333333449999.......33333344449.......333333444.........33333334..........333333............33333..............333...............3............"%string
  | 40%Z => Some "..............................................................................................77..............55577.............55577.............555578.............5550.8............5555088...........5333008...........35333449..........333333444..........333334444.........333333444.........33333344..........3333333...........33333..............333...............3............"%string
  | _ => None
  end.

(** The search for the nearest luminance of the table. *)
Fixpoint nearest_lum (ls : list Z) (lum diff : JS.num) (clum : Z) : Z :=
  match ls with
  | [] => clum
  | l :: ls' =>
      let d := JS.abs (lum - JS.Fin (IZR l))%js in
      if (d <? diff)%js then nearest_lum ls' lum d l
      else nearest_lum ls' lum diff clum
  end.

(** The value of the variable [cc]: the number [1] it starts with, or a
    cell [t[i]] of the table ([None] for [undefined]). *)
Inductive cell : Type :=
| One
| Cell (c : option ascii).

(** The search for the nearest occupied cell, over the indices [idx]. *)
Fixpoint nearest_cell (t : string) (sx sy : R) (idx : list nat)
    (dis : R) (cc : cell) : cell :=
  match idx with
  | [] => cc
  | i :: idx' =>
      if match String.get i t with
         | Some c => Ascii.eqb c "."
         | None => false
         end
      then nearest_cell t sx sy idx' dis cc
      else
        let x := INR (i mod 18) * 25 + 150 in
        let y := INR (i / 18) * 25 + 75 in
        let d := sqrt ((sx - x) * (sx - x) + (sy - y) * (sy - y)) in
        if JS.Rltb d dis
        then nearest_cell t sx sy idx' d (Cell (String.get i t))
        else nearest_cell t sx sy idx' dis cc
  end.

(** [parseInt] of a one-character string; [None] for NaN. *)
Definition parseInt_char (c : ascii) : option nat :=
  let n := nat_of_ascii c in
  if (48 <=? n)%nat && (n <=? 57)%nat then Some (n - 48)%nat else None.

(** [(cc === 'a') ? 10 : parseInt(cc)]; [None] for NaN. *)
Definition index_of_cell (cc : cell) : option nat :=
  match cc with
  | One => Some 1%nat
  | Cell (Some c) => if Ascii.eqb c "a" then Some 10%nat else parseInt_char c
  | Cell None => None
  end.

(** The basic categorical colour of a Yxy colour of finite components:
    a name, [undefined] ([None]), or a thrown [TypeError]. *)
Definition categoryOfYxy (yxy : R * R * R) : JS.result (option string) :=
  let '(y, sx, sy) := yxy in
  let lum := JS.pow (JS.Fin (y * _Y_TO_LUM)) 0.9 in
  let clum := nearest_lum _LUM_TABLE lum (JS.Fin JS.MAX_VALUE) 0 in
  match _CC_TABLE clum with
  | None => JS.TypeError
  | Some t =>
      let sx := sx * 1000 in
      let sy := sy * 1000 in
      let cc := nearest_cell t sx sy (seq 0 (18 * 21)) JS.MAX_VALUE One in
      match index_of_cell cc with
      | Some ci => JS.Ok (nth_error CATEGORICAL_COLORS ci)
      | None => JS.Ok None
      end
  end.

(** *** Conspicuity and Euclidean differences *)

(** The conspicuity degree of a Lab colour of finite components. *)
Definition conspicuityOfLab (lab : R * R * R) : R :=
  let '(ls, as_, bs) := lab in
  let rad := if JS.Rltb 0 bs then atan2 bs as_ else atan2 (- bs) (- as_) + PI in
  let H := rad / (PI * 2) * 360 in
  let a := 35 in
  if JS.Rltb H a then Rabs (180 - (360 + H - a)) else Rabs (180 - (H - a)).

(** Distance of two vectors. *)
Definition distance (vs1 vs2 : R * R * R) : R :=
  let '(v11, v12, v13) := vs1 in
  let '(v21, v22, v23) := vs2 in
  sqrt ((v11 - v21) * (v11 - v21) + (v12 - v22) * (v12 - v22)
        + (v13 - v23) * (v13 - v23)).

(** Colour difference by CIE 76. *)
Definition CIE76 (lab1 lab2 : R * R * R) : R :=
  let '(ls1, as1, bs1) := lab1 in
  let '(ls2, as2, bs2) := lab2 in
  sqrt ((ls1 - ls2) * (ls1 - ls2) + (as1 - as2) * (as1 - as2)
        + (bs1 - bs2) * (bs1 - bs2)).

(** [differenceBetweenLab(lab1, lab2, method = 'cie76')]; [method] is
    [None] when the argument is left out. *)
Definition differenceBetweenLab (lab1 lab2 : R * R * R)
    (method : option string) : R :=
  let method := match method with Some m => m | None => "cie76"%string end in
  if String.eqb method "cie76" then CIE76 lab1 lab2 else CIEDE2000 lab1 lab2.

End Evaluation.

(* ===================================================================== *)
(** ** Lab: polar and rectangular coordinates *)
(* ===================================================================== *)

(** The two coordinate conversions of the class [Lab]; they come after
    [Evaluation] here because they share its [atan2]. *)
Module LabCoordinate.

Definition toPolarCoordinate (lab : R * R * R) : R * R * R :=
  let '(ls, as_, bs) := lab in
  let rad :=
    if JS.Rltb 0 bs then Evaluation.atan2 bs as_
    else Evaluation.atan2 (- bs) (- as_) + PI in
  let cs := sqrt (as_ * as_ + bs * bs) in
  let h := rad * 360 / (PI * 2) in
  (ls, cs, h).

Definition toOrthogonalCoordinate (lch : R * R * R) : R * R * R :=
  let '(ls, cs, h) := lch in
  let rad := h * (PI * 2) / 360 in
  let as_ := cos rad * cs in
  let bs := sin rad * cs in
  (ls, as_, bs).

End LabCoordinate.

(* ===================================================================== *)
(** ** AgeSimulation: colour vision of the elderly *)
(* ===================================================================== *)

Module AgeSimulation.

Definition _hueDiff (a b : R) : R :=
  let p := if JS.Rltb 0 b then Evaluation.atan2 b a
           else Evaluation.atan2 (- b) (- a) + PI in
  4.5 * cos (2 * PI * (p - 28.8) / 50.9) + 4.4.

Definition _chromaRatio (a b : R) : R :=
  let c := sqrt (a * a + b * b) in
  0.83 * exp (- c / 13.3)
  - (1 / 8) * exp (- (c - 50) * (c - 50) / (3000 * 3000)) + 1.

Definition labToElderlyAB (lab : R * R * R) : R * R * R :=
  let '(ls, as_, bs) := lab in
  let h := (if JS.Rltb 0 bs then Evaluation.atan2 bs as_
            else Evaluation.atan2 (- bs) (- as_) + PI)
           + _hueDiff as_ bs in
  let c := sqrt (as_ * as_ + bs * bs) * _chromaRatio as_ bs in
  (ls, cos h * c, sin h * c).

Definition labToYoungAB (lab : R * R * R) : R * R * R :=
  let '(ls, as_, bs) := lab in
  let h := (if JS.Rltb 0 bs then Evaluation.atan2 bs as_
            else Evaluation.atan2 (- bs) (- as_) + PI)
           - _hueDiff as_ bs in
  let c := sqrt (as_ * as_ + bs * bs) / _chromaRatio as_ bs in
  (ls, cos h * c, sin h * c).

End AgeSimulation.

(* ===================================================================== *)
(** ** ColorVisionSimulation: dichromatic colour vision *)
(* ===================================================================== *)

Module ColorVisionSimulation.

Definition ALPHA : R := 1.
Definition BETA : R := 1.

(** [LMS.fromXYZ([1, 1, 1])], computed once with the matrix the library
    starts with. *)
Definition LMS_BASE : triple :=
  LMS.fromXYZ LMS.matrix (JS.Fin 1, JS.Fin 1, JS.Fin 1).

Definition brettelP (lms : triple) : triple :=
  let '(l, m, s) := lms in
  ((0.0 * l + 2.02344 * m + (-2.52581) * s)%js,
   (0.0 * l + 1.0 * m + 0.0 * s)%js,
   (0.0 * l + 0.0 * m + 1.0 * s)%js).

Definition brettelD (lms : triple) : triple :=
  let '(l, m, s) := lms in
  ((1.0 * l + 0.0 * m + 0.0 * s)%js,
   (0.494207 * l + 0.0 * m + 1.24827 * s)%js,
   (0.0 * l + 0.0 * m + 1.0 * s)%js).

Definition okajimaCorrectionP (m : JS.num) (lms base : triple) : triple :=
  let '(l2, m2, s2) := lms in
  let '(base0, base1, base2) := base in
  let sp1 := (m / base1)%js in
  let dp0 := (l2 / base0)%js in
  let dp1 := (m2 / base1)%js in
  let dp2 := (s2 / base2)%js in
  let k := (BETA * sp1 / (ALPHA * dp0 + BETA * dp1))%js in
  ((k * dp0 * base0)%js, (k * dp1 * base1)%js, (k * dp2 * base2)%js).

Definition okajimaCorrectionD (l : JS.num) (lms base : triple) : triple :=
  let '(l2, m2, s2) := lms in
  let '(base0, base1, base2) := base in
  let sp0 := (l / base0)%js in
  let dp0 := (l2 / base0)%js in
  let dp1 := (m2 / base1)%js in
  let dp2 := (s2 / base2)%js in
  let k := (ALPHA * sp0 / (ALPHA * dp0 + BETA * dp1))%js in
  ((k * dp0 * base0)%js, (k * dp1 * base1)%js, (k * dp2 * base2)%js).

Definition lmsToProtanopia (lms : triple) (doCorrection : bool) : triple :=
  let ds := brettelP lms in
  if negb doCorrection then ds
  else okajimaCorrectionP (snd (fst lms)) ds LMS_BASE.

Definition lmsToDeuteranopia (lms : triple) (doCorrection : bool) : triple :=
  let ds := brettelD lms in
  if negb doCorrection then ds
  else okajimaCorrectionD (fst (fst lms)) ds LMS_BASE.

End ColorVisionSimulation.

(* ===================================================================== *)
(** ** The dispatcher [convert] *)
(* ===================================================================== *)

Module Dispatcher.

(** The conversion functions the chains of [convert] are composed of. *)
Inductive step : Type :=
| RGB_fromLRGB | LRGB_fromYIQ | LRGB_fromXYZ | XYZ_fromYxy | XYZ_fromLab
| XYZ_fromLMS | XYZ_fromMunsell | Munsell_fromPCCS | LRGB_fromRGB
| YIQ_fromLRGB | XYZ_fromLRGB | Yxy_fromXYZ | Lab_fromXYZ | LMS_fromXYZ
| Munsell_fromXYZ | PCCS_fromMunsell.

(** The [case] labels of the [switch], in order, each with the calls of
    its [return] expression from the outermost to the innermost. *)
Definition cases : list (string * list step) :=
  [
   ("yiq-rgb", [RGB_fromLRGB; LRGB_fromYIQ]);
   ("lrgb-rgb", [RGB_fromLRGB]);
   ("xyz-rgb", [RGB_fromLRGB; LRGB_fromXYZ]);
   ("yxy-rgb", [RGB_fromLRGB; LRGB_fromXYZ; XYZ_fromYxy]);
   ("lab-rgb", [RGB_fromLRGB; LRGB_fromXYZ; XYZ_fromLab]);
   ("lms-rgb", [RGB_fromLRGB; LRGB_fromXYZ; XYZ_fromLMS]);
   ("munsell-rgb", [RGB_fromLRGB; LRGB_fromXYZ; XYZ_fromMunsell]);
   ("pccs-rgb", [RGB_fromLRGB; LRGB_fromXYZ; XYZ_fromMunsell; Munsell_fromPCCS]);
   ("rgb-lrgb", [LRGB_fromRGB]);
   ("yiq-lrgb", [LRGB_fromYIQ]);
   ("xyz-lrgb", [LRGB_fromXYZ]);
   ("yxy-lrgb", [LRGB_fromXYZ; XYZ_fromYxy]);
   ("lab-lrgb", [LRGB_fromXYZ; XYZ_fromLab]);
   ("lms-lrgb", [LRGB_fromXYZ; XYZ_fromLMS]);
   ("munsell-lrgb", [LRGB_fromXYZ; XYZ_fromMunsell]);
   ("pccs-lrgb", [LRGB_fromXYZ; XYZ_fromMunsell; Munsell_fromPCCS]);
   ("rgb-yiq", [YIQ_fromLRGB; LRGB_fromRGB]);
   ("lrgb-yiq", [YIQ_fromLRGB]);
   ("xyz-yiq", [YIQ_fromLRGB; LRGB_fromXYZ]);
   ("yxy-yiq", [YIQ_fromLRGB; LRGB_fromXYZ; XYZ_fromYxy]);
   ("lab-yiq", [YIQ_fromLRGB; LRGB_fromXYZ; XYZ_fromLab]);
   ("lms-yiq", [YIQ_fromLRGB; LRGB_fromXYZ; XYZ_fromLMS]);
   ("munsell-yiq", [YIQ_fromLRGB; LRGB_fromXYZ; XYZ_fromMunsell]);
   ("pccs-yiq", [YIQ_fromLRGB; LRGB_fromXYZ; XYZ_fromMunsell; Munsell_fromPCCS]);
   ("rgb-xyz", [XYZ_fromLRGB; LRGB_fromRGB]);
   ("yiq-xyz", [XYZ_fromLRGB; LRGB_fromYIQ]);
   ("lrgb-xyz", [XYZ_fromLRGB]);
   ("yxy-xyz", [XYZ_fromYxy]);
   ("lab-xyz", [XYZ_fromLab]);
   ("lms-xyz", [XYZ_fromLMS]);
   ("munsell-xyz", [XYZ_fromMunsell]);
   ("pccs-xyz", [XYZ_fromMunsell; Munsell_fromPCCS]);
   ("rgb-yxy", [Yxy_fromXYZ; XYZ_fromLRGB; LRGB_fromRGB]);
   ("yiq-yxy", [Yxy_fromXYZ; XYZ_fromLRGB; LRGB_fromYIQ]);
   ("lrgb-yxy", [Yxy_fromXYZ; XYZ_fromLRGB]);
   ("xyz-yxy", [Yxy_fromXYZ]);
   ("lab-yxy", [Yxy_fromXYZ; XYZ_fromLab]);
   ("lms-yxy", [Yxy_fromXYZ; XYZ_fromLMS]);
   ("munsell-yxy", [Yxy_fromXYZ; XYZ_fromMunsell]);
   ("pccs-yxy", [Yxy_fromXYZ; XYZ_fromMunsell; Munsell_fromPCCS]);
   ("rgb-lab", [Lab_fromXYZ; XYZ_fromLRGB; LRGB_fromRGB]);
   ("yiq-lab", [Lab_fromXYZ; XYZ_fromLRGB; LRGB_fromYIQ]);
   ("lrgb-lab", [Lab_fromXYZ; XYZ_fromLRGB]);
   ("xyz-lab", [Lab_fromXYZ]);
   ("yxy-lab", [Lab_fromXYZ; XYZ_fromYxy]);
   ("lms-lab", [Lab_fromXYZ; XYZ_fromLMS]);
   ("munsell-lab", [Lab_fromXYZ; XYZ_fromMunsell]);
   ("pccs-lab", [Lab_fromXYZ; XYZ_fromMunsell; Munsell_fromPCCS]);
   ("rgb-lms", [LMS_fromXYZ; XYZ_fromLRGB; LRGB_fromRGB]);
   ("yiq-lms", [LMS_fromXYZ; XYZ_fromLRGB; LRGB_fromYIQ]);
   ("lrgb-lms", [LMS_fromXYZ; XYZ_fromLRGB]);
   ("xyz-lms", [LMS_fromXYZ]);
   ("yxy-lms", [LMS_fromXYZ; XYZ_fromYxy]);
   ("lab-lms", [LMS_fromXYZ; XYZ_fromLab]);
   ("munsell-lms", [LMS_fromXYZ; XYZ_fromMunsell]);
   ("pccs-lms", [LMS_fromXYZ; XYZ_fromMunsell; Munsell_fromPCCS]);
   ("rgb-munsell", [Munsell_fromXYZ; XYZ_fromLRGB; LRGB_fromRGB]);
   ("yiq-munsell", [Munsell_fromXYZ; XYZ_fromLRGB; LRGB_fromYIQ]);
   ("lrgb-munsell", [Munsell_fromXYZ; XYZ_fromLRGB]);
   ("xyz-munsell", [Munsell_fromXYZ]);
   ("yxy-munsell", [Munsell_fromXYZ; XYZ_fromYxy]);
   ("lab-munsell", [Munsell_fromXYZ; XYZ_fromLab]);
   ("lms-munsell", [Munsell_fromXYZ; XYZ_fromLMS]);
   ("pccs-munsell", [Munsell_fromPCCS]);
   ("rgb-pccs", [PCCS_fromMunsell; Munsell_fromXYZ; XYZ_fromLRGB; LRGB_fromRGB]);
   ("yiq-pccs", [PCCS_fromMunsell; Munsell_fromXYZ; XYZ_fromLRGB; LRGB_fromYIQ]);
   ("lrgb-pccs", [PCCS_fromMunsell; Munsell_fromXYZ; XYZ_fromLRGB]);
   ("xyz-pccs", [PCCS_fromMunsell; Munsell_fromXYZ]);
   ("yxy-pccs", [PCCS_fromMunsell; Munsell_fromXYZ; XYZ_fromYxy]);
   ("lab-pccs", [PCCS_fromMunsell; Munsell_fromXYZ; XYZ_fromLab]);
   ("lms-pccs", [PCCS_fromMunsell; Munsell_fromXYZ; XYZ_fromLMS]);
   ("munsell-pccs", [PCCS_fromMunsell])
  ]%string.

(** [String.prototype.toLowerCase], on ASCII strings. *)
Definition lower_ascii (c : ascii) : ascii :=
  let n := nat_of_ascii c in
  if (65 <=? n)%nat && (n <=? 90)%nat then ascii_of_nat (n + 32) else c.

Fixpoint toLowerCase (s : string) : string :=
  match s with
  | EmptyString => EmptyString
  | String c s' => String (lower_ascii c) (toLowerCase s')
  end.

Definition type_of (from to : string) : string :=
  (toLowerCase from ++ "-" ++ toLowerCase to)%string.

(** The first [case] whose label is [type]. *)
Fixpoint select (type : string) (cs : list (string * list step))
  : option (list step) :=
  match cs with
  | [] => None
  | (label, chain) :: cs' =>
      if String.eqb type label then Some chain else select type cs'
  end.

Section Convert.

(** The conversion functions run in some monad [m] that carries their
    effects (the saturation flags, a thrown error, a loop that does
    not end); [call f] is the function named [f]. *)
Context {m : Type -> Type} {Monad_m : Monad m} {V : Type}.
Variable call : step -> V -> m V.

(** [f1(f2(...(fn(vs))))] *)
Fixpoint run (chain : list step) (vs : V) : m V :=
  match chain with
  | [] => ret vs
  | [f] => call f vs
  | f :: inner => bind (run inner vs) (call f)
  end.

(** [convert(vs, from, to = 'rgb')]; [to] is [None] when the argument
    is left out. *)
Definition convert (vs : V) (from : string) (to : option string) : m V :=
  let to := match to with Some to => to | None => "rgb"%string end in
  let type := type_of from to in
  match select type cases with
  | Some chain => run chain vs
  | None => ret vs
  end.

End Convert.

End Dispatcher.

(* ===================================================================== *)
(** * Vocabulary of the statements *)
(* ===================================================================== *)

(** The flags when nothing has been converted yet. *)
Definition flags0 : flags := mkFlags false false false.

(** The gamma function in the words of the specification. *)
Definition gamma_spec (v : R) : R :=
  if Rlt_dec v 0.03928 then v / 12.92 else Rpower ((v + 0.055) / 1.055) 2.4.

(** [Munsell._v2y] and the derivative used by [_y2v], on real numbers. *)
Definition v2y_R (v : R) : R :=
  if Rle_dec v 1 then v * 0.0121
  else (0.0467 * (v * v * v) + 0.5602 * (v * v) - 0.1753 * v + 0.8007) / 100.

Definition y2v_fp (v : R) : R :=
  3 * 0.0467 * (v * v) + 2 * 0.5602 * v - 0.1753.

(** A cell of a table is either empty or decodes to an index of
    [CATEGORICAL_COLORS]. *)
Definition cell_ok (t : string) (i : nat) : bool :=
  match String.get i t with
  | Some c =>
      Ascii.eqb c "."
      || match Evaluation.index_of_cell (Evaluation.Cell (Some c)) with
         | Some ci => (ci <? 11)%nat
         | None => false
         end
  | None => false
  end.

Definition table_ok (t : string) : bool :=
  forallb (cell_ok t) (seq 0 (18 * 21)).

(** The value of [cc] decodes to an index of [CATEGORICAL_COLORS]. *)
Definition good (cc : Evaluation.cell) : Prop :=
  exists ci, Evaluation.index_of_cell cc = Some ci /\ (ci < 11)%nat.

(** The nine space names, and the keys of the conversions between two
    different spaces. *)
Definition spaces : list string :=
  ["rgb"; "lrgb"; "yiq"; "xyz"; "yxy"; "lab"; "lms"; "munsell"; "pccs"]%string.

Definition recognized : list string :=
  flat_map
    (fun a => map (fun b => (a ++ "-" ++ b)%string)
                (filter (fun b => negb (String.eqb a b)) spaces))
    spaces.

Definition mem (k : string) (l : list string) : bool :=
  existsb (String.eqb k) l.

(** Two colours of real components agree within [eps] times the size of
    a reference colour. *)
Definition close_to (eps : R) (ref got want : R * R * R) : Prop :=
  let '(r1, r2, r3) := ref in
  let '(g1, g2, g3) := got in
  let '(w1, w2, w3) := want in
  let size := Rabs r1 + Rabs r2 + Rabs r3 in
  Rabs (g1 - w1) <= eps * size
  /\ Rabs (g2 - w2) <= eps * size
  /\ Rabs (g3 - w3) <= eps * size.

(** The real components of a colour whose components are all finite. *)
Definition reals_of (v : triple) : option (R * R * R) :=
  match v with
  | (JS.Fin a, JS.Fin b, JS.Fin c) => Some (a, b, c)
  | _ => None
  end.

(** [got] is a finite colour within [eps] of [want], relative to [want]. *)
Definition approx (eps : R) (got : triple) (want : R * R * R) : Prop :=
  match reals_of got with
  | Some g => close_to eps want g want
  | None => False
  end.

(** The point of the cell of corners a, d, b, c at the ratios [h] (from
    a towards b) and [v] (from a towards d). *)
Definition bilinear (a d b c : R * R) (h v : R) : R * R :=
  ((1 - h) * (1 - v) * fst a + (1 - h) * v * fst d
   + h * (1 - v) * fst b + h * v * fst c,
   (1 - h) * (1 - v) * snd a + (1 - h) * v * snd d
   + h * (1 - v) * snd b + h * v * snd c).

(** The space a conversion function returns and the space it takes, as
    its name [Target.fromSource] says. *)
Definition step_spaces (f : Dispatcher.step) : string * string :=
  match f with
  | Dispatcher.RGB_fromLRGB => ("rgb", "lrgb")
  | Dispatcher.LRGB_fromYIQ => ("lrgb", "yiq")
  | Dispatcher.LRGB_fromXYZ => ("lrgb", "xyz")
  | Dispatcher.XYZ_fromYxy => ("xyz", "yxy")
  | Dispatcher.XYZ_fromLab => ("xyz", "lab")
  | Dispatcher.XYZ_fromLMS => ("xyz", "lms")
  | Dispatcher.XYZ_fromMunsell => ("xyz", "munsell")
  | Dispatcher.Munsell_fromPCCS => ("munsell", "pccs")
  | Dispatcher.LRGB_fromRGB => ("lrgb", "rgb")
  | Dispatcher.YIQ_fromLRGB => ("yiq", "lrgb")
  | Dispatcher.XYZ_fromLRGB => ("xyz", "lrgb")
  | Dispatcher.Yxy_fromXYZ => ("yxy", "xyz")
  | Dispatcher.Lab_fromXYZ => ("lab", "xyz")
  | Dispatcher.LMS_fromXYZ => ("lms", "xyz")
  | Dispatcher.Munsell_fromXYZ => ("munsell", "xyz")
  | Dispatcher.PCCS_fromMunsell => ("pccs", "munsell")
  end%string.

(** A chain [f1; ...; fn], applied as [f1(...(fn(vs)))], leads from the
    space [from] to the space [to]: [fn] takes [from], each function
    takes what the next one returns, and [f1] returns [to]. *)
Fixpoint links (from to : string) (chain : list Dispatcher.step) : bool :=
  match chain with
  | [] => String.eqb from to
  | f :: inner =>
      String.eqb (fst (step_spaces f)) to
      && links from (snd (step_spaces f)) inner
  end.

(** The check of one pair of spaces: the same space twice, or a case of
    the [switch] whose chain leads from [a] to [b] in at most four calls. *)
Definition linked_pair (a b : string) : bool :=
  String.eqb a b
  || match Dispatcher.select (a ++ "-" ++ b) Dispatcher.cases with
     | Some (f :: inner) =>
         links a b (f :: inner) && (List.length inner <? 4)%nat
     | _ => false
     end.

(* ===================================================================== *)
(** * Properties *)
(* ===================================================================== *)

(** ** Facts about the number model *)

Lemma Reqb_true (a b : R) : a = b -> JS.Reqb a b = true.
Proof. intros H. unfold JS.Reqb. destruct (Req_dec_T a b); congruence. Qed.

Lemma Reqb_false (a b : R) : a <> b -> JS.Reqb a b = false.
Proof. intros H. unfold JS.Reqb. destruct (Req_dec_T a b); congruence. Qed.

Lemma Rltb_true (a b : R) : a < b -> JS.Rltb a b = true.
Proof. intros H. unfold JS.Rltb. destruct (Rlt_dec a b); tauto. Qed.

Lemma Rltb_false (a b : R) : b <= a -> JS.Rltb a b = false.
Proof. intros H. unfold JS.Rltb. destruct (Rlt_dec a b); [lra | reflexivity]. Qed.

Lemma Rleb_true (a b : R) : a <= b -> JS.Rleb a b = true.
Proof. intros H. unfold JS.Rleb. destruct (Rle_dec a b); tauto. Qed.

Lemma Rleb_false (a b : R) : b < a -> JS.Rleb a b = false.
Proof. intros H. unfold JS.Rleb. destruct (Rle_dec a b); [lra | reflexivity]. Qed.

Lemma div_fin (x y : R) : y <> 0 -> JS.div (JS.Fin x) (JS.Fin y) = JS.Fin (x / y).
Proof. intros H. simpl. now rewrite Reqb_false. Qed.

Lemma div_zero_zero : JS.div (JS.Fin 0) (JS.Fin 0) = JS.NaN.
Proof. simpl. now rewrite Reqb_true. Qed.

(** ** Yxy *)

Section YxyFacts.

Variable st : flags.

Lemma Yxy_fromXYZ_regular (x y z : R) :
  x + y + z <> 0 ->
  Yxy.fromXYZ (JS.Fin x, JS.Fin y, JS.Fin z)
  = (JS.Fin y, JS.Fin (x / (x + y + z)), JS.Fin (y / (x + y + z))).
Proof.
  intros Hs. unfold Yxy.fromXYZ. cbn [JS.add JS.eq].
  rewrite (Reqb_false _ _ Hs). now rewrite !div_fin.
Qed.

(** C3 (as amended): when [x + y + z <> 0] and [y <> 0] the round trip
    XYZ -> Yxy -> XYZ is the identity; when [x + y + z = 0],
    [Yxy.fromXYZ] returns [y] with the D65 white-point chromaticity. *)
Theorem Yxy_roundtrip (x y z : R) :
  (x + y + z <> 0 -> y <> 0 ->
     fst (Yxy.toXYZ (Yxy.fromXYZ (JS.Fin x, JS.Fin y, JS.Fin z)) st)
     = (JS.Fin x, JS.Fin y, JS.Fin z))
  /\ (x + y + z = 0 ->
     Yxy.fromXYZ (JS.Fin x, JS.Fin y, JS.Fin z)
     = (JS.Fin y, JS.Fin 0.31273, JS.Fin 0.32902)).
Proof.
  split.
  - intros Hs Hy. rewrite Yxy_fromXYZ_regular by assumption.
    assert (Hsy : y / (x + y + z) <> 0).
    { unfold Rdiv. apply Rmult_integral_contrapositive_currified;
        [assumption | now apply Rinv_neq_0_compat]. }
    unfold Yxy.toXYZ. cbn [JS.mul JS.sub JS.add JS.neg].
    rewrite !div_fin by assumption. cbn [JS.isNaN].
    destruct Lab.D65_XYZ as [[wx wy] wz]. cbn [fst].
    repeat f_equal; field; split; assumption.
  - intros Hs. unfold Yxy.fromXYZ. cbn [JS.add JS.eq].
    now rewrite (Reqb_true _ _ Hs).
Qed.

End YxyFacts.


Lemma Yxy_roundtrip_witness :
  fst (Yxy.toXYZ (Yxy.fromXYZ (JS.Fin 1, JS.Fin 2, JS.Fin 3)) flags0)
  = (JS.Fin 1, JS.Fin 2, JS.Fin 3).
Proof.
  apply (proj1 (Yxy_roundtrip flags0 1 2 3)); lra.
Defined.

(** Without [y <> 0] the round trip fails, for instance at [[1, 0, 0]]:
    the chromaticity is [(1, 0)], the product [1 * 0 / 0] is NaN and
    [Yxy.toXYZ] answers [[0, 0, 0]]. *)
Lemma Yxy_roundtrip_fails_at_zero_luminance :
  ~ (forall x y z : R, x + y + z <> 0 ->
       fst (Yxy.toXYZ (Yxy.fromXYZ (JS.Fin x, JS.Fin y, JS.Fin z)) flags0)
       = (JS.Fin x, JS.Fin y, JS.Fin z)).
Proof.
  intros H. specialize (H 1 0 0 ltac:(lra)).
  rewrite Yxy_fromXYZ_regular in H by lra.
  unfold Yxy.toXYZ in H. cbn [JS.mul] in H.
  replace (0 / (1 + 0 + 0)) with 0 in H by lra.
  replace (1 / (1 + 0 + 0) * 0) with 0 in H by lra.
  rewrite div_zero_zero in H. cbn in H.
  inversion H. lra.
Qed.

(** C10: whenever the computed X component [sx * Y / sy] is NaN,
    [Yxy.toXYZ] returns [[0, 0, 0]] and clears [Yxy.isSaturated]; this is
    the case in particular whenever [Y = 0] and [sy = 0], whatever [sx]. *)
Theorem Yxy_toXYZ_degenerate (st : flags) :
  (forall y sx sy : JS.num,
      JS.isNaN (sx * y / sy)%js = true ->
      Yxy.toXYZ (y, sx, sy) st
      = ((JS.Fin 0, JS.Fin 0, JS.Fin 0), set_Yxy false st))
  /\ (forall sx : JS.num,
      Yxy.toXYZ (JS.Fin 0, sx, JS.Fin 0) st
      = ((JS.Fin 0, JS.Fin 0, JS.Fin 0), set_Yxy false st)).
Proof.
  assert (G : forall y sx sy : JS.num,
      JS.isNaN (sx * y / sy)%js = true ->
      Yxy.toXYZ (y, sx, sy) st
      = ((JS.Fin 0, JS.Fin 0, JS.Fin 0), set_Yxy false st)).
  { intros y sx sy H. unfold Yxy.toXYZ. now rewrite H. }
  split; [exact G |].
  intros sx. apply G.
  destruct sx as [r | | |]; cbn [JS.mul].
  - rewrite Rmult_0_r. now rewrite div_zero_zero.
  - now rewrite Reqb_true.
  - now rewrite Reqb_true.
  - reflexivity.
Qed.

Lemma Yxy_toXYZ_degenerate_witness :
  Yxy.toXYZ (JS.Fin 0, JS.Fin (1 / 3), JS.Fin 0) flags0
  = ((JS.Fin 0, JS.Fin 0, JS.Fin 0), set_Yxy false flags0).
Proof.
  apply (proj1 (Yxy_toXYZ_degenerate flags0)).
  cbn [JS.mul]. rewrite Rmult_0_r. rewrite div_zero_zero. reflexivity.
Defined.

(** ** RGB *)

(** *** Bounds on [x^(12/5)] and [x^(5/12)] through integer powers *)

Lemma Rpower_root (x : R) (p q : nat) :
  0 < x -> (0 < q)%nat ->
  Rpower x (INR p / INR q) = Rpower (x ^ p) (/ INR q).
Proof.
  intros Hx Hq. rewrite <- Rpower_pow by assumption.
  rewrite Rpower_mult. reflexivity.
Qed.

Lemma Rpower_root_self (c : R) (q : nat) :
  0 < c -> (0 < q)%nat -> Rpower (c ^ q) (/ INR q) = c.
Proof.
  intros Hc Hq. rewrite <- Rpower_pow by assumption.
  rewrite Rpower_mult. rewrite Rinv_r.
  - now apply Rpower_1.
  - apply not_0_INR. lia.
Qed.

Lemma Rpower_frac_le (x c : R) (p q : nat) :
  0 < x -> 0 < c -> (0 < q)%nat -> x ^ p <= c ^ q ->
  Rpower x (INR p / INR q) <= c.
Proof.
  intros Hx Hc Hq H. rewrite Rpower_root by assumption.
  rewrite <- (Rpower_root_self c q) at 1 by assumption.
  apply Rle_Rpower_l.
  - left. apply Rinv_0_lt_compat. apply lt_0_INR. lia.
  - split; [now apply pow_lt | assumption].
Qed.

Lemma Rpower_frac_ge (x c : R) (p q : nat) :
  0 < x -> 0 < c -> (0 < q)%nat -> c ^ q <= x ^ p ->
  c <= Rpower x (INR p / INR q).
Proof.
  intros Hx Hc Hq H. rewrite Rpower_root by assumption.
  rewrite <- (Rpower_root_self c q) at 1 by assumption.
  apply Rle_Rpower_l.
  - left. apply Rinv_0_lt_compat. apply lt_0_INR. lia.
  - split; [now apply pow_lt | assumption].
Qed.

Lemma exponent_2_4 : 2.4 = INR 12 / INR 5.
Proof. simpl. lra. Qed.

Lemma exponent_inv_2_4 : 1 / 2.4 = INR 5 / INR 12.
Proof. simpl. lra. Qed.

Lemma pow_pos_base (x y : R) : 0 < x -> JS.pow (JS.Fin x) y = JS.Fin (Rpower x y).
Proof. intros H. simpl. now rewrite Rltb_true. Qed.

Lemma RGB_func_spec (v : R) : RGB._func (JS.Fin v) = JS.Fin (gamma_spec v).
Proof.
  unfold RGB._func, gamma_spec. cbn [JS.lt]. unfold JS.Rltb.
  destruct (Rlt_dec v 0.03928) as [H | H].
  - rewrite div_fin by lra. reflexivity.
  - cbn [JS.add]. rewrite div_fin by lra. apply pow_pos_base.
    apply Rdiv_lt_0_compat; lra.
Qed.

Lemma RGB_invFunc_low (x : R) :
  x <= 0.00304 -> RGB._invFunc (JS.Fin x) = JS.Fin (x * 12.92).
Proof.
  intros H. unfold RGB._invFunc. cbn [JS.lt]. now rewrite Rltb_false.
Qed.

Lemma RGB_invFunc_high (x : R) :
  0.00304 < x ->
  RGB._invFunc (JS.Fin x) = JS.Fin (Rpower x (1 / 2.4) * 1.055 - 0.055).
Proof.
  intros H. unfold RGB._invFunc. cbn [JS.lt]. rewrite Rltb_true by assumption.
  rewrite pow_pos_base by lra. cbn [JS.mul JS.sub JS.add JS.neg].
  f_equal.
Qed.

(** From 0.03929 on, the power branch of the forward function lands above
    the threshold of the inverse. *)
Lemma gamma_power_branch_above (v : R) :
  0.03929 <= v -> 0.00304 < Rpower ((v + 0.055) / 1.055) 2.4.
Proof.
  intros Hv.
  apply Rlt_le_trans with (Rpower ((0.03929 + 0.055) / 1.055) 2.4).
  - rewrite exponent_2_4.
    assert (H : 0.0030401 <= Rpower ((0.03929 + 0.055) / 1.055) (INR 12 / INR 5)).
    { apply Rpower_frac_ge; [lra | lra | lia | lra]. }
    lra.
  - apply Rle_Rpower_l; [lra |]. split; [lra |].
    unfold Rdiv. apply Rmult_le_compat_r; lra.
Qed.

Lemma gamma_power_branch_at_threshold :
  Rpower ((0.03928 + 0.055) / 1.055) 2.4 <= 0.00304.
Proof.
  rewrite exponent_2_4. apply Rpower_frac_le; [lra | lra | lia | lra].
Qed.

(** C5 (as amended): [RGB.toLRGB] applies the piecewise gamma function of
    the specification to each channel divided by 255; and
    [RGB._invFunc (RGB._func v) = v] for every [v] in [[0, 1]] outside the
    narrow band between [0.0392768] and [0.03929] around the branch
    threshold. *)
Theorem RGB_gamma_and_inverse (r g b v : R) :
  RGB.toLRGB (JS.Fin r, JS.Fin g, JS.Fin b)
  = (JS.Fin (gamma_spec (r / 255)), JS.Fin (gamma_spec (g / 255)),
     JS.Fin (gamma_spec (b / 255)))
  /\ (0 <= v <= 1 -> v <= 0.0392768 \/ 0.03929 <= v ->
      RGB._invFunc (RGB._func (JS.Fin v)) = JS.Fin v).
Proof.
  split.
  - unfold RGB.toLRGB. rewrite !div_fin by lra. now rewrite !RGB_func_spec.
  - intros Hv Hband. rewrite RGB_func_spec. unfold gamma_spec.
    destruct (Rlt_dec v 0.03928) as [Hlow | Hhigh].
    + destruct Hband as [Hb | Hb]; [| lra].
      rewrite RGB_invFunc_low by lra. f_equal. lra.
    + destruct Hband as [Hb | Hb]; [lra |].
      rewrite RGB_invFunc_high by now apply gamma_power_branch_above.
      rewrite Rpower_mult.
      replace (2.4 * (1 / 2.4)) with 1 by lra.
      rewrite Rpower_1 by (apply Rdiv_lt_0_compat; lra).
      f_equal. lra.
Qed.

Lemma RGB_gamma_and_inverse_witness :
  RGB._invFunc (RGB._func (JS.Fin 0.5)) = JS.Fin 0.5.
Proof.
  apply (proj2 (RGB_gamma_and_inverse 0 0 0 0.5)); lra.
Defined.

(** At the forward threshold itself the inverse picks the linear branch
    although the forward function used the power branch. *)
Lemma RGB_inverse_fails_at_threshold :
  ~ (forall v : R, 0 <= v <= 1 ->
       RGB._invFunc (RGB._func (JS.Fin v)) = JS.Fin v).
Proof.
  intros H. specialize (H 0.03928 ltac:(lra)).
  rewrite RGB_func_spec in H. unfold gamma_spec in H.
  destruct (Rlt_dec 0.03928 0.03928) as [Hlt | _]; [lra |].
  pose proof gamma_power_branch_at_threshold as Hp.
  rewrite RGB_invFunc_low in H by exact Hp.
  inversion H. lra.
Qed.

(** *** Clamping and the saturation indicator *)

Lemma wrap32_small (n : Z) :
  (- 2 ^ 31 <= n < 2 ^ 31)%Z -> JS.wrap32 n = n.
Proof.
  intros H. unfold JS.wrap32. rewrite Z.mod_small; lia.
Qed.

Lemma toInt32_nonneg (x : R) :
  0 <= x -> x < 2147483648 -> JS.toInt32 (JS.Fin x) = Zfloor x.
Proof.
  intros H0 H1. unfold JS.toInt32, JS.trunc. rewrite Rltb_false by assumption.
  apply wrap32_small.
  pose proof (Zfloor_bound x) as [Hl Hu].
  assert (0 <= Zfloor x)%Z by (apply (Zfloor_lub 0); exact H0).
  assert (Zfloor x < 2147483648)%Z by (apply lt_IZR; lra).
  lia.
Qed.

Lemma toInt32_IZR (z : Z) :
  (- 2 ^ 31 <= z < 2 ^ 31)%Z -> JS.toInt32 (JS.Fin (IZR z)) = z.
Proof.
  intros H. unfold JS.toInt32, JS.trunc.
  rewrite <- opp_IZR, !ZfloorZ. rewrite Z.opp_involutive.
  destruct (JS.Rltb (IZR z) 0); now apply wrap32_small.
Qed.

Lemma clamp_cell_above (v : Z) (s : bool) :
  (255 < v)%Z -> RGB.clamp_cell v 0 255 s = (255%Z, true).
Proof.
  intros H. unfold RGB.clamp_cell.
  destruct (Z.ltb_spec 255 v); [| lia]. reflexivity.
Qed.

Lemma clamp_cell_inside (v : Z) (s : bool) :
  (0 <= v <= 255)%Z -> RGB.clamp_cell v 0 255 s = (v, s).
Proof.
  intros H. unfold RGB.clamp_cell.
  destruct (Z.ltb_spec 255 v); [lia |].
  destruct (Z.ltb_spec v 0); [lia |]. reflexivity.
Qed.

Lemma clamp_cell_spec (v : Z) (s : bool) :
  let '(w, s') := RGB.clamp_cell v 0 255 s in
  (s' = true <-> (s = true \/ w <> v)) /\ (0 <= w <= 255)%Z.
Proof.
  unfold RGB.clamp_cell.
  destruct (Z.ltb_spec 255 v).
  - destruct (Z.ltb_spec 255 0); [lia |].
    split; [| lia]. split; [intros _; right; lia | reflexivity].
  - destruct (Z.ltb_spec v 0).
    + split; [| lia]. split; [intros _; right; lia | reflexivity].
    + split; [| lia]. split; [intros E; now left | intros [E | E]; [exact E | lia]].
Qed.

(** [_checkRange] reports [true] exactly when it changed the array, and
    its result always lies in the range. *)
Lemma checkRange_spec (vs : Z * Z * Z) :
  let '(d, s) := RGB._checkRange vs 0 255 in
  (s = true <-> d <> vs)
  /\ (let '(d0, d1, d2) := d in
      0 <= d0 <= 255 /\ 0 <= d1 <= 255 /\ 0 <= d2 <= 255)%Z.
Proof.
  destruct vs as [[v0 v1] v2]. unfold RGB._checkRange.
  pose proof (clamp_cell_spec v0 false) as H0.
  destruct (RGB.clamp_cell v0 0 255 false) as [w0 s0].
  pose proof (clamp_cell_spec v1 s0) as H1.
  destruct (RGB.clamp_cell v1 0 255 s0) as [w1 s1].
  pose proof (clamp_cell_spec v2 s1) as H2.
  destruct (RGB.clamp_cell v2 0 255 s1) as [w2 s2].
  destruct H0 as [H0 R0], H1 as [H1 R1], H2 as [H2 R2].
  split; [| lia].
  rewrite H2, H1, H0.
  split.
  - intros F G. inversion G. subst.
    destruct F as [[[F | F] | F] | F];
      [discriminate | now apply F | now apply F | now apply F].
  - intros F.
    destruct (Z.eq_dec w0 v0) as [E0 | E0]; [| now left; left; right].
    destruct (Z.eq_dec w1 v1) as [E1 | E1]; [| now left; right].
    destruct (Z.eq_dec w2 v2) as [E2 | E2]; [| now right].
    exfalso. apply F. now subst.
Qed.

Lemma invFunc_2_bounds :
  256 <= (Rpower 2 (1 / 2.4) * 1.055 - 0.055) * 255 < 600.
Proof.
  rewrite exponent_inv_2_4.
  assert (H1 : 1.3 <= Rpower 2 (INR 5 / INR 12))
    by (apply Rpower_frac_ge; [lra | lra | lia | lra]).
  assert (H2 : Rpower 2 (INR 5 / INR 12) <= 2)
    by (apply Rpower_frac_le; [lra | lra | lia | lra]).
  lra.
Qed.

Lemma invFunc_half_bounds :
  120 <= (Rpower 0.5 (1 / 2.4) * 1.055 - 0.055) * 255 <= 255.
Proof.
  rewrite exponent_inv_2_4.
  assert (H1 : 0.5 <= Rpower 0.5 (INR 5 / INR 12))
    by (apply Rpower_frac_ge; [lra | lra | lia | lra]).
  assert (H2 : Rpower 0.5 (INR 5 / INR 12) <= 1)
    by (apply Rpower_frac_le; [lra | lra | lia | lra]).
  lra.
Qed.

Lemma channel_of_2 :
  Z.lt 255 (JS.toInt32 (RGB._invFunc (JS.Fin 2) * 255)%js).
Proof.
  rewrite RGB_invFunc_high by lra. cbn [JS.mul].
  pose proof invFunc_2_bounds as [Hl Hu].
  rewrite toInt32_nonneg by lra.
  assert (256 <= Zfloor ((Rpower 2 (1 / 2.4) * 1.055 - 0.055) * 255))%Z
    by (apply Zfloor_lub; exact Hl).
  lia.
Qed.

Lemma channel_of_half :
  Z.le 0 (JS.toInt32 (RGB._invFunc (JS.Fin 0.5) * 255)%js)
  /\ Z.le (JS.toInt32 (RGB._invFunc (JS.Fin 0.5) * 255)%js) 255.
Proof.
  rewrite RGB_invFunc_high by lra. cbn [JS.mul].
  pose proof invFunc_half_bounds as [Hl Hu].
  rewrite toInt32_nonneg by lra.
  pose proof (Zfloor_bound ((Rpower 0.5 (1 / 2.4) * 1.055 - 0.055) * 255)) as [Fl Fu].
  split.
  - apply (Zfloor_lub 0). lra.
  - apply le_IZR. lra.
Qed.

(** C6: [RGB.fromLRGB([2,2,2])] is [[255,255,255]] with the indicator set;
    [RGB.fromLRGB([0.5,0.5,0.5])] is in range with the indicator cleared;
    and in every call the indicator is set exactly when clamping changed
    the array. *)
Theorem RGB_fromLRGB_saturation (st : flags) :
  RGB.fromLRGB (JS.Fin 2, JS.Fin 2, JS.Fin 2) st
  = ((255, 255, 255)%Z, set_RGB true st)
  /\ (exists r g b : Z,
        (0 <= r <= 255 /\ 0 <= g <= 255 /\ 0 <= b <= 255)%Z
        /\ RGB.fromLRGB (JS.Fin 0.5, JS.Fin 0.5, JS.Fin 0.5) st
           = ((r, g, b), set_RGB false st))
  /\ (forall v : triple,
        RGB_isSaturated (snd (RGB.fromLRGB v st)) = true
        <-> fst (RGB.fromLRGB v st) <> RGB.fromLRGB_raw v).
Proof.
  split; [| split].
  - unfold RGB.fromLRGB, RGB.fromLRGB_raw, RGB._checkRange.
    pose proof channel_of_2 as H.
    rewrite !clamp_cell_above by exact H. reflexivity.
  - pose proof channel_of_half as H.
    exists (JS.toInt32 (RGB._invFunc (JS.Fin 0.5) * 255)%js).
    exists (JS.toInt32 (RGB._invFunc (JS.Fin 0.5) * 255)%js).
    exists (JS.toInt32 (RGB._invFunc (JS.Fin 0.5) * 255)%js).
    split; [tauto |].
    unfold RGB.fromLRGB, RGB.fromLRGB_raw, RGB._checkRange.
    rewrite !clamp_cell_inside by exact H. reflexivity.
  - intros v. unfold RGB.fromLRGB.
    pose proof (checkRange_spec (RGB.fromLRGB_raw v)) as H.
    destruct (RGB._checkRange (RGB.fromLRGB_raw v) 0 255) as [d s].
    destruct H as [H _]. cbn. exact H.
Qed.

Lemma RGB_fromLRGB_saturation_witness :
  RGB.fromLRGB (JS.Fin 2, JS.Fin 2, JS.Fin 2) flags0
  = ((255, 255, 255)%Z, set_RGB true flags0).
Proof.
  exact (proj1 (RGB_fromLRGB_saturation flags0)).
Defined.

(** ** Munsell *)

(** *** The decoded table: two entries checked against the source rows *)

Example integrate_twice_row0 :
  Munsell._integrate 0 0 (Munsell._integrate 0 0 [363; 271; -334; -300; -6; 4]%Z)
  = [363; 271; 392; 242; 415; 217]%Z.
Proof. reflexivity. Qed.

Example TBL_MAX_C_0_0 : Munsell._TBL_MAX_C 0 0 = JS.Ok (Some 12%Z).
Proof. reflexivity. Qed.

(** The chromatic path on a grid point: hue 0 (10RP), chroma 2 on the
    surface of lightness 1 is the first entry of the first source row. *)
Example interpolateXY_grid_point :
  exists x y : R,
    Munsell._interpolateXY 0 2 0 = JS.Ok (x, y, true)
    /\ x = 0.363 /\ y = 0.271.
Proof.
  unfold Munsell._interpolateXY.
  replace (0 * 10 / 25) with (IZR 0) by lra.
  replace (2 / 2) with (IZR 1) by lra.
  rewrite !ZfloorZ.
  rewrite (toInt32_IZR (0 * 25)) by lia. rewrite (toInt32_IZR (1 * 2)) by lia.
  cbv zeta. cbn -[Rmult Rplus Rminus Rdiv IZR].
  eexists. eexists. split; [reflexivity |].
  cbn -[Rmult Rplus Rminus Rdiv]. split; lra.
Qed.

(** *** Achromatic colours *)

Lemma Munsell_toXYZ_mono (h v c : R) (st : flags) :
  c < Munsell.MONO_LIMIT_C ->
  Munsell.toXYZ (h, v, c) st
  = JS.Ok (Munsell.finish
             (Munsell._v2y (JS.Fin v),
              JS.Fin (fst Munsell._ILLUMINANT_C),
              JS.Fin (snd Munsell._ILLUMINANT_C))
             (set_Munsell (Munsell._eq0 v && JS.Rltb 0 c)
                (set_Munsell false st))).
Proof.
  intros Hc. unfold Munsell.toXYZ.
  rewrite (Rltb_true c _ Hc). rewrite orb_true_r. reflexivity.
Qed.

(** C7: with chroma 0 [Munsell.toXYZ] returns a colour, and the result
    (value and flags) does not depend on the hue; and
    [Munsell.toString([h, v, 0.01])] is the neutral form: "N " followed by
    [v] rounded to one decimal. *)
Theorem Munsell_achromatic
    (numberToString : R -> string) (h1 h2 h v : R) (st : flags) :
  Munsell.toXYZ (h1, v, 0) st = Munsell.toXYZ (h2, v, 0) st
  /\ (exists r : triple * flags, Munsell.toXYZ (h1, v, 0) st = JS.Ok r)
  /\ Munsell.toString numberToString (h, v, 0.01)
     = ("N " ++ numberToString (IZR (JS.round (v * 10)) / 10))%string.
Proof.
  split; [| split].
  - rewrite !Munsell_toXYZ_mono by (unfold Munsell.MONO_LIMIT_C; lra).
    reflexivity.
  - rewrite Munsell_toXYZ_mono by (unfold Munsell.MONO_LIMIT_C; lra).
    eexists. reflexivity.
  - unfold Munsell.toString.
    rewrite Rltb_true by (unfold Munsell.MONO_LIMIT_C; lra). reflexivity.
Qed.

(** *** The Newton iteration of [_y2v] *)

Lemma v2y_fin (v : R) : Munsell._v2y (JS.Fin v) = JS.Fin (v2y_R v).
Proof.
  unfold Munsell._v2y, v2y_R. cbn [JS.le]. unfold JS.Rleb.
  destruct (Rle_dec v 1) as [H | H].
  - reflexivity.
  - cbn [JS.mul JS.add JS.sub JS.neg]. rewrite div_fin by lra.
    apply (f_equal JS.Fin). lra.
Qed.

Lemma y2v_loop_step (n : nat) (y v : R) :
  y2v_fp v <> 0 ->
  Munsell._y2v_loop (S n) (JS.Fin y) (JS.Fin v)
  = let v1 := - (v2y_R v * 100 - y * 100) / y2v_fp v + v in
    if JS.Rltb (Rabs (v1 - v)) 0.01 then Some (JS.Fin v)
    else Munsell._y2v_loop n (JS.Fin y) (JS.Fin v1).
Proof.
  intros Hfp. cbn [Munsell._y2v_loop]. rewrite v2y_fin.
  cbn [JS.mul JS.add JS.sub JS.neg].
  rewrite div_fin by exact Hfp.
  cbn [JS.mul JS.add JS.sub JS.neg JS.abs JS.lt].
  unfold y2v_fp. reflexivity.
Qed.

Lemma div_bounds (n d lo hi : R) :
  0 < d -> lo * d <= n <= hi * d -> lo <= n / d <= hi.
Proof.
  intros Hd [Hl Hu]. split.
  - apply Rmult_le_reg_r with d; [exact Hd |].
    unfold Rdiv. rewrite Rmult_assoc, Rinv_l by lra. lra.
  - apply Rmult_le_reg_r with d; [exact Hd |].
    unfold Rdiv. rewrite Rmult_assoc, Rinv_l by lra. lra.
Qed.

(** For a luminance Y between 0.012209 and 0.012214 the iteration is
    caught between the two branches of [_v2y] (which jumps from 1.21 to
    1.2323 at v = 1, so that [f] has no root): from any [v] in [[0.98, 10]]
    the next iterate is again in that interval and at least [0.01] away. *)
Lemma y2v_trap (y v : R) :
  0.012209 <= y <= 0.012214 ->
  0.98 <= v <= 10 ->
  let v1 := - (v2y_R v * 100 - y * 100) / y2v_fp v + v in
  0 < y2v_fp v /\ 0.98 <= v1 <= 10 /\ 0.01 <= Rabs (v1 - v).
Proof.
  intros Hy Hv v1.
  assert (Hfp : 1.05 < y2v_fp v) by (unfold y2v_fp; nra).
  assert (Hfp0 : 0 < y2v_fp v) by lra.
  split; [exact Hfp0 |].
  assert (Hd : v1 - v = - (v2y_R v * 100 - y * 100) / y2v_fp v)
    by (unfold v1; lra).
  unfold v2y_R in Hd. destruct (Rle_dec v 1) as [Hle | Hgt].
  - (* linear branch: the step goes up *)
    assert (Hs : 0.01 <= v1 - v <= 0.04).
    { rewrite Hd. apply div_bounds; [exact Hfp0 |]. unfold y2v_fp. nra. }
    split; [lra |]. rewrite Rabs_right by lra. lra.
  - (* cubic branch: the step goes down *)
    assert (Ht : 0 <= v - 1) by lra.
    assert (Ht2 : 0 <= (v - 1) * (v - 1)) by nra.
    assert (Ht3 : 0 <= (v - 1) * (v - 1) * (v - 1)) by nra.
    assert (Hu2 : 0 <= (v - 0.98) * (v - 0.98)) by nra.
    assert (Hu3 : 0 <= (v - 0.98) * (v - 0.98) * v) by nra.
    assert (Hs : 0.98 - v <= v1 - v <= - 0.01).
    { rewrite Hd. apply div_bounds; [exact Hfp0 |]. unfold y2v_fp. split.
      - nra.
      - nra. }
    split; [lra |]. rewrite Rabs_left by lra. lra.
Qed.

Lemma y2v_loop_never_breaks (y : R) (fuel : nat) :
  0.012209 <= y <= 0.012214 ->
  forall v : R, 0.98 <= v <= 10 ->
    Munsell._y2v_loop fuel (JS.Fin y) (JS.Fin v) = None.
Proof.
  intros Hy. induction fuel as [| n IH]; intros v Hv.
  - reflexivity.
  - pose proof (y2v_trap y v Hy Hv) as [Hfp [Hv1 Hstep]].
    rewrite y2v_loop_step by lra. cbv zeta.
    rewrite Rltb_false by exact Hstep.
    apply IH. exact Hv1.
Qed.

Lemma y2v_diverges_on_band (y : R) (fuel : nat) :
  0.012209 <= y <= 0.012214 -> Munsell._y2v fuel (JS.Fin y) = None.
Proof.
  intros Hy. unfold Munsell._y2v. cbn [JS.le]. rewrite Rleb_false by lra.
  apply y2v_loop_never_breaks; [exact Hy | lra].
Qed.

(** C1, at the failing input: for Y = 0.012212 the loop of
    [Munsell._y2v] never reaches its [break], whatever the number of
    iterations allowed. *)
Theorem Munsell_y2v_diverges (fuel : nat) :
  Munsell._y2v fuel (JS.Fin 0.012212) = None.
Proof.
  apply y2v_diverges_on_band. lra.
Qed.

(** On other inputs the function does return: by the closed form below
    0.0121, and at once when the starting point 10 is the root. *)
Example y2v_closed_form :
  Munsell._y2v 0 (JS.Fin 0.00605) = Some (JS.Fin (0.00605 / 0.0121)).
Proof.
  unfold Munsell._y2v. cbn [JS.le]. rewrite Rleb_true by lra.
  now rewrite div_fin by lra.
Qed.

Example y2v_at_root :
  Munsell._y2v 1 (JS.Fin 1.017677) = Some (JS.Fin 10).
Proof.
  unfold Munsell._y2v. cbn [JS.le]. rewrite Rleb_false by lra.
  rewrite y2v_loop_step by (unfold y2v_fp; lra). cbv zeta.
  unfold v2y_R. destruct (Rle_dec 10 1) as [H | _]; [lra |].
  rewrite Rltb_true; [reflexivity |].
  replace (- ((0.0467 * (10 * 10 * 10) + 0.5602 * (10 * 10) - 0.1753 * 10 + 0.8007)
              / 100 * 100 - 1.017677 * 100)) with 0 by lra.
  unfold Rdiv. rewrite Rmult_0_l.
  replace (0 + 10 - 10) with 0 by lra. rewrite Rabs_R0. lra.
Qed.

(** ** PCCS *)

(** *** The saturation solve at lightness 0 *)

Lemma solveEquation_NaN_forever (fuel : nat) (a3 a2 a1 a0 : JS.num) :
  PCCS._solveEquation_loop fuel JS.NaN a3 a2 a1 a0 = None.
Proof.
  induction fuel as [| n IH]; [reflexivity |].
  cbn [PCCS._solveEquation_loop].
  destruct a3 as [r3 | | |], a2 as [r2 | | |], a1 as [r1 | | |];
    cbn; apply IH.
Qed.

(** With a negative cubic and positive lower coefficients, the start
    [x0 = +Infinity] and constant term [-Infinity] make the first iterate
    NaN, and the loop is then stuck. *)
Lemma solveEquation_diverges_from_infinity (fuel : nat) (a3 a2 a1 : R) :
  a3 < 0 -> 0 < a2 -> 0 < a1 ->
  PCCS._solveEquation fuel JS.PInf (JS.Fin a3) (JS.Fin a2) (JS.Fin a1) JS.NInf
  = None.
Proof.
  intros H3 H2 H1. unfold PCCS._solveEquation.
  destruct fuel as [| n]; [reflexivity |].
  cbn [PCCS._solveEquation_loop JS.mul].
  rewrite (Reqb_false a3 0) by lra. rewrite (Reqb_false a2 0) by lra.
  rewrite (Reqb_false a1 0) by lra.
  unfold JS.inf_like.
  rewrite (Rltb_false 0 a3) by lra. rewrite (Rltb_true 0 a2) by lra.
  rewrite (Rltb_true 0 a1) by lra.
  cbn. apply solveEquation_NaN_forever.
Qed.

Lemma coefficients_at_1 :
  PCCS._calcInterpolatedCoefficients 1
  = JS.Ok (0,
           (1 - 0) / (2 - 0) * (1.042805 - 0.853642) + 0.853642,
           (1 - 0) / (2 - 0) * (0.046437 - 0.084379) + 0.084379,
           (1 - 0) / (2 - 0) * (0.001607 - -0.002798) + -0.002798).
Proof.
  unfold PCCS._calcInterpolatedCoefficients.
  rewrite Rltb_false by (unfold PCCS._MAX_HUE; lra).
  rewrite (ZfloorZ 1). rewrite (toInt32_IZR 1) by lia.
  change (negb (Z.rem 1 2 =? 0)%Z) with true. cbv iota.
  change (1 - 1 + 2)%Z with 2%Z. change (1 - 1)%Z with 0%Z.
  rewrite Rltb_false by (unfold PCCS._MAX_HUE; lra).
  reflexivity.
Qed.

(** The second Newton loop: for V = 0 (here with C = 1 and PCCS hue 1)
    the call [PCCS._calcPccsS] hands [_solveEquation] the start [+Infinity]
    and the constant term [-Infinity], and the loop never reaches its
    [break]. *)
Lemma PCCS_calcPccsS_diverges_at_V0 (fuel : nat) :
  PCCS._calcPccsS fuel 0 1 1 = JS.Ok None.
Proof.
  unfold PCCS._calcPccsS. rewrite coefficients_at_1. cbn [bindR].
  f_equal.
  assert (E0 : forall g : R, 1 - exp (- g * 0) = 0).
  { intros g. rewrite Rmult_0_r, exp_0. lra. }
  unfold PCCS._simplyCalcPccsS. rewrite !E0. rewrite Rmult_0_r.
  assert (D : JS.div (JS.Fin (- (1))) (JS.Fin 0) = JS.NInf).
  { cbn [JS.div]. rewrite Reqb_true by reflexivity.
    rewrite Reqb_false by lra. unfold JS.inf_like.
    now rewrite Rltb_false by lra. }
  rewrite D. cbn [JS.mul]. rewrite Reqb_false by lra.
  unfold JS.inf_like. rewrite Rltb_false by lra.
  cbn [JS.sub JS.neg JS.add JS.sqrt JS.div].
  rewrite Rltb_false by lra.
  apply solveEquation_diverges_from_infinity; lra.
Qed.

(** *** The hue of [PCCS.toMunsell] *)

Lemma simplyCalcMunsellH_at_1 :
  PCCS._simplyCalcMunsellH 1 = JS.Fin (- 0.14).
Proof.
  unfold PCCS._simplyCalcMunsellH.
  replace ((1 - 1) * PI / 12) with 0 by lra.
  rewrite !Rmult_0_r, cos_0, sin_0. apply (f_equal JS.Fin).
  unfold Rdiv. rewrite Rmult_0_l. lra.
Qed.

(** C8, at the failing input: under the concise method the hue computed
    for the PCCS colour [[1, 5, 0]] is [-0.14]; the wrap-around adds
    [Munsell.MAX_HUE], which is not defined, and the hue returned is NaN. *)
Theorem PCCS_toMunsell_concise_hue_NaN :
  PCCS.toMunsell PCCS.CONCISE (1, 5, 0)
  = JS.Ok (JS.NaN, JS.Fin 5, JS.Fin 0).
Proof.
  unfold PCCS.toMunsell, PCCS.CONCISE. cbn [PCCS.m_calcMunsellH PCCS.call bindR].
  rewrite simplyCalcMunsellH_at_1.
  rewrite Rleb_false by (unfold PCCS._MONO_LIMIT_S; lra).
  cbn [bindR JS.lt]. rewrite Rltb_true by lra.
  reflexivity.
Qed.

(** Under the concise method a chromatic colour cannot be converted at
    all: the method object has no [_calcMunsellC]. *)
Lemma PCCS_toMunsell_concise_chromatic_throws (h l s : R) :
  PCCS._MONO_LIMIT_S <= s ->
  PCCS.toMunsell PCCS.CONCISE (h, l, s) = JS.TypeError.
Proof.
  intros Hs. unfold PCCS.toMunsell, PCCS.CONCISE.
  cbn [PCCS.m_calcMunsellH PCCS.m_calcMunsellC PCCS.call bindR].
  rewrite Rleb_true by exact Hs. reflexivity.
Qed.

(** The accurate method keeps the hue in [[0, 100)]: its breakpoints are
    increasing from hue 1 on, and the first segment runs from 96 to 100. *)
Lemma calcMunsellH_segment (k : Z) (h lo hi : R) :
  (0 <= k < 24)%Z -> Zfloor h = k ->
  PCCS.read PCCS._MUNSELL_H k = JS.Fin lo ->
  (if (k =? 0)%Z then hi = 100
   else PCCS.read PCCS._MUNSELL_H (k + 1) = JS.Fin hi /\ lo <= hi) ->
  PCCS._calcMunsellH h = JS.Fin (lo + (hi - lo) * (h - IZR k) / (IZR (k + 1) - IZR k)).
Proof.
  intros Hk Hf Hlo Hhi. unfold PCCS._calcMunsellH.
  rewrite Hf. rewrite toInt32_IZR by lia. rewrite Hlo.
  destruct (Z.eqb_spec k 0) as [-> | Hk0].
  - subst hi. change (PCCS.read PCCS._MUNSELL_H (0 + 1)) with (JS.Fin 0).
    cbn [PCCS.read] in Hlo. cbn in Hlo. injection Hlo as <-.
    cbn [JS.lt]. rewrite Rltb_true by lra.
    cbn [JS.sub JS.neg JS.add JS.mul]. rewrite div_fin.
    + cbn [JS.add]. apply (f_equal JS.Fin). lra.
    + rewrite plus_IZR. lra.
  - destruct Hhi as [Hhi Hle]. rewrite Hhi. cbn [JS.lt].
    rewrite Rltb_false by exact Hle.
    cbn [JS.sub JS.neg JS.add JS.mul]. rewrite div_fin.
    + cbn [JS.add]. apply (f_equal JS.Fin). lra.
    + rewrite plus_IZR. lra.
Qed.

Lemma hue_index_cases (k : Z) :
  (0 <= k < 24)%Z ->
  (k = 0 \/ k = 1 \/ k = 2 \/ k = 3 \/ k = 4 \/ k = 5
   \/ k = 6 \/ k = 7 \/ k = 8 \/ k = 9 \/ k = 10 \/ k = 11
   \/ k = 12 \/ k = 13 \/ k = 14 \/ k = 15 \/ k = 16 \/ k = 17
   \/ k = 18 \/ k = 19 \/ k = 20 \/ k = 21 \/ k = 22 \/ k = 23)%Z.
Proof. lia. Qed.

Ltac each_hue_index H :=
  apply hue_index_cases in H;
  repeat (destruct H as [H | H]; [subst |]); [.. | subst].

Lemma MUNSELL_H_segments (k : Z) :
  (0 <= k < 24)%Z ->
  exists lo hi : R,
    PCCS.read PCCS._MUNSELL_H k = JS.Fin lo
    /\ (if (k =? 0)%Z then hi = 100
        else PCCS.read PCCS._MUNSELL_H (k + 1) = JS.Fin hi /\ lo <= hi)
    /\ 0 <= lo /\ lo < hi /\ hi <= 100.
Proof.
  intros Hk. each_hue_index Hk.
  1: { exists 96, 100. cbn. repeat split; lra. }
  all: eexists; eexists; cbn; (split; [reflexivity |]);
    (split; [split; [reflexivity | lra] | lra]).
Qed.

Lemma calcMunsellH_range (h : R) :
  0 <= h < 24 ->
  exists H : R, PCCS._calcMunsellH h = JS.Fin H /\ 0 <= H < 100.
Proof.
  intros Hh.
  pose proof (Zfloor_bound h) as [Fl Fu].
  assert (Hk : (0 <= Zfloor h < 24)%Z).
  { split; [apply (Zfloor_lub 0); lra | apply lt_IZR; lra]. }
  destruct (MUNSELL_H_segments _ Hk) as (lo & hi & Elo & Ehi & B0 & B1 & B2).
  exists (lo + (hi - lo) * (h - IZR (Zfloor h))
               / (IZR (Zfloor h + 1) - IZR (Zfloor h))).
  split.
  - apply calcMunsellH_segment; try assumption; try reflexivity.
  - rewrite plus_IZR.
    replace (IZR (Zfloor h) + 1 - IZR (Zfloor h)) with 1 by lra.
    unfold Rdiv. rewrite Rinv_1, Rmult_1_r. nra.
Qed.

Lemma calcInterpolatedCoefficients_defined (h : R) :
  0 <= h < 24 ->
  exists a : R * R * R * R, PCCS._calcInterpolatedCoefficients h = JS.Ok a.
Proof.
  intros Hh.
  pose proof (Zfloor_bound h) as [Fl Fu].
  assert (Hk : (0 <= Zfloor h < 24)%Z).
  { split; [apply (Zfloor_lub 0); lra | apply lt_IZR; lra]. }
  unfold PCCS._calcInterpolatedCoefficients.
  rewrite Rltb_false by (unfold PCCS._MAX_HUE; lra).
  rewrite toInt32_IZR by lia.
  remember (Zfloor h) as k eqn:Ek. clear Ek Fl Fu.
  each_hue_index Hk;
    cbn [Z.rem Z.quotrem Z.eqb negb Z.sub Z.add Z.opp Z.pos_sub fst snd];
    match goal with
    | |- context [JS.Rltb PCCS._MAX_HUE (IZR ?z)] =>
        rewrite (Rltb_false PCCS._MAX_HUE (IZR z))
          by (unfold PCCS._MAX_HUE; cbn; lra)
    end;
    cbn; eexists; reflexivity.
Qed.

(** Under the accurate method [PCCS.toMunsell] returns, and its hue is a
    real number in [[0, 100)]. *)
Lemma PCCS_toMunsell_accurate_hue_range (h l s : R) :
  0 <= h < 24 ->
  exists (H : R) (C : JS.num),
    PCCS.toMunsell PCCS.ACCURATE (h, l, s) = JS.Ok (JS.Fin H, JS.Fin l, C)
    /\ 0 <= H < 100.
Proof.
  intros Hh.
  destruct (calcMunsellH_range h Hh) as (H & EH & BH).
  unfold PCCS.toMunsell, PCCS.ACCURATE.
  cbn [PCCS.m_calcMunsellH PCCS.m_calcMunsellC PCCS.call bindR].
  rewrite EH. cbn [JS.lt JS.le Munsell.MAX_HUE].
  rewrite Rltb_false by lra.
  destruct (JS.Rleb PCCS._MONO_LIMIT_S s).
  - unfold PCCS._calcMunsellC.
    destruct (calcInterpolatedCoefficients_defined h Hh) as ([[[a0 a1] a2] a3] & Ea).
    rewrite Ea. cbn [bindR]. eexists; eexists; split; [reflexivity | exact BH].
  - cbn [bindR]. eexists; eexists; split; [reflexivity | exact BH].
Qed.

(** ** Evaluation *)

(** *** Symmetry of CIEDE2000 *)

Section CIEDE2000.

Import Evaluation.

Lemma G_of_sym (as1 bs1 as2 bs2 : R) :
  G_of as1 bs1 as2 bs2 = G_of as2 bs2 as1 bs1.
Proof.
  unfold G_of. cbv zeta.
  now rewrite (Rplus_comm (sqrt (as1 * as1 + bs1 * bs1))).
Qed.

Ltac split_tests :=
  unfold JS.Rltb, JS.Rleb;
  repeat match goal with
         | |- context [Rlt_dec ?a ?b] => destruct (Rlt_dec a b)
         | |- context [Rle_dec ?a ?b] => destruct (Rle_dec a b)
         end;
  cbn [andb]; try lra.

(** Swapping the colours negates the hue difference ... *)
Lemma Dhp_of_antisym (Cp1 Cp2 hp1 hp2 : R) :
  Dhp_of Cp2 Cp1 hp2 hp1 = - Dhp_of Cp1 Cp2 hp1 hp2.
Proof.
  unfold Dhp_of.
  rewrite (Rmult_comm Cp2 Cp1), (Rabs_minus_sym hp1 hp2).
  split_tests.
Qed.

(** ... and leaves the mean hue unchanged. *)
Lemma hbp_of_sym (Cp1 Cp2 hp1 hp2 : R) :
  hbp_of Cp2 Cp1 hp2 hp1 = hbp_of Cp1 Cp2 hp1 hp2.
Proof.
  unfold hbp_of.
  rewrite (Rmult_comm Cp2 Cp1), (Rabs_minus_sym hp1 hp2),
    (Rplus_comm hp2 hp1).
  reflexivity.
Qed.

Lemma sin_deg_opp (d : R) : sin_deg (- d) = - sin_deg d.
Proof.
  unfold sin_deg. replace (- d * PI / 180) with (- (d * PI / 180)) by lra.
  apply sin_neg.
Qed.

Lemma DE_of_sym (ls1 Cp1 hp1 ls2 Cp2 hp2 : R) :
  DE_of ls1 Cp1 hp1 ls2 Cp2 hp2 = DE_of ls2 Cp2 hp2 ls1 Cp1 hp1.
Proof.
  unfold DE_of. cbv zeta.
  rewrite (Dhp_of_antisym Cp1 Cp2 hp1 hp2), (hbp_of_sym Cp1 Cp2 hp1 hp2).
  rewrite (Rmult_comm Cp2 Cp1), (Rplus_comm Cp2 Cp1), (Rplus_comm ls2 ls1).
  replace (- Dhp_of Cp1 Cp2 hp1 hp2 / 2)
    with (- (Dhp_of Cp1 Cp2 hp1 hp2 / 2)) by lra.
  rewrite sin_deg_opp.
  f_equal. unfold DE_sum, sq, Rdiv. ring.
Qed.

(** On real arguments no operation of [CIEDE2000] leaves the reals: the
    divisors are positive and the arguments of the square roots are not
    negative. *)
Lemma ratio7_range (c : R) :
  0 <= c -> 0 < c ^ 7 + 25 ^ 7 /\ 0 <= ratio7 c < 1.
Proof.
  intros Hc. assert (H7 : 0 <= c ^ 7) by now apply pow_le.
  assert (H25 : 0 < 25 ^ 7) by (apply pow_lt; lra).
  split; [lra |]. unfold ratio7. split.
  - apply Rmult_le_pos; [exact H7 | left; apply Rinv_0_lt_compat; lra].
  - apply Rmult_lt_reg_r with (c ^ 7 + 25 ^ 7); [lra |].
    unfold Rdiv. rewrite Rmult_assoc, Rinv_l by lra. lra.
Qed.

Lemma T_of_lower (hbp : R) : 0.07 <= T_of hbp.
Proof.
  unfold T_of, cos_deg.
  pose proof (COS_bound ((hbp - 30) * PI / 180)).
  pose proof (COS_bound (2 * hbp * PI / 180)).
  pose proof (COS_bound ((3 * hbp + 6) * PI / 180)).
  pose proof (COS_bound ((4 * hbp - 63) * PI / 180)).
  lra.
Qed.

Lemma SL_of_ge_1 (Lbp : R) : 0 < sqrt (20 + sq (Lbp - 50)) /\ 1 <= SL_of Lbp.
Proof.
  assert (Hs : 0 <= sq (Lbp - 50)) by exact (Rle_0_sqr (Lbp - 50)).
  assert (Hr : 0 < sqrt (20 + sq (Lbp - 50))) by (apply sqrt_lt_R0; lra).
  split; [exact Hr |]. unfold SL_of.
  assert (0 <= 0.015 * sq (Lbp - 50) / sqrt (20 + sq (Lbp - 50))).
  { apply Rmult_le_pos; [nra | left; now apply Rinv_0_lt_compat]. }
  lra.
Qed.

Lemma RT_of_bound (Dth Cbp : R) :
  0 <= Cbp -> -2 <= RT_of Dth (RC_of Cbp) <= 2.
Proof.
  intros Hc. destruct (ratio7_range Cbp Hc) as [_ [H0 H1]].
  assert (Hs : 0 <= sqrt (ratio7 Cbp) <= 1).
  { split; [apply sqrt_pos |]. rewrite <- sqrt_1. apply sqrt_le_1; lra. }
  pose proof (SIN_bound (2 * Dth * PI / 180)) as Hsin.
  unfold RT_of, RC_of, sin_deg. nra.
Qed.

Lemma DE_sum_nonneg (DLp DCp DHp SL SC SH RT : R) :
  -2 <= RT <= 2 -> 0 <= DE_sum DLp DCp DHp SL SC SH RT.
Proof.
  intros HRT. unfold DE_sum, sq. cbv zeta.
  generalize (DLp / (1 * SL)) (DCp / (1 * SC)) (DHp / (1 * SH)).
  intros x y z.
  pose proof (Rle_0_sqr x) as Hx. unfold Rsqr in Hx.
  destruct (Rle_dec 0 (y * z)).
  - pose proof (Rle_0_sqr (y - z)) as Hyz. unfold Rsqr in Hyz. nra.
  - pose proof (Rle_0_sqr (y + z)) as Hyz. unfold Rsqr in Hyz. nra.
Qed.

Lemma CIEDE2000_stays_real (ls1 Cp1 hp1 ls2 Cp2 hp2 : R) :
  0 <= Cp1 -> 0 <= Cp2 ->
  let Lbp := (ls1 + ls2) / 2 in
  let Cbp := (Cp1 + Cp2) / 2 in
  let hbp := hbp_of Cp1 Cp2 hp1 hp2 in
  0 <= Cp1 * Cp2
  /\ 1 <= SL_of Lbp /\ 1 <= SC_of Cbp /\ 1 <= SH_of Cbp (T_of hbp)
  /\ 0 <= DE_sum (ls2 - ls1) (Cp2 - Cp1)
            (2 * sqrt (Cp1 * Cp2)
             * sin_deg (Dhp_of Cp1 Cp2 hp1 hp2 / 2))
            (SL_of Lbp) (SC_of Cbp) (SH_of Cbp (T_of hbp))
            (RT_of (Dth_of hbp) (RC_of Cbp)).
Proof.
  intros H1 H2 Lbp Cbp hbp.
  assert (Hc : 0 <= Cbp) by (unfold Cbp; lra).
  pose proof (T_of_lower hbp) as HT.
  repeat split.
  - now apply Rmult_le_pos.
  - apply SL_of_ge_1.
  - unfold SC_of. lra.
  - unfold SH_of. nra.
  - apply DE_sum_nonneg. now apply RT_of_bound.
Qed.

(** C4: CIEDE2000 is symmetric in its two Lab arguments. *)
Theorem CIEDE2000_symmetric (lab1 lab2 : R * R * R) :
  CIEDE2000 lab1 lab2 = CIEDE2000 lab2 lab1.
Proof.
  destruct lab1 as [[ls1 as1] bs1], lab2 as [[ls2 as2] bs2].
  unfold CIEDE2000. cbv zeta.
  rewrite (G_of_sym as2 bs2 as1 bs1).
  apply DE_of_sym.
Qed.

End CIEDE2000.

(** *** Totality of the categorical colour lookup *)

Section Category.

Import Evaluation.

Lemma tables_ok (l : Z) :
  In l _LUM_TABLE ->
  exists t, _CC_TABLE l = Some t /\ table_ok t = true.
Proof.
  intros H. cbn in H.
  repeat (destruct H as [<- | H]; [eexists; split; [reflexivity | vm_compute; reflexivity] |]).
  contradiction.
Qed.

Lemma nearest_cell_good (t : string) (sx sy : R) (idx : list nat) :
  forall (dis : R) (cc : cell),
    forallb (cell_ok t) idx = true -> good cc ->
    good (nearest_cell t sx sy idx dis cc).
Proof.
  induction idx as [| i idx IH]; intros dis cc Hok Hcc; [exact Hcc |].
  cbn [forallb] in Hok. apply andb_prop in Hok as [Hi Hrest].
  cbn [nearest_cell]. unfold cell_ok in Hi.
  destruct (String.get i t) as [c |]; [| discriminate].
  destruct (Ascii.eqb c ".").
  - now apply IH.
  - cbn [orb] in Hi.
    destruct (JS.Rltb _ dis); [| now apply IH].
    apply IH; [exact Hrest |].
    destruct (index_of_cell (Cell (Some c))) as [ci |] eqn:E; [| discriminate].
    exists ci. split; [exact E | now apply Nat.ltb_lt].
Qed.

Lemma nearest_lum_in (ls : list Z) (lum : JS.num) :
  forall (diff : JS.num) (clum : Z),
    In (nearest_lum ls lum diff clum) (clum :: ls).
Proof.
  induction ls as [| l ls IH]; intros diff clum; [now left |].
  cbn [nearest_lum].
  destruct (JS.lt _ diff).
  - destruct (IH (JS.abs (lum - JS.Fin (IZR l))%js) l) as [E | E];
      [right; left; exact E | right; right; exact E].
  - destruct (IH diff clum) as [E | E]; [left; exact E | right; right; exact E].
Qed.

Lemma MAX_VALUE_large : 1000 < JS.MAX_VALUE.
Proof. unfold JS.MAX_VALUE. apply IZR_lt. reflexivity. Qed.

(** The compressed luminance of a non-negative Y is a real number no
    larger than [max 1 (60 * Y)]. *)
Lemma lum_finite (y : R) :
  0 <= y ->
  exists L : R,
    JS.pow (JS.Fin (y * _Y_TO_LUM)) 0.9 = JS.Fin L
    /\ 0 <= L /\ (L <= 1 \/ L <= y * _Y_TO_LUM).
Proof.
  intros Hy. unfold _Y_TO_LUM. cbn [JS.pow].
  destruct (Rle_lt_or_eq_dec 0 y Hy) as [Hpos | <-].
  - rewrite Rltb_true by lra. eexists. split; [reflexivity |].
    split; [left; apply exp_pos |].
    destruct (Rle_dec (y * 60) 1) as [Hs | Hs].
    + left. apply Rle_trans with (Rpower 1 0.9).
      * apply Rle_Rpower_l; lra.
      * right. unfold Rpower. rewrite ln_1, Rmult_0_r. apply exp_0.
    + right. apply Rle_trans with (Rpower (y * 60) 1).
      * apply Rle_Rpower; lra.
      * right. apply Rpower_1. lra.
  - rewrite Rmult_0_l. rewrite Rltb_false by lra.
    rewrite Reqb_true by reflexivity. rewrite Rltb_true by lra.
    exists 0. split; [reflexivity | lra].
Qed.

Lemma nearest_lum_first (L : R) (l : Z) (rest : list Z) :
  Rabs (L - IZR l) < JS.MAX_VALUE ->
  In (nearest_lum (l :: rest) (JS.Fin L) (JS.Fin JS.MAX_VALUE) 0) (l :: rest).
Proof.
  intros H. cbn [nearest_lum JS.sub JS.neg JS.add JS.abs JS.lt].
  rewrite Rltb_true by exact H. apply nearest_lum_in.
Qed.

Lemma clum_in_table (y : R) :
  0 <= y -> y * _Y_TO_LUM <= JS.MAX_VALUE ->
  In (nearest_lum _LUM_TABLE (JS.pow (JS.Fin (y * _Y_TO_LUM)) 0.9)
        (JS.Fin JS.MAX_VALUE) 0)
     _LUM_TABLE.
Proof.
  intros Hy Hmax.
  destruct (lum_finite y Hy) as (L & -> & HL0 & HL).
  pose proof MAX_VALUE_large as HM.
  apply nearest_lum_first.
  unfold Rabs. destruct (Rcase_abs (L - 2)); lra.
Qed.

(** C9 (as amended): for a Yxy colour of real components whose
    luminance Y is non-negative (and whose product [60 * Y] is at most
    [Number.MAX_VALUE]), [categoryOfYxy] returns one of the 11 names of
    [CATEGORICAL_COLORS]. *)
Theorem categoryOfYxy_total (y sx sy : R) :
  0 <= y -> y * _Y_TO_LUM <= JS.MAX_VALUE ->
  exists name : string,
    categoryOfYxy (y, sx, sy) = JS.Ok (Some name)
    /\ In name CATEGORICAL_COLORS.
Proof.
  intros Hy Hmax. unfold categoryOfYxy.
  destruct (tables_ok _ (clum_in_table y Hy Hmax)) as (t & -> & Ht).
  destruct (nearest_cell_good t (sx * 1000) (sy * 1000) (seq 0 (18 * 21))
              JS.MAX_VALUE One Ht) as (ci & -> & Hci).
  { exists 1%nat. split; [reflexivity | lia]. }
  destruct (nth_error CATEGORICAL_COLORS ci) as [name |] eqn:E.
  - exists name. split; [reflexivity | eapply nth_error_In; exact E].
  - apply nth_error_None in E. cbn in E. lia.
Qed.

End Category.

Lemma categoryOfYxy_total_witness :
  exists name : string,
    Evaluation.categoryOfYxy (0, 0.3, 0.3) = JS.Ok (Some name)
    /\ In name Evaluation.CATEGORICAL_COLORS.
Proof.
  apply (categoryOfYxy_total 0 0.3 0.3).
  - lra.
  - pose proof MAX_VALUE_large. unfold Evaluation._Y_TO_LUM. lra.
Defined.

(** With a negative luminance the power is NaN, no luminance of the table
    is selected, and indexing the missing table throws. *)
Lemma categoryOfYxy_throws_on_negative_Y :
  ~ (exists name : string,
       Evaluation.categoryOfYxy (-1, 0.3, 0.3) = JS.Ok (Some name)
       /\ In name Evaluation.CATEGORICAL_COLORS).
Proof.
  intros (name & H & _).
  unfold Evaluation.categoryOfYxy, Evaluation._Y_TO_LUM in H.
  cbn [JS.pow] in H.
  rewrite Rltb_false in H by lra. rewrite Reqb_false in H by lra.
  assert (F : Zfloor 0.9 = 0%Z) by (apply Zfloor_eq; lra).
  unfold JS.is_integer in H. rewrite F in H.
  rewrite Reqb_false in H by lra.
  cbn in H. discriminate H.
Qed.

(** ** The dispatcher *)

Section DispatcherFacts.

Import Dispatcher.

Lemma mem_In (k : string) (l : list string) : mem k l = true <-> In k l.
Proof.
  unfold mem. rewrite existsb_exists. split.
  - intros (x & Hx & E). apply String.eqb_eq in E. now subst.
  - intros H. exists k. split; [exact H | apply String.eqb_refl].
Qed.

Lemma recognized_count : List.length recognized = 72%nat.
Proof. reflexivity. Qed.

(** The labels of the [switch] are exactly the 72 recognised keys. *)
Lemma case_labels (k : string) : In k (map fst cases) <-> In k recognized.
Proof.
  assert (H1 : forallb (fun k => mem k recognized) (map fst cases) = true)
    by (vm_compute; reflexivity).
  assert (H2 : forallb (fun k => mem k (map fst cases)) recognized = true)
    by (vm_compute; reflexivity).
  rewrite forallb_forall in H1, H2.
  split; intros H; apply mem_In; [now apply H1 | now apply H2].
Qed.

Lemma select_unlabelled (type : string) (cs : list (string * list step)) :
  ~ In type (map fst cs) -> select type cs = None.
Proof.
  induction cs as [| [label chain] cs IH]; intros H; [reflexivity |].
  cbn [select]. destruct (String.eqb_spec type label) as [-> | Hne].
  - exfalso. apply H. now left.
  - apply IH. intros Hin. apply H. now right.
Qed.

Context {m : Type -> Type} {Monad_m : Monad m} {V : Type}.
Variable call : step -> V -> m V.

(** C2: when the lower-cased key "from-to" is not one of the 72
    recognised conversion pairs, [convert] returns its input unchanged:
    no conversion function is called and nothing is thrown. *)
Theorem convert_unknown_pair_is_identity (vs : V) (from to : string) :
  ~ In (type_of from to) recognized ->
  convert call vs from (Some to) = ret vs.
Proof.
  intros H. unfold convert.
  rewrite select_unlabelled; [reflexivity |].
  intros Hin. apply H. now apply case_labels.
Qed.

End DispatcherFacts.

Lemma convert_unknown_pair_is_identity_witness :
  Dispatcher.convert (fun _ v => JS.Ok v)
    (JS.Fin 1, JS.Fin 2, JS.Fin 3) "RGB" (Some "cmyk"%string)
  = JS.Ok (JS.Fin 1, JS.Fin 2, JS.Fin 3).
Proof.
  refine (convert_unknown_pair_is_identity (Monad_m := Monad_result)
            (fun _ v => JS.Ok v) (JS.Fin 1, JS.Fin 2, JS.Fin 3)
            "RGB" "cmyk" _).
  intros H. apply mem_In in H. vm_compute in H. discriminate H.
Defined.

(** A key of the table does dispatch: [convert(vs, "Yxy", "XYZ")] is
    [XYZ.fromYxy(vs)]. *)
Example convert_yxy_xyz (call : Dispatcher.step -> triple -> JS.result triple)
    (vs : triple) :
  Dispatcher.convert call vs "Yxy" (Some "XYZ"%string)
  = call Dispatcher.XYZ_fromYxy vs.
Proof. reflexivity. Qed.

(* ===================================================================== *)
(** * Further properties *)
(* ===================================================================== *)

(** ** Lab *)

Lemma Rpower_third_cube (x : R) : 0 < x -> Rpower x (1 / 3) ^ 3 = x.
Proof.
  intros Hx. rewrite <- Rpower_pow by apply exp_pos.
  rewrite Rpower_mult. replace (1 / 3 * INR 3) with 1 by (simpl; lra).
  now apply Rpower_1.
Qed.

Lemma Rpower_cube_third (t : R) : 0 < t -> Rpower (t ^ 3) (1 / 3) = t.
Proof.
  intros Ht. rewrite <- Rpower_pow by assumption.
  rewrite Rpower_mult. replace (INR 3 * (1 / 3)) with 1 by (simpl; lra).
  now apply Rpower_1.
Qed.

Lemma Lab_invFunc_func (x : R) : Lab._invFunc (Lab._func x) = x.
Proof.
  unfold Lab._func, Lab._invFunc, JS.Rltb.
  destruct (Rlt_dec Lab._C1 x) as [H | H].
  - assert (Hx : 0 < x) by (unfold Lab._C1 in H; lra).
    pose proof (Rpower_third_cube x Hx) as Hc.
    destruct (Rlt_dec Lab._C3 (Rpower x (1 / 3))) as [_ | Hn]; [exact Hc |].
    exfalso. apply Rnot_lt_le in Hn.
    assert (Hp : 0 <= Rpower x (1 / 3)) by (left; apply exp_pos).
    pose proof (pow_incr _ _ 3 (conj Hp Hn)) as Hi.
    rewrite Hc in Hi. unfold Lab._C1, Lab._C3 in *. lra.
  - apply Rnot_lt_le in H.
    destruct (Rlt_dec Lab._C3 (Lab._C2 * x + 16 / 116)) as [Hn | _].
    + exfalso. unfold Lab._C1, Lab._C2, Lab._C3 in *. lra.
    + unfold Lab._C2, Lab._C4. lra.
Qed.

Lemma Lab_func_invFunc (t : R) : Lab._func (Lab._invFunc t) = t.
Proof.
  unfold Lab._func, Lab._invFunc, JS.Rltb.
  destruct (Rlt_dec Lab._C3 t) as [H | H].
  - assert (Ht : 0 < t) by (unfold Lab._C3 in H; lra).
    assert (Hc : Lab._C1 < t ^ 3).
    { unfold Lab._C1, Lab._C3 in *.
      assert (0 < t - 6 / 29) by lra. nra. }
    destruct (Rlt_dec Lab._C1 (t ^ 3)) as [_ | Hn]; [| contradiction].
    now apply Rpower_cube_third.
  - apply Rnot_lt_le in H.
    destruct (Rlt_dec Lab._C1 ((t - 16 / 116) * Lab._C4)) as [Hn | _].
    + exfalso. unfold Lab._C1, Lab._C3, Lab._C4 in *. lra.
    + unfold Lab._C2, Lab._C4. lra.
Qed.

(** X1: [Lab.fromXYZ] and [Lab.toXYZ] are inverse of each other on all real
    triples (in exact real arithmetic). *)
Theorem Lab_roundtrip (x y z ls as_ bs : R) :
  Lab.toXYZ (Lab.fromXYZ (x, y, z)) = (x, y, z)
  /\ Lab.fromXYZ (Lab.toXYZ (ls, as_, bs)) = (ls, as_, bs).
Proof.
  unfold Lab.toXYZ, Lab.fromXYZ, Lab.XYZ_TRISTIMULUS_VALUES, Lab.D65_XYZ,
    Lab.D65_xyz.
  split.
  - set (fx := Lab._func (x / (0.31273 / 0.32902))).
    set (fy := Lab._func (y / 1)).
    set (fz := Lab._func (z / (0.35825 / 0.32902))).
    replace ((116 * fy - 16 + 16) / 116 + 500 * (fx - fy) / 500) with fx by lra.
    replace ((116 * fy - 16 + 16) / 116 - 200 * (fy - fz) / 200) with fz by lra.
    replace ((116 * fy - 16 + 16) / 116) with fy by lra.
    unfold fx, fy, fz. rewrite !Lab_invFunc_func.
    f_equal; [f_equal |]; lra.
  - set (gx := Lab._invFunc ((ls + 16) / 116 + as_ / 500)).
    set (gy := Lab._invFunc ((ls + 16) / 116)).
    set (gz := Lab._invFunc ((ls + 16) / 116 - bs / 200)).
    replace (gx * (0.31273 / 0.32902) / (0.31273 / 0.32902)) with gx by (field; lra).
    replace (gy * 1 / 1) with gy by lra.
    replace (gz * (0.35825 / 0.32902) / (0.35825 / 0.32902)) with gz by (field; lra).
    unfold gx, gy, gz. rewrite !Lab_func_invFunc.
    f_equal; [f_equal |]; lra.
Qed.

(** *** Polar coordinates *)

Lemma hypot_factor (x y : R) :
  x <> 0 -> sqrt (x * x + y * y) = Rabs x * sqrt (1 + (y / x)²).
Proof.
  intros Hx.
  replace (x * x + y * y) with (Rsqr x * (1 + (y / x)²))
    by (unfold Rsqr; field; exact Hx).
  rewrite sqrt_mult.
  - now rewrite sqrt_Rsqr_abs.
  - apply Rle_0_sqr.
  - pose proof (Rle_0_sqr (y / x)). lra.
Qed.

Lemma sqrt_1_sqr_pos (t : R) : 0 < sqrt (1 + t²).
Proof. apply sqrt_lt_R0. pose proof (Rle_0_sqr t). lra. Qed.

(** [Math.atan2(y, x)] is the angle of the point [(x, y)]. *)
Lemma atan2_angle (y x : R) :
  cos (Evaluation.atan2 y x) * sqrt (x * x + y * y) = x
  /\ sin (Evaluation.atan2 y x) * sqrt (x * x + y * y) = y.
Proof.
  unfold Evaluation.atan2, JS.Rltb, JS.Rleb.
  pose proof (sqrt_1_sqr_pos (y / x)) as Hs.
  destruct (Rlt_dec 0 x) as [Hpos | Hnpos].
  - rewrite hypot_factor by lra. rewrite Rabs_pos_eq by lra.
    rewrite cos_atan, sin_atan. split; field; lra.
  - destruct (Rlt_dec x 0) as [Hneg | Hnneg].
    + rewrite hypot_factor by lra. rewrite Rabs_left by lra.
      destruct (Rle_dec 0 y).
      * rewrite neg_cos, neg_sin, cos_atan, sin_atan. split; field; lra.
      * replace (atan (y / x) - PI) with (- (PI - atan (y / x))) by lra.
        rewrite cos_neg, sin_neg.
        replace (PI - atan (y / x)) with (- atan (y / x) + PI) by lra.
        rewrite neg_cos, neg_sin, cos_neg, sin_neg, cos_atan, sin_atan.
        split; field; lra.
    + assert (x = 0) by lra. subst x.
      replace (0 * 0 + y * y) with (Rsqr y) by (unfold Rsqr; lra).
      rewrite sqrt_Rsqr_abs.
      destruct (Rlt_dec 0 y).
      * rewrite cos_PI2, sin_PI2, Rabs_pos_eq by lra. lra.
      * destruct (Rlt_dec y 0).
        -- replace (- PI / 2) with (- (PI / 2)) by lra.
           rewrite cos_neg, sin_neg, cos_PI2, sin_PI2, Rabs_left by lra. lra.
        -- assert (y = 0) by lra. subst y.
           rewrite cos_0, sin_0, Rabs_R0. lra.
Qed.

(** X2: Converting a Lab colour to polar coordinates and back gives the colour
    again (in exact real arithmetic). *)
Theorem Lab_polar_roundtrip (ls as_ bs : R) :
  LabCoordinate.toOrthogonalCoordinate
    (LabCoordinate.toPolarCoordinate (ls, as_, bs))
  = (ls, as_, bs).
Proof.
  unfold LabCoordinate.toOrthogonalCoordinate, LabCoordinate.toPolarCoordinate.
  cbv zeta. pose proof PI_RGT_0 as HPI.
  match goal with
  | |- context [?r * 360 / (PI * 2) * (PI * 2) / 360] =>
      replace (r * 360 / (PI * 2) * (PI * 2) / 360) with r by (field; lra)
  end.
  unfold JS.Rltb. destruct (Rlt_dec 0 bs).
  - destruct (atan2_angle bs as_) as [Hc Hs]. now rewrite Hc, Hs.
  - destruct (atan2_angle (- bs) (- as_)) as [Hc Hs].
    replace (- as_ * - as_ + - bs * - bs) with (as_ * as_ + bs * bs) in Hc, Hs
      by ring.
    rewrite neg_cos, neg_sin.
    f_equal; [f_equal |]; lra.
Qed.

(** ** Yxy, the other way round *)

(** X3: Yxy -> XYZ -> Yxy is the identity when the luminance and the
    chromaticity y are not zero (in exact real arithmetic). *)
Theorem Yxy_reverse_roundtrip (st : flags) (Y sx sy : R) :
  Y <> 0 -> sy <> 0 ->
  Yxy.fromXYZ (fst (Yxy.toXYZ (JS.Fin Y, JS.Fin sx, JS.Fin sy) st))
  = (JS.Fin Y, JS.Fin sx, JS.Fin sy).
Proof.
  intros HY Hsy. unfold Yxy.toXYZ. cbn [JS.mul JS.sub JS.add JS.neg].
  rewrite !div_fin by assumption. cbn [JS.isNaN].
  destruct Lab.D65_XYZ as [[wx wy] wz]. cbn [fst].
  assert (Hsum : sx * Y / sy + Y + (1 + - sx + - sy) * Y / sy = Y / sy)
    by (field; assumption).
  assert (Hq : Y / sy <> 0).
  { unfold Rdiv. apply Rmult_integral_contrapositive_currified;
      [assumption | now apply Rinv_neq_0_compat]. }
  rewrite Yxy_fromXYZ_regular by (rewrite Hsum; exact Hq).
  rewrite Hsum. repeat f_equal; field; split; assumption.
Qed.

Lemma Yxy_reverse_roundtrip_witness :
  Yxy.fromXYZ (fst (Yxy.toXYZ (JS.Fin 1, JS.Fin (1 / 4), JS.Fin (1 / 2)) flags0))
  = (JS.Fin 1, JS.Fin (1 / 4), JS.Fin (1 / 2)).
Proof.
  apply (Yxy_reverse_roundtrip flags0 1 (1 / 4) (1 / 2)); lra.
Defined.

(** ** Conspicuity and Euclidean distance *)

Lemma atan2_upper_half (y x : R) :
  0 <= y -> 0 <= Evaluation.atan2 y x <= PI.
Proof.
  intros Hy. unfold Evaluation.atan2, JS.Rltb, JS.Rleb.
  pose proof PI_RGT_0 as HPI.
  pose proof (atan_bound (y / x)) as [Bl Bu].
  destruct (Rlt_dec 0 x) as [Hpos | Hnpos].
  - assert (0 <= y / x).
    { apply Rmult_le_pos; [exact Hy | left; now apply Rinv_0_lt_compat]. }
    assert (0 <= atan (y / x)).
    { destruct (Req_dec (y / x) 0) as [-> | Hne].
      - rewrite atan_0. lra.
      - left. rewrite <- atan_0. apply atan_increasing. lra. }
    lra.
  - destruct (Rlt_dec x 0) as [Hneg | Hnneg].
    + destruct (Rle_dec 0 y); [| lra].
      assert (y / x <= 0).
      { unfold Rdiv. rewrite <- (Rmult_0_r y).
        apply Rmult_le_compat_l; [exact Hy |].
        left. now apply Rinv_lt_0_compat. }
      assert (atan (y / x) <= 0).
      { destruct (Req_dec (y / x) 0) as [-> | Hne].
        - rewrite atan_0. lra.
        - left. rewrite <- atan_0. apply atan_increasing. lra. }
      lra.
    + destruct (Rlt_dec 0 y); [lra |].
      destruct (Rlt_dec y 0); lra.
Qed.

(** X4: The conspicuity degree lies in [[0, 180]], as documented. *)
Theorem conspicuityOfLab_range (ls as_ bs : R) :
  0 <= Evaluation.conspicuityOfLab (ls, as_, bs) <= 180.
Proof.
  unfold Evaluation.conspicuityOfLab. cbv zeta.
  pose proof PI_RGT_0 as HPI.
  set (rad := if JS.Rltb 0 bs then Evaluation.atan2 bs as_
              else Evaluation.atan2 (- bs) (- as_) + PI).
  assert (Hrad : 0 <= rad <= 2 * PI).
  { unfold rad, JS.Rltb. destruct (Rlt_dec 0 bs).
    - pose proof (atan2_upper_half bs as_ ltac:(lra)). lra.
    - pose proof (atan2_upper_half (- bs) (- as_) ltac:(lra)). lra. }
  assert (HH : 0 <= rad / (PI * 2) * 360 <= 360).
  { assert (E : rad / (PI * 2) * 360 = rad * (180 / PI)) by (field; lra).
    rewrite E.
    assert (0 < 180 / PI) by (apply Rdiv_lt_0_compat; lra).
    assert (2 * PI * (180 / PI) = 360) by (field; lra).
    split; [apply Rmult_le_pos; lra |].
    apply Rle_trans with (2 * PI * (180 / PI)); [| lra].
    apply Rmult_le_compat_r; lra. }
  generalize dependent (rad / (PI * 2) * 360). intros H HH.
  unfold JS.Rltb. destruct (Rlt_dec H 35).
  - split; [apply Rabs_pos |]. unfold Rabs. destruct (Rcase_abs _); lra.
  - split; [apply Rabs_pos |]. unfold Rabs. destruct (Rcase_abs _); lra.
Qed.

Lemma sum_sq_nonneg (x y z : R) : 0 <= x * x + y * y + z * z.
Proof.
  pose proof (Rle_0_sqr x) as L1. pose proof (Rle_0_sqr y) as L2.
  pose proof (Rle_0_sqr z) as L3. unfold Rsqr in L1, L2, L3. lra.
Qed.

Lemma euclid_triangle (a b c d e f : R) :
  sqrt ((a + d) * (a + d) + (b + e) * (b + e) + (c + f) * (c + f))
  <= sqrt (a * a + b * b + c * c) + sqrt (d * d + e * e + f * f).
Proof.
  set (U := a * a + b * b + c * c). set (V := d * d + e * e + f * f).
  assert (HU : 0 <= U) by apply sum_sq_nonneg.
  assert (HV : 0 <= V) by apply sum_sq_nonneg.
  pose proof (sqrt_pos U) as Hu. pose proof (sqrt_pos V) as Hv.
  pose proof (sqrt_sqrt U HU) as Su. pose proof (sqrt_sqrt V HV) as Sv.
  assert (CS : a * d + b * e + c * f <= sqrt U * sqrt V).
  { destruct (Rle_dec (a * d + b * e + c * f) 0) as [Hn | Hp].
    - apply Rle_trans with 0; [exact Hn | now apply Rmult_le_pos].
    - apply Rnot_le_lt in Hp.
      apply Rsqr_incr_0_var; [| now apply Rmult_le_pos].
      unfold Rsqr.
      replace (sqrt U * sqrt V * (sqrt U * sqrt V))
        with ((sqrt U * sqrt U) * (sqrt V * sqrt V)) by ring.
      rewrite Su, Sv. unfold U, V.
      pose proof (Rle_0_sqr (a * e - b * d)) as L1.
      pose proof (Rle_0_sqr (a * f - c * d)) as L2.
      pose proof (Rle_0_sqr (b * f - c * e)) as L3.
      unfold Rsqr in L1, L2, L3. nra. }
  apply Rsqr_incr_0_var; [| lra].
  rewrite Rsqr_sqrt by apply sum_sq_nonneg.
  unfold Rsqr.
  replace ((sqrt U + sqrt V) * (sqrt U + sqrt V))
    with (sqrt U * sqrt U + sqrt V * sqrt V + 2 * (sqrt U * sqrt V)) by ring.
  rewrite Su, Sv. generalize dependent (sqrt U * sqrt V). intros m CS.
  unfold U, V. lra.
Qed.

(** X5: CIE 76 is a metric on Lab colours: it is non-negative, zero exactly
    between equal colours, symmetric, and satisfies the triangle
    inequality; [differenceBetweenLab] uses it when no method is given. *)
Theorem CIE76_metric (p q r : R * R * R) :
  0 <= Evaluation.CIE76 p q
  /\ (Evaluation.CIE76 p q = 0 <-> p = q)
  /\ Evaluation.CIE76 p q = Evaluation.CIE76 q p
  /\ Evaluation.CIE76 p r <= Evaluation.CIE76 p q + Evaluation.CIE76 q r
  /\ Evaluation.differenceBetweenLab p q None = Evaluation.CIE76 p q.
Proof.
  destruct p as [[p1 p2] p3], q as [[q1 q2] q3], r as [[r1 r2] r3].
  unfold Evaluation.differenceBetweenLab, Evaluation.CIE76.
  repeat split.
  - apply sqrt_pos.
  - intros H. apply sqrt_eq_0 in H.
    + pose proof (Rle_0_sqr (p1 - q1)) as L1.
      pose proof (Rle_0_sqr (p2 - q2)) as L2.
      pose proof (Rle_0_sqr (p3 - q3)) as L3.
      unfold Rsqr in L1, L2, L3.
      assert (E1 : (p1 - q1) * (p1 - q1) = 0) by lra.
      assert (E2 : (p2 - q2) * (p2 - q2) = 0) by lra.
      assert (E3 : (p3 - q3) * (p3 - q3) = 0) by lra.
      apply Rmult_integral in E1, E2, E3.
      f_equal; [f_equal |]; lra.
    + pose proof (Rle_0_sqr (p1 - q1)) as L1.
      pose proof (Rle_0_sqr (p2 - q2)) as L2.
      pose proof (Rle_0_sqr (p3 - q3)) as L3.
      unfold Rsqr in L1, L2, L3. lra.
  - intros H. injection H as -> -> ->.
    replace ((q1 - q1) * (q1 - q1) + (q2 - q2) * (q2 - q2) + (q3 - q3) * (q3 - q3))
      with 0 by ring.
    apply sqrt_0.
  - f_equal. ring.
  - replace (p1 - r1) with ((p1 - q1) + (q1 - r1)) by ring.
    replace (p2 - r2) with ((p2 - q2) + (q2 - r2)) by ring.
    replace (p3 - r3) with ((p3 - q3) + (q3 - r3)) by ring.
    apply euclid_triangle.
Qed.

(** X6: The CIEDE2000 difference is never negative, and it is zero between a
    colour and itself. *)
Theorem CIEDE2000_identity (lab1 lab2 : R * R * R) :
  0 <= Evaluation.CIEDE2000 lab1 lab2
  /\ Evaluation.CIEDE2000 lab1 lab1 = 0.
Proof.
  split.
  - destruct lab1 as [[ls1 as1] bs1], lab2 as [[ls2 as2] bs2].
    unfold Evaluation.CIEDE2000, Evaluation.DE_of. apply sqrt_pos.
  - destruct lab1 as [[ls1 as1] bs1].
    unfold Evaluation.CIEDE2000, Evaluation.DE_of. cbv zeta.
    set (G := Evaluation.G_of as1 bs1 as1 bs1).
    set (Cp := Evaluation.Cp_of G as1 bs1).
    set (hp := Evaluation.hp_of G as1 bs1).
    assert (HD : Evaluation.Dhp_of Cp Cp hp hp = 0).
    { unfold Evaluation.Dhp_of.
      replace (hp - hp) with 0 by ring. rewrite Rabs_R0.
      destruct (JS.Rltb (Cp * Cp) 1e-10); [reflexivity |].
      rewrite Rleb_true by lra. reflexivity. }
    rewrite HD. unfold Evaluation.DE_sum, Evaluation.sq, Evaluation.sin_deg.
    cbv zeta.
    replace (0 / 2 * PI / 180) with 0 by (unfold Rdiv; ring).
    rewrite sin_0.
    replace (ls1 - ls1) with 0 by ring. replace (Cp - Cp) with 0 by ring.
    unfold Rdiv. rewrite !Rmult_0_r, !Rmult_0_l, !Rplus_0_r, !Rmult_0_r.
    rewrite Rplus_0_r. apply sqrt_0.
Qed.

(** ** The matrix transforms and their inverses *)

Ltac abs_cases :=
  unfold Rabs;
  repeat match goal with
         | |- context [Rcase_abs ?e] => destruct (Rcase_abs e)
         end;
  lra.

Ltac approx_matrix :=
  unfold approx, reals_of, close_to; repeat split; abs_cases.

(** X7: The hard-coded Linear RGB <-> XYZ matrices are inverse of each other
    up to 2e-7 of the size of the colour, in both orders. *)
Theorem LRGB_XYZ_roundtrip (a b c : R) :
  approx (2 / 10000000)
    (LRGB.fromXYZ (LRGB.toXYZ (JS.Fin a, JS.Fin b, JS.Fin c))) (a, b, c)
  /\ approx (2 / 10000000)
       (LRGB.toXYZ (LRGB.fromXYZ (JS.Fin a, JS.Fin b, JS.Fin c))) (a, b, c).
Proof.
  unfold LRGB.fromXYZ, LRGB.toXYZ. cbn [JS.mul JS.add].
  split; approx_matrix.
Qed.

(** X8: The illuminant C <-> D65 adaptations are inverse of each other up to
    1e-7 of the size of the colour, in both orders. *)
Theorem XYZ_illuminantC_roundtrip (a b c : R) :
  approx (1 / 10000000)
    (XYZ.toIlluminantC (XYZ.fromIlluminantC (JS.Fin a, JS.Fin b, JS.Fin c)))
    (a, b, c)
  /\ approx (1 / 10000000)
       (XYZ.fromIlluminantC (XYZ.toIlluminantC (JS.Fin a, JS.Fin b, JS.Fin c)))
       (a, b, c).
Proof.
  unfold XYZ.fromIlluminantC, XYZ.toIlluminantC. cbn [JS.mul JS.add].
  split; approx_matrix.
Qed.

(** X9: Each of the three cone matrices that [LMS.matrix] can be set to is
    inverted by the matrix of the same name in [LMS.matrixInverse], up to
    1e-7 of the size of the colour and in both orders; this covers the
    pair the library starts with. *)
Theorem LMS_XYZ_roundtrip (m mi : matrix3) (a b c : R) :
  (m, mi) = (LMS.SMITH_POKORNY, LMS.SMITH_POKORNY_INV)
  \/ (m, mi) = (LMS.BRADFORD, LMS.BRADFORD_INV)
  \/ (m, mi) = (LMS.VON_KRIES, LMS.VON_KRIES_INV) ->
  approx (1 / 10000000)
    (LMS.toXYZ mi (LMS.fromXYZ m (JS.Fin a, JS.Fin b, JS.Fin c))) (a, b, c)
  /\ approx (1 / 10000000)
       (LMS.fromXYZ m (LMS.toXYZ mi (JS.Fin a, JS.Fin b, JS.Fin c))) (a, b, c).
Proof.
  intros [H | [H | H]]; inversion H; subst; clear H;
    unfold LMS.toXYZ, LMS.fromXYZ, apply3, LMS.SMITH_POKORNY,
      LMS.SMITH_POKORNY_INV, LMS.BRADFORD, LMS.BRADFORD_INV, LMS.VON_KRIES,
      LMS.VON_KRIES_INV;
    cbn [JS.mul JS.add]; split; approx_matrix.
Qed.

Lemma LMS_XYZ_roundtrip_witness :
  approx (1 / 10000000)
    (LMS.toXYZ LMS.matrixInverse
       (LMS.fromXYZ LMS.matrix (JS.Fin 1, JS.Fin 2, JS.Fin 3))) (1, 2, 3)
  /\ approx (1 / 10000000)
       (LMS.fromXYZ LMS.matrix
          (LMS.toXYZ LMS.matrixInverse (JS.Fin 1, JS.Fin 2, JS.Fin 3)))
       (1, 2, 3).
Proof.
  apply (LMS_XYZ_roundtrip LMS.matrix LMS.matrixInverse 1 2 3).
  left. reflexivity.
Defined.

(** X10: YIQ: the two matrices are inverse of each other only up to 3e-5 of
    the size of the colour, and the grey axis is mapped exactly: equal
    Linear RGB components give I = Q = 0 and back. *)
Theorem YIQ_LRGB_roundtrip (a b c : R) :
  approx (3 / 100000)
    (YIQ.toLRGB (YIQ.fromLRGB (JS.Fin a, JS.Fin b, JS.Fin c))) (a, b, c)
  /\ approx (3 / 100000)
       (YIQ.fromLRGB (YIQ.toLRGB (JS.Fin a, JS.Fin b, JS.Fin c))) (a, b, c)
  /\ YIQ.fromLRGB (JS.Fin a, JS.Fin a, JS.Fin a) = (JS.Fin a, JS.Fin 0, JS.Fin 0)
  /\ YIQ.toLRGB (JS.Fin a, JS.Fin 0, JS.Fin 0) = (JS.Fin a, JS.Fin a, JS.Fin a).
Proof.
  unfold YIQ.fromLRGB, YIQ.toLRGB. cbn [JS.mul JS.add].
  split; [approx_matrix | split; [approx_matrix | split]];
    repeat (apply f_equal2); apply (f_equal JS.Fin); lra.
Qed.

(** ** sRGB: range of the result, and colour integers *)

Lemma invFunc_unit (l : R) :
  0 <= l <= 1 ->
  exists s : R, RGB._invFunc (JS.Fin l) = JS.Fin s /\ 0 <= s <= 1.
Proof.
  intros [H0 H1]. destruct (Rle_lt_dec l 0.00304) as [H | H].
  - exists (l * 12.92). split; [now apply RGB_invFunc_low | lra].
  - exists (Rpower l (1 / 2.4) * 1.055 - 0.055).
    split; [now apply RGB_invFunc_high |].
    rewrite exponent_inv_2_4.
    assert (U : Rpower l (INR 5 / INR 12) <= 1).
    { apply Rpower_frac_le; [lra | lra | lia |].
      rewrite pow1. rewrite <- (pow1 5). apply pow_incr. lra. }
    assert (L : 0.06 <= Rpower l (INR 5 / INR 12)).
    { apply Rpower_frac_ge; [lra | lra | lia |].
      apply Rle_trans with (0.00304 ^ 5); [lra |].
      apply pow_incr. lra. }
    lra.
Qed.

Lemma func_unit (v : R) :
  0 <= v <= 1 -> 0 <= gamma_spec v <= 1.
Proof.
  intros [H0 H1]. unfold gamma_spec.
  destruct (Rlt_dec v 0.03928) as [H | H]; [lra |].
  split.
  - left. apply exp_pos.
  - rewrite exponent_2_4. apply Rpower_frac_le; [| lra | lia |].
    + apply Rdiv_lt_0_compat; lra.
    + rewrite pow1. rewrite <- (pow1 12). apply pow_incr.
      split; [left; apply Rdiv_lt_0_compat; lra |].
      apply Rmult_le_reg_r with 1.055; [lra |]. unfold Rdiv.
      rewrite Rmult_assoc, Rinv_l by lra. lra.
Qed.

Lemma channel_unit (s : R) :
  0 <= s <= 1 -> (0 <= JS.toInt32 (JS.Fin (s * 255)) <= 255)%Z.
Proof.
  intros H. rewrite toInt32_nonneg by lra.
  pose proof (Zfloor_bound (s * 255)) as [Fl Fu].
  split.
  - apply (Zfloor_lub 0). lra.
  - apply le_IZR. lra.
Qed.

Lemma fromLRGB_in_gamut (a b c : R) (st : flags) :
  0 <= a <= 1 -> 0 <= b <= 1 -> 0 <= c <= 1 ->
  RGB_isSaturated (snd (RGB.fromLRGB (JS.Fin a, JS.Fin b, JS.Fin c) st)) = false.
Proof.
  intros Ha Hb Hc.
  destruct (invFunc_unit a Ha) as (sa & Ea & Ba).
  destruct (invFunc_unit b Hb) as (sb & Eb & Bb).
  destruct (invFunc_unit c Hc) as (sc & Ec & Bc).
  unfold RGB.fromLRGB, RGB.fromLRGB_raw, RGB._checkRange.
  rewrite Ea, Eb, Ec. cbn [JS.mul].
  rewrite !clamp_cell_inside by now apply channel_unit.
  reflexivity.
Qed.

(** X11: [RGB.fromLRGB] answers three integers between 0 and 255 for every
    input, components that are NaN or infinite included. *)
Theorem RGB_fromLRGB_range (v : triple) (st : flags) :
  let '(r, g, b) := fst (RGB.fromLRGB v st) in
  (0 <= r <= 255 /\ 0 <= g <= 255 /\ 0 <= b <= 255)%Z.
Proof.
  unfold RGB.fromLRGB.
  pose proof (checkRange_spec (RGB.fromLRGB_raw v)) as H.
  destruct (RGB._checkRange (RGB.fromLRGB_raw v) 0 255) as [d s].
  destruct H as [_ H]. exact H.
Qed.

(** X12: Linear RGB components between 0 and 1 are never clamped, so
    [RGB.isSaturated] is left false; in particular converting an sRGB
    colour with channels between 0 and 255 to Linear RGB and back never
    reports saturation. *)
Theorem RGB_in_gamut_not_saturated (a b c : R) (st : flags) :
  0 <= a <= 1 -> 0 <= b <= 1 -> 0 <= c <= 1 ->
  RGB_isSaturated (snd (RGB.fromLRGB (JS.Fin a, JS.Fin b, JS.Fin c) st)) = false
  /\ RGB_isSaturated
       (snd (RGB.fromLRGB
               (RGB.toLRGB (JS.Fin (a * 255), JS.Fin (b * 255), JS.Fin (c * 255)))
               st)) = false.
Proof.
  intros Ha Hb Hc. split; [now apply fromLRGB_in_gamut |].
  unfold RGB.toLRGB. rewrite !div_fin by lra. rewrite !RGB_func_spec.
  apply fromLRGB_in_gamut; apply func_unit.
  - replace (a * 255 / 255) with a by field. exact Ha.
  - replace (b * 255 / 255) with b by field. exact Hb.
  - replace (c * 255 / 255) with c by field. exact Hc.
Qed.

Lemma RGB_in_gamut_not_saturated_witness :
  RGB_isSaturated
    (snd (RGB.fromLRGB (JS.Fin (1 / 2), JS.Fin 0, JS.Fin 1) flags0)) = false.
Proof.
  apply (RGB_in_gamut_not_saturated (1 / 2) 0 1 flags0); lra.
Defined.

(** *** Colour integers *)

Lemma lor_high_mask (x : Z) :
  (Z.lor x (- 2 ^ 24) = x mod 2 ^ 24 - 2 ^ 24)%Z.
Proof.
  assert (E : (- 2 ^ 24 = Z.lnot (Z.ones 24))%Z) by reflexivity.
  assert (D : Z.land (x mod 2 ^ 24) (- 2 ^ 24) = 0%Z).
  { rewrite E, <- Z.land_ones by lia.
    apply Z.bits_inj'. intros n Hn.
    rewrite !Z.land_spec, Z.lnot_spec, Z.bits_0 by lia.
    destruct (Z.testbit (Z.ones 24) n); destruct (Z.testbit x n); reflexivity. }
  replace (x mod 2 ^ 24 - 2 ^ 24)%Z with (x mod 2 ^ 24 + - 2 ^ 24)%Z by lia.
  rewrite (Z.add_nocarry_lxor _ _ D), (Z.lxor_lor _ _ D).
  rewrite E, <- Z.land_ones by lia.
  apply Z.bits_inj'. intros n Hn.
  rewrite !Z.lor_spec, Z.land_spec, Z.lnot_spec by lia.
  destruct (Z.testbit (Z.ones 24) n); destruct (Z.testbit x n); reflexivity.
Qed.

Lemma alpha_mask : JS.toInt32 (JS.Fin 4278190080) = (- 2 ^ 24)%Z.
Proof.
  unfold JS.toInt32, JS.trunc. rewrite Rltb_false by lra.
  rewrite ZfloorZ. reflexivity.
Qed.

Lemma land_255_bound (y : Z) : (0 <= Z.land y 255 < 256)%Z.
Proof.
  change 255%Z with (Z.ones 8). rewrite Z.land_ones by lia.
  apply Z.mod_pos_bound. lia.
Qed.

Lemma toColorInteger_bounds (rgb : triple) :
  (- 2 ^ 24 <= RGB.toColorInteger rgb <= - 1)%Z.
Proof.
  destruct rgb as [[r g] b]. unfold RGB.toColorInteger.
  rewrite alpha_mask, lor_high_mask.
  match goal with |- context [(?x mod 2 ^ 24)%Z] =>
    generalize (Z.mod_pos_bound x (2 ^ 24)%Z ltac:(lia));
    generalize (x mod 2 ^ 24)%Z end.
  intros m Hm. lia.
Qed.

Lemma small_bits (a n : Z) :
  (0 <= a <= 255)%Z -> (8 <= n)%Z -> Z.testbit a n = false.
Proof.
  intros Ha Hn. rewrite <- (Z.mod_small a (2 ^ 8)) by lia.
  rewrite <- Z.land_ones, Z.land_spec, Z.ones_spec_high by lia.
  apply andb_false_r.
Qed.

Lemma mask_bits (n : Z) :
  (0 <= n)%Z -> Z.testbit (- 2 ^ 24) n = (24 <=? n)%Z.
Proof.
  intros Hn. change (- 2 ^ 24)%Z with (Z.lnot (Z.ones 24)).
  rewrite Z.lnot_spec by lia.
  destruct (Z.leb_spec 24 n).
  - now rewrite Z.ones_spec_high by lia.
  - now rewrite Z.ones_spec_low by lia.
Qed.

(** X13: [RGB.toColorInteger] always answers a negative 32-bit integer, between
    -2^24 and -1, because the alpha byte it sets includes the sign bit;
    [RGB.fromColorInteger] always answers three bytes, whatever number it
    is given; and packing the bytes it answers gives the number back with
    the alpha byte set. *)
Theorem RGB_toColorInteger_opaque (rgb : triple) (v : JS.num) :
  (- 2 ^ 24 <= RGB.toColorInteger rgb <= - 1)%Z
  /\ (let '(r, g, b) := RGB.fromColorInteger v in
      0 <= r <= 255 /\ 0 <= g <= 255 /\ 0 <= b <= 255)%Z
  /\ RGB.toColorInteger
       (let '(r, g, b) := RGB.fromColorInteger v in
        (JS.Fin (IZR r), JS.Fin (IZR g), JS.Fin (IZR b)))
     = Z.lor (JS.toInt32 v) (- 2 ^ 24).
Proof.
  split; [| split].
  - apply toColorInteger_bounds.
  - unfold RGB.fromColorInteger.
    pose proof (land_255_bound (Z.shiftr (JS.toInt32 v) 16)).
    pose proof (land_255_bound (Z.shiftr (JS.toInt32 v) 8)).
    pose proof (land_255_bound (JS.toInt32 v)).
    lia.
  - unfold RGB.fromColorInteger, RGB.toColorInteger.
    set (x := JS.toInt32 v).
    rewrite alpha_mask.
    pose proof land_255_bound as B.
    rewrite !toInt32_IZR by (pose proof (B (Z.shiftr x 16)); pose proof (B (Z.shiftr x 8)); pose proof (B x); lia).
    unfold RGB.shl32.
    rewrite !wrap32_small.
    2:{ rewrite Z.shiftl_mul_pow2 by lia. pose proof (B (Z.shiftr x 8)). lia. }
    2:{ rewrite Z.shiftl_mul_pow2 by lia. pose proof (B (Z.shiftr x 16)). lia. }
    apply Z.bits_inj'. intros n Hn.
    rewrite !Z.lor_spec.
    destruct (Z.lt_ge_cases n 24) as [L | L].
    + assert (M : Z.testbit (- 2 ^ 24) n = false).
      { change (- 2 ^ 24)%Z with (Z.lnot (Z.ones 24)).
        rewrite Z.lnot_spec, Z.ones_spec_low by lia. reflexivity. }
      rewrite M, !orb_false_r.
      destruct (Z.lt_ge_cases n 8) as [L8 | L8].
      * rewrite !Z.shiftl_spec_low by lia. rewrite Z.land_spec.
        change 255%Z with (Z.ones 8). rewrite Z.ones_spec_low by lia.
        now rewrite andb_true_r.
      * destruct (Z.lt_ge_cases n 16) as [L16 | L16].
        -- rewrite Z.shiftl_spec_low by lia.
           rewrite Z.shiftl_spec, !Z.land_spec, Z.shiftr_spec by lia.
           change 255%Z with (Z.ones 8).
           rewrite Z.ones_spec_low, (Z.ones_spec_high 8 n) by lia.
           rewrite andb_true_r, andb_false_r, orb_false_r. cbn [orb].
           f_equal. lia.
        -- rewrite !Z.shiftl_spec, !Z.land_spec, !Z.shiftr_spec by lia.
           change 255%Z with (Z.ones 8).
           rewrite Z.ones_spec_low, !Z.ones_spec_high by lia.
           rewrite andb_true_r, !andb_false_r, !orb_false_r.
           f_equal. lia.
    + assert (M : Z.testbit (- 2 ^ 24) n = true).
      { change (- 2 ^ 24)%Z with (Z.lnot (Z.ones 24)).
        rewrite Z.lnot_spec, Z.ones_spec_high by lia. reflexivity. }
      rewrite M, !orb_true_r. reflexivity.
Qed.

(** X14: Unpacking a packed colour gives back the three channels when each is
    an integer between 0 and 255. *)
Theorem RGB_colorInteger_roundtrip (r g b : Z) :
  (0 <= r <= 255)%Z -> (0 <= g <= 255)%Z -> (0 <= b <= 255)%Z ->
  RGB.fromColorInteger
    (JS.Fin (IZR (RGB.toColorInteger
                    (JS.Fin (IZR r), JS.Fin (IZR g), JS.Fin (IZR b)))))
  = (r, g, b).
Proof.
  intros Hr Hg Hb. unfold RGB.fromColorInteger.
  pose proof (toColorInteger_bounds
                (JS.Fin (IZR r), JS.Fin (IZR g), JS.Fin (IZR b))) as HC.
  rewrite toInt32_IZR by lia. clear HC.
  unfold RGB.toColorInteger. rewrite alpha_mask, !toInt32_IZR by lia.
  unfold RGB.shl32.
  rewrite !wrap32_small by (rewrite Z.shiftl_mul_pow2 by lia; lia).
  assert (T : forall n, (0 <= n)%Z ->
            Z.testbit (Z.lor (Z.lor (Z.lor (Z.shiftl r 16) (Z.shiftl g 8)) b)
                             (- 2 ^ 24)) n
            = if (n <? 8)%Z then Z.testbit b n
              else if (n <? 16)%Z then Z.testbit g (n - 8)
              else if (n <? 24)%Z then Z.testbit r (n - 16) else true).
  { intros n Hn. rewrite !Z.lor_spec, mask_bits by lia.
    destruct (Z.ltb_spec n 8).
    - rewrite !Z.shiftl_spec_low by lia.
      destruct (Z.leb_spec 24 n); [lia |]. now rewrite orb_false_r.
    - rewrite (small_bits b n) by lia.
      destruct (Z.ltb_spec n 16).
      + rewrite Z.shiftl_spec_low, Z.shiftl_spec by lia.
        destruct (Z.leb_spec 24 n); [lia |]. now rewrite !orb_false_r.
      + rewrite !Z.shiftl_spec by lia.
        rewrite (small_bits g (n - 8)) by lia.
        destruct (Z.ltb_spec n 24).
        * destruct (Z.leb_spec 24 n); [lia |]. now rewrite !orb_false_r.
        * destruct (Z.leb_spec 24 n); [| lia]. now rewrite orb_true_r. }
  assert (E : forall c s, (0 <= c <= 255)%Z -> (0 <= s)%Z ->
            (forall n, (0 <= n < 8)%Z ->
               Z.testbit (Z.lor (Z.lor (Z.lor (Z.shiftl r 16) (Z.shiftl g 8)) b)
                                (- 2 ^ 24)) (n + s) = Z.testbit c n) ->
            Z.land (Z.shiftr (Z.lor (Z.lor (Z.lor (Z.shiftl r 16) (Z.shiftl g 8)) b)
                                    (- 2 ^ 24)) s) 255 = c).
  { intros c s Hc Hs H. apply Z.bits_inj'. intros n Hn.
    rewrite Z.land_spec, Z.shiftr_spec by lia.
    change 255%Z with (Z.ones 8).
    destruct (Z.lt_ge_cases n 8).
    - rewrite Z.ones_spec_low, andb_true_r by lia. apply H. lia.
    - rewrite Z.ones_spec_high, andb_false_r by lia.
      symmetry. apply small_bits; lia. }
  rewrite (E r 16%Z), (E g 8%Z) by
    (try lia; intros n Hn; rewrite T by lia;
     repeat match goal with |- context [(?a <? ?b)%Z] =>
              destruct (Z.ltb_spec a b); try lia end;
     f_equal; lia).
  f_equal.
  rewrite <- (Z.shiftr_0_r (Z.lor _ _)).
  apply E; [lia | lia |].
  intros n Hn. rewrite T by lia.
  repeat match goal with |- context [(?a <? ?b)%Z] =>
           destruct (Z.ltb_spec a b); try lia end.
  f_equal. lia.
Qed.

Lemma RGB_colorInteger_roundtrip_witness :
  RGB.fromColorInteger
    (JS.Fin (IZR (RGB.toColorInteger
                    (JS.Fin (IZR 18), JS.Fin (IZR 52), JS.Fin (IZR 86)))))
  = (18, 52, 86)%Z.
Proof.
  apply (RGB_colorInteger_roundtrip 18 52 86); lia.
Defined.

(** ** Munsell: the value from the luminance *)

Lemma y2v_loop_more_fuel (y v w : JS.num) (n : nat) :
  Munsell._y2v_loop n y v = Some w ->
  forall m : nat, (n <= m)%nat -> Munsell._y2v_loop m y v = Some w.
Proof.
  revert v. induction n as [| n IH]; intros v H m Hm; [discriminate |].
  destruct m as [| m]; [lia |].
  cbn [Munsell._y2v_loop] in *.
  destruct (JS.lt _ _); [exact H |].
  apply IH; [exact H | lia].
Qed.

(** The cubic of [_v2y], times 100. *)
Lemma v2y_cubic (v : R) :
  1 < v ->
  v2y_R v * 100
  = 0.0467 * (v * v * v) + 0.5602 * (v * v) - 0.1753 * v + 0.8007.
Proof.
  intros H. unfold v2y_R. destruct (Rle_dec v 1); lra.
Qed.

Lemma y2v_fp_pos (v : R) : 1 <= v -> 1 < y2v_fp v.
Proof. intros H. unfold y2v_fp. nra. Qed.

(** One Newton step from [v > 1]: the next iterate is still above 1, and
    the cubic is not below the target there, because the cubic is convex. *)
Lemma y2v_newton_step (y v : R) :
  0.012323 <= y -> 1 < v ->
  let v1 := - (v2y_R v * 100 - y * 100) / y2v_fp v + v in
  1 < v1 /\ y * 100 <= v2y_R v1 * 100.
Proof.
  intros Hy Hv v1.
  pose proof (y2v_fp_pos v ltac:(lra)) as Hfp.
  set (e := - (v2y_R v * 100 - y * 100) / y2v_fp v).
  assert (He : e * y2v_fp v = - (v2y_R v * 100 - y * 100)).
  { unfold e, Rdiv. rewrite Rmult_assoc, Rinv_l by lra. lra. }
  assert (Hv1 : v1 = v + e) by (unfold v1, e; lra).
  clearbody e v1. subst v1.
  rewrite v2y_cubic in He by exact Hv. unfold y2v_fp in He, Hfp.
  assert (H1 : 1 < v + e).
  { assert (0 < (v + e - 1) * (3 * 0.0467 * (v * v) + 2 * 0.5602 * v - 0.1753)).
    { replace ((v + e - 1) * (3 * 0.0467 * (v * v) + 2 * 0.5602 * v - 0.1753))
        with ((v - 1) * (v - 1) * (0.0467 * (1 + 2 * v) + 0.5602)
              + (y * 100 - 1.2323)) by lra.
      assert (0 < (v - 1) * (v - 1) * (0.0467 * (1 + 2 * v) + 0.5602)).
      { apply Rmult_lt_0_compat; [apply Rmult_lt_0_compat; lra | lra]. }
      lra. }
    destruct (Rlt_dec 1 (v + e)) as [G | G]; [exact G | exfalso].
    assert ((v + e - 1) * (3 * 0.0467 * (v * v) + 2 * 0.5602 * v - 0.1753) <= 0).
    { rewrite <- (Rmult_0_l (3 * 0.0467 * (v * v) + 2 * 0.5602 * v - 0.1753)).
      apply Rmult_le_compat_r; lra. }
    lra. }
  split; [exact H1 |].
  rewrite v2y_cubic by exact H1.
  assert (0 <= e * e * (0.0467 * (v + e + 2 * v) + 0.5602)).
  { apply Rmult_le_pos; [| lra].
    replace (e * e) with (Rsqr e) by reflexivity. apply Rle_0_sqr. }
  lra.
Qed.

Lemma y2v_loop_converges (y : R) :
  0.012323 <= y ->
  forall (fuel : nat) (v : R),
    1 < v -> y * 100 <= v2y_R v * 100 -> v - 1 < 0.01 * INR fuel ->
    exists w : R,
      Munsell._y2v_loop fuel (JS.Fin y) (JS.Fin v) = Some (JS.Fin w)
      /\ 1 < w <= v
      /\ 0 <= v2y_R w * 100 - y * 100 < 0.01 * y2v_fp w.
Proof.
  intros Hy. induction fuel as [| n IH]; intros v Hv Hg Hn.
  - simpl in Hn. lra.
  - pose proof (y2v_fp_pos v ltac:(lra)) as Hfp.
    pose proof (y2v_newton_step y v Hy Hv) as [H1 Hg1].
    rewrite y2v_loop_step by lra. cbv zeta.
    set (v1 := - (v2y_R v * 100 - y * 100) / y2v_fp v + v) in *.
    assert (Hd : (v - v1) * y2v_fp v = v2y_R v * 100 - y * 100).
    { unfold v1, Rdiv. rewrite Rmult_minus_distr_r, Rmult_plus_distr_r.
      rewrite Rmult_assoc, Rinv_l by lra. lra. }
    assert (Hle : v1 <= v).
    { destruct (Rle_dec v1 v) as [G | G]; [exact G | exfalso].
      assert ((v - v1) * y2v_fp v < 0 * y2v_fp v)
        by (apply Rmult_lt_compat_r; lra).
      lra. }
    unfold JS.Rltb. destruct (Rlt_dec (Rabs (v1 - v)) 0.01) as [B | B].
    + exists v. split; [reflexivity |]. split; [lra |].
      rewrite Rabs_left1 in B by lra.
      split; [lra |]. rewrite <- Hd.
      apply Rmult_lt_compat_r; lra.
    + rewrite Rabs_left1 in B by lra.
      destruct (IH v1) as (w & E & Bw & Rw); try assumption.
      * rewrite S_INR in Hn. lra.
      * exists w. split; [exact E |]. split; [lra | exact Rw].
Qed.

(** X15: outside the band between 0.0121 and 0.012323 and up to the
    luminance of value 10, [Munsell._y2v] returns within 901 iterations
    of its loop.  Up to 0.0121 the result is the exact inverse of
    [_v2y]; from 0.012323 on it is a value between 1 and 10 whose
    luminance is at least Y and exceeds it by less than 0.0001 times the
    derivative the loop uses at that value. *)
Theorem Munsell_y2v_converges (y : R) :
  y <= 0.0121 \/ 0.012323 <= y <= 1.017677 ->
  exists w : R,
    (forall fuel : nat, (901 <= fuel)%nat ->
       Munsell._y2v fuel (JS.Fin y) = Some (JS.Fin w))
    /\ ((y <= 0.0121 /\ w = y / 0.0121 /\ v2y_R w = y)
        \/ (1 < w <= 10 /\ 0 <= v2y_R w - y < 0.0001 * y2v_fp w)).
Proof.
  intros [Hy | Hy].
  - exists (y / 0.0121). split.
    + intros fuel _. unfold Munsell._y2v. cbn [JS.le].
      rewrite Rleb_true by exact Hy. now rewrite div_fin by lra.
    + left. split; [exact Hy |]. split; [reflexivity |].
      unfold v2y_R. destruct (Rle_dec (y / 0.0121) 1) as [G | G].
      * unfold Rdiv. rewrite Rmult_assoc, Rinv_l by lra. lra.
      * exfalso. apply G. apply Rmult_le_reg_r with 0.0121; [lra |].
        unfold Rdiv. rewrite Rmult_assoc, Rinv_l by lra. lra.
  - destruct (y2v_loop_converges y (proj1 Hy) 901 10) as (w & E & Bw & Rw).
    + lra.
    + rewrite v2y_cubic by lra. lra.
    + replace (INR 901) with 901 by (rewrite INR_IZR_INZ; reflexivity). lra.
    + exists w. split.
      * intros fuel Hf. unfold Munsell._y2v. cbn [JS.le].
        rewrite Rleb_false by lra.
        now apply (y2v_loop_more_fuel _ _ _ 901).
      * right. split; [exact Bw | lra].
Qed.

Lemma Munsell_y2v_converges_witness :
  exists w : R,
    (forall fuel : nat, (901 <= fuel)%nat ->
       Munsell._y2v fuel (JS.Fin 0.5) = Some (JS.Fin w))
    /\ ((0.5 <= 0.0121 /\ w = 0.5 / 0.0121 /\ v2y_R w = 0.5)
        \/ (1 < w <= 10 /\ 0 <= v2y_R w - 0.5 < 0.0001 * y2v_fp w)).
Proof.
  apply (Munsell_y2v_converges 0.5). right. lra.
Defined.

Lemma cubic_increasing (v w : R) :
  1 <= v -> v < w ->
  0.0467 * (v * v * v) + 0.5602 * (v * v) - 0.1753 * v
  < 0.0467 * (w * w * w) + 0.5602 * (w * w) - 0.1753 * w.
Proof.
  intros Hv Hw.
  assert (P : 0 < (w - v) * (0.0467 * (w * w + w * v + v * v)
                             + 0.5602 * (w + v) - 0.1753)).
  { apply Rmult_lt_0_compat; [lra |].
    assert (0 <= w * w) by (apply Rmult_le_pos; lra).
    assert (0 <= w * v) by (apply Rmult_le_pos; lra).
    assert (0 <= v * v) by (apply Rmult_le_pos; lra).
    lra. }
  lra.
Qed.

(** X16: [Munsell._v2y] is strictly increasing, and it jumps at value 1:
    no value has a luminance above 0.0121 and up to 0.012323. *)
Theorem Munsell_v2y_increasing_with_gap (v w : R) :
  v < w ->
  exists a b : R,
    Munsell._v2y (JS.Fin v) = JS.Fin a /\ Munsell._v2y (JS.Fin w) = JS.Fin b
    /\ a < b /\ ~ (0.0121 < a <= 0.012323).
Proof.
  intros Hvw. exists (v2y_R v), (v2y_R w).
  split; [apply v2y_fin |]. split; [apply v2y_fin |].
  unfold v2y_R.
  destruct (Rle_dec v 1) as [Hv | Hv], (Rle_dec w 1) as [Hw | Hw].
  - split; lra.
  - pose proof (cubic_increasing 1 w ltac:(lra) ltac:(lra)). split; lra.
  - lra.
  - pose proof (cubic_increasing v w ltac:(lra) Hvw).
    pose proof (cubic_increasing 1 v ltac:(lra) ltac:(lra)).
    split; lra.
Qed.

Lemma Munsell_v2y_increasing_with_gap_witness :
  exists a b : R,
    Munsell._v2y (JS.Fin 1) = JS.Fin a /\ Munsell._v2y (JS.Fin 2) = JS.Fin b
    /\ a < b /\ ~ (0.0121 < a <= 0.012323).
Proof.
  apply (Munsell_v2y_increasing_with_gap 1 2). lra.
Defined.

(** ** Munsell: cells of the table *)

Lemma isInside_fin (a0 a1 b0 b1 c0 c1 x y : R) :
  Munsell._isInside (a0, a1) (b0, b1) (c0, c1) (JS.Fin x) (JS.Fin y) = true
  <-> 0 <= (x - a0) * (b1 - a1) - (y - a1) * (b0 - a0)
      /\ 0 <= (x - b0) * (c1 - b1) - (y - b1) * (c0 - b0)
      /\ 0 <= (x - c0) * (a1 - c1) - (y - c1) * (a0 - c0).
Proof.
  unfold Munsell._isInside, Munsell._cross.
  cbn [JS.sub JS.neg JS.add JS.mul JS.lt]. unfold JS.Rltb.
  repeat match goal with
         | |- context [Rlt_dec ?p ?q] => destruct (Rlt_dec p q)
         end;
    split; intros H; try discriminate; try reflexivity; lra.
Qed.

(** X17: for a clockwise triangle abc, [Munsell._isInside] answers true
    exactly for the points of the closed triangle (the convex
    combinations of its corners); for a counter-clockwise triangle it
    answers false for every point; and it answers true for a point whose
    coordinates are NaN. *)
Theorem Munsell_isInside_triangle (a0 a1 b0 b1 c0 c1 x y : R) :
  let D := (b0 - a0) * (c1 - a1) - (b1 - a1) * (c0 - a0) in
  (D < 0 ->
   (Munsell._isInside (a0, a1) (b0, b1) (c0, c1) (JS.Fin x) (JS.Fin y) = true
    <-> exists s t u : R,
          0 <= s /\ 0 <= t /\ 0 <= u /\ s + t + u = 1
          /\ x = s * a0 + t * b0 + u * c0
          /\ y = s * a1 + t * b1 + u * c1))
  /\ (0 < D ->
      Munsell._isInside (a0, a1) (b0, b1) (c0, c1) (JS.Fin x) (JS.Fin y) = false)
  /\ Munsell._isInside (a0, a1) (b0, b1) (c0, c1) JS.NaN JS.NaN = true.
Proof.
  intros D. split; [| split].
  - intros HD. rewrite isInside_fin. split.
    + intros (H1 & H2 & H3).
      exists (((x - b0) * (c1 - b1) - (y - b1) * (c0 - b0)) / - D),
             (((x - c0) * (a1 - c1) - (y - c1) * (a0 - c0)) / - D),
             (((x - a0) * (b1 - a1) - (y - a1) * (b0 - a0)) / - D).
      assert (HD' : 0 < / - D) by (apply Rinv_0_lt_compat; lra).
      repeat split.
      * apply Rmult_le_pos; lra.
      * apply Rmult_le_pos; lra.
      * apply Rmult_le_pos; lra.
      * unfold D. field. fold D. lra.
      * unfold D. field. fold D. lra.
      * unfold D. field. fold D. lra.
    + intros (s & t & u & Hs & Ht & Hu & E & -> & ->).
      assert (s = 1 - t - u) by lra. subst s.
      assert (Ht' : 0 <= t * - D) by (apply Rmult_le_pos; lra).
      assert (Hu' : 0 <= u * - D) by (apply Rmult_le_pos; lra).
      assert (Hs' : 0 <= (1 - t - u) * - D) by (apply Rmult_le_pos; lra).
      unfold D in Ht', Hu', Hs'.
      repeat split; lra.
  - intros HD.
    destruct (Munsell._isInside (a0, a1) (b0, b1) (c0, c1) (JS.Fin x) (JS.Fin y))
      eqn:E; [| reflexivity].
    apply isInside_fin in E. destruct E as (H1 & H2 & H3).
    unfold D in HD. exfalso. lra.
  - reflexivity.
Qed.

Lemma Munsell_isInside_triangle_witness :
  Munsell._isInside (0, 0) (0, 1) (1, 0) (JS.Fin (1 / 4)) (JS.Fin (1 / 4)) = true
  <-> exists s t u : R,
        0 <= s /\ 0 <= t /\ 0 <= u /\ s + t + u = 1
        /\ 1 / 4 = s * 0 + t * 0 + u * 1
        /\ 1 / 4 = s * 0 + t * 1 + u * 0.
Proof.
  apply (proj1 (Munsell_isInside_triangle 0 0 0 1 1 0 (1 / 4) (1 / 4))). lra.
Defined.

Lemma eq0_false (a : R) : Munsell._eq0 a = false -> a <> 0.
Proof.
  unfold Munsell._eq0, JS.Rltb, Munsell._EP.
  destruct (Rlt_dec _ _) as [H | H]; [discriminate |].
  intros _ E. subst a. rewrite Rabs_R0 in H. lra.
Qed.

Lemma eq0_true_exact (a : R) :
  a = 0 \/ Munsell._EP <= Rabs a -> Munsell._eq0 a = true -> a = 0.
Proof.
  intros [H | H] E; [exact H |].
  unfold Munsell._eq0, JS.Rltb in E.
  destruct (Rlt_dec _ _) as [G | G]; [lra | discriminate].
Qed.

Lemma unit_test (t : R) :
  JS.Rleb 0 t && JS.Rleb t 1 = true -> 0 <= t <= 1.
Proof.
  unfold JS.Rleb. destruct (Rle_dec 0 t), (Rle_dec t 1); cbn; intros H;
    try discriminate; lra.
Qed.

Lemma quadratic_root (ea eb ec rt w : R) :
  ea <> 0 -> rt * rt = eb * eb - 4 * ea * ec ->
  w = (- eb + rt) / (2 * ea) \/ w = (- eb - rt) / (2 * ea) ->
  ea * w * w + eb * w + ec = 0.
Proof.
  intros Ha Hrt Hw.
  assert (E : (2 * ea * w + eb) * (2 * ea * w + eb) = eb * eb - 4 * ea * ec).
  { destruct Hw as [-> | ->].
    - replace (2 * ea * ((- eb + rt) / (2 * ea)) + eb) with rt by (field; exact Ha).
      exact Hrt.
    - replace (2 * ea * ((- eb - rt) / (2 * ea)) + eb) with (- rt) by (field; exact Ha).
      lra. }
  assert (F : 4 * ea * (ea * w * w + eb * w + ec) = 0) by lra.
  apply Rmult_integral in F. destruct F as [F | F]; [lra | exact F].
Qed.

(** X18: when the leading coefficient of the quadratic of
    [Munsell._interpolationRatio] is exactly zero or not negligible, a
    result [[h, v]] is a solution: the point of the cell at these ratios
    is (x, y), with [h] between 0 and 1 and [v] non-negative, and at most
    1 when the quadratic formula was used. *)
Theorem Munsell_interpolationRatio_sound
    (x y a0 a1 d0 d1 b0 b1 c0 c1 h v : R) :
  let ea := (a0 - d0) * (a1 + c1 - b1 - d1) - (a0 + c0 - b0 - d0) * (a1 - d1) in
  ea = 0 \/ Munsell._EP <= Rabs ea ->
  Munsell._interpolationRatio x y (a0, a1) (d0, d1) (b0, b1) (c0, c1)
  = Some (h, v) ->
  0 <= h <= 1 /\ 0 <= v /\ (ea <> 0 -> v <= 1)
  /\ bilinear (a0, a1) (d0, d1) (b0, b1) (c0, c1) h v = (x, y).
Proof.
  intros ea Hex H. unfold Munsell._interpolationRatio in H. cbv zeta in H.
  fold ea in H.
  set (eb := (x - a0) * (a1 + c1 - b1 - d1) + (a0 - d0) * (b1 - a1)
             - (a0 + c0 - b0 - d0) * (y - a1) - (b0 - a0) * (a1 - d1)) in H.
  set (ec := (x - a0) * (b1 - a1) - (y - a1) * (b0 - a0)) in H.
  match type of H with
  | (if JS.Rltb ?vv 0 then _ else _) = _ => set (w := vv) in H
  end.
  assert (Hw : 0 <= w -> ea * w * w + eb * w + ec = 0 /\ (ea <> 0 -> w <= 1)).
  { unfold w. clear H w.
    destruct (Munsell._eq0 ea) eqn:Ea.
    - apply (eq0_true_exact _ Hex) in Ea.
      destruct (Munsell._eq0 eb) eqn:Eb; cbn [negb]; [intros G; exfalso; lra |].
      apply eq0_false in Eb. intros _. split; [| intros G; contradiction].
      rewrite Ea. replace (eb * (- ec / eb)) with (- ec) by (field; exact Eb). lra.
    - apply eq0_false in Ea.
      unfold JS.sqrt. unfold JS.Rltb.
      destruct (Rlt_dec (eb * eb - 4 * ea * ec) 0) as [Hd | Hd]; [lra |].
      assert (Hrt : sqrt (eb * eb - 4 * ea * ec) * sqrt (eb * eb - 4 * ea * ec)
                    = eb * eb - 4 * ea * ec) by (apply sqrt_sqrt; lra).
      set (rt := sqrt (eb * eb - 4 * ea * ec)) in *.
      destruct (JS.Reqb a0 b0 && JS.Reqb a1 b1).
      + destruct (JS.Rleb 0 _ && JS.Rleb _ 1) eqn:T; [| intros G; exfalso; lra].
        apply unit_test in T. intros _. split; [| lra].
        apply (quadratic_root ea eb ec rt); auto.
      + destruct (JS.Rleb 0 ((- eb + rt) / (2 * ea))
                  && JS.Rleb ((- eb + rt) / (2 * ea)) 1) eqn:T1.
        * apply unit_test in T1. intros _. split; [| lra].
          apply (quadratic_root ea eb ec rt); auto.
        * destruct (JS.Rleb 0 ((- eb - rt) / (2 * ea))
                    && JS.Rleb ((- eb - rt) / (2 * ea)) 1) eqn:T2;
            [| intros G; exfalso; lra].
          apply unit_test in T2. intros _. split; [| lra].
          apply (quadratic_root ea eb ec rt); auto. }
  clearbody w.
  unfold JS.Rltb in H. destruct (Rlt_dec w 0) as [Hn | Hn]; [discriminate |].
  destruct (Hw ltac:(lra)) as [Q Hv1]. clear Hw.
  set (deX := (a0 - d0 - b0 + c0) * w - a0 + b0) in H.
  set (deY := (a1 - d1 - b1 + c1) * w - a1 + b1) in H.
  assert (Col : ((a0 - d0) * w + x - a0) * deY = ((a1 - d1) * w + y - a1) * deX).
  { unfold deX, deY, ea, eb, ec in *. lra. }
  destruct (JS.Rleb 0 _ && JS.Rleb _ 1) eqn:T1 in H.
  - apply unit_test in T1.
    destruct (Munsell._eq0 deX) eqn:Ex; cbn [negb] in *; [lra |].
    apply eq0_false in Ex.
    destruct (Rlt_dec _ 0); [discriminate |]. injection H as <- <-.
    split; [exact T1 |]. split; [lra |]. split; [exact Hv1 |].
    unfold bilinear. cbn [fst snd].
    set (hh := ((a0 - d0) * w + x - a0) / deX) in *.
    assert (Hh : hh * deX = (a0 - d0) * w + x - a0)
      by (unfold hh; field; exact Ex).
    assert (Hy : hh * deY = (a1 - d1) * w + y - a1).
    { apply Rmult_eq_reg_r with deX; [| exact Ex].
      rewrite <- Col, <- Hh. ring. }
    unfold deX in Hh. unfold deY in Hy. f_equal; lra.
  - destruct (JS.Rleb 0 _ && JS.Rleb _ 1) eqn:T2 in H.
    + apply unit_test in T2.
      destruct (Munsell._eq0 deY) eqn:Ey; cbn [negb] in *; [lra |].
      apply eq0_false in Ey.
      destruct (Rlt_dec _ 0); [discriminate |]. injection H as <- <-.
      split; [exact T2 |]. split; [lra |]. split; [exact Hv1 |].
      unfold bilinear. cbn [fst snd].
      set (hh := ((a1 - d1) * w + y - a1) / deY) in *.
      assert (Hh : hh * deY = (a1 - d1) * w + y - a1)
        by (unfold hh; field; exact Ey).
      assert (Hx : hh * deX = (a0 - d0) * w + x - a0).
      { apply Rmult_eq_reg_r with deY; [| exact Ey].
        rewrite Col, <- Hh. ring. }
      unfold deX in Hx. unfold deY in Hh. f_equal; lra.
    + destruct (Rlt_dec (-1) 0); [discriminate | lra].
Qed.

Lemma eq0_at_zero (e : R) : e = 0 -> Munsell._eq0 e = true.
Proof.
  intros ->. unfold Munsell._eq0, Munsell._EP. rewrite Rabs_R0.
  apply Rltb_true. lra.
Qed.

Lemma eq0_away (e : R) : 1 / 2 <= e \/ e <= - (1 / 2) -> Munsell._eq0 e = false.
Proof.
  intros H. unfold Munsell._eq0, Munsell._EP. apply Rltb_false.
  unfold Rabs. destruct (Rcase_abs e); lra.
Qed.

Lemma interpolationRatio_unit_square :
  Munsell._interpolationRatio (1 / 4) (1 / 2) (0, 0) (1, 0) (0, 1) (1, 1)
  = Some (1 / 2, 1 / 4).
Proof.
  unfold Munsell._interpolationRatio. cbv zeta.
  rewrite (eq0_at_zero ((0 - 1) * (0 + 1 - 1 - 0) - (0 + 1 - 0 - 1) * (0 - 0)))
    by lra.
  replace ((1 / 4 - 0) * (0 + 1 - 1 - 0) + (0 - 1) * (1 - 0)
           - (0 + 1 - 0 - 1) * (1 / 2 - 0) - (0 - 0) * (0 - 0)) with (- 1) by lra.
  rewrite (eq0_away (- 1)) by lra. cbn [negb].
  replace (- ((1 / 4 - 0) * (1 - 0) - (1 / 2 - 0) * (0 - 0)) / - 1)
    with (1 / 4) by lra.
  rewrite (Rltb_false (1 / 4) 0) by lra.
  rewrite (eq0_at_zero ((0 - 1 - 0 + 1) * (1 / 4) - 0 + 0)) by lra.
  replace ((0 - 0 - 1 + 1) * (1 / 4) - 0 + 1) with 1 by lra.
  rewrite (eq0_away 1) by lra. cbn [negb].
  rewrite (Rleb_false 0 (- 1)) by lra. cbn [andb].
  replace (((0 - 0) * (1 / 4) + 1 / 2 - 0) / 1) with (1 / 2) by lra.
  rewrite (Rleb_true 0 (1 / 2)), (Rleb_true (1 / 2) 1) by lra. cbn [andb].
  rewrite (Rltb_false (1 / 2) 0) by lra. reflexivity.
Qed.

Lemma Munsell_interpolationRatio_sound_witness :
  0 <= 1 / 2 <= 1 /\ 0 <= 1 / 4
  /\ bilinear (0, 0) (1, 0) (0, 1) (1, 1) (1 / 2) (1 / 4) = (1 / 4, 1 / 2).
Proof.
  destruct (Munsell_interpolationRatio_sound
              (1 / 4) (1 / 2) 0 0 1 0 0 1 1 1 (1 / 2) (1 / 4))
    as (A & B & _ & C).
  - left. lra.
  - exact interpolationRatio_unit_square.
  - repeat split; [apply A | apply A | exact B | exact C].
Defined.

(** ** Munsell: [toXYZ] and the limits of the table *)

Lemma TBL_planes : List.length Munsell._TBL_SRC_MIN = 9%nat.
Proof. reflexivity. Qed.

Lemma hue_row_multiple (k : Z) :
  (0 <= k < 40)%Z -> Munsell.hue_row (k * 25) = Some k.
Proof.
  intros Hk. unfold Munsell.hue_row.
  rewrite Z.mod_mul, Z.div_mul by lia.
  destruct (Z.leb_spec 0 k); [| lia]. destruct (Z.ltb_spec k 40); [| lia].
  reflexivity.
Qed.

(** Every row of a plane of the table is filled from chroma 2 up to its
    greatest chroma, without a hole. *)
Lemma table_row_filled (vi : nat) (k : Z) :
  (vi < 9)%nat -> (0 <= k < 40)%Z ->
  exists n : Z,
    (0 <= n)%Z
    /\ Munsell._TBL_MAX_C vi (k * 25) = JS.Ok (Some (2 * n)%Z)
    /\ forall j : Z, (0 <= j <= n)%Z ->
         exists xy, Munsell._getXy vi (k * 25) (2 * j) = JS.Ok xy.
Proof.
  intros Hvi Hk. unfold Munsell._TBL_MAX_C, Munsell._getXy, Munsell._TBL.
  rewrite TBL_planes. destruct (Nat.leb_spec 9 vi); [lia |].
  rewrite hue_row_multiple by exact Hk.
  destruct (Munsell.src_row vi k) as [cs |].
  - exists (Z.of_nat (List.length (Munsell.decode_row cs))).
    split; [lia |]. split; [reflexivity |].
    intros j Hj. destruct (Z.eqb_spec (2 * j) 0) as [E | E]; [eauto |].
    cbn [bindR]. rewrite (Z.mul_comm 2 j), Z.mod_mul, Z.div_mul by lia.
    cbn [Z.eqb andb]. destruct (Z.leb_spec 1 j); [| lia].
    cbn [bindR].
    destruct (nth_error (Munsell.decode_row cs) (Z.to_nat (j - 1))) eqn:N.
    + eauto.
    + apply nth_error_None in N. lia.
  - exists 0%Z. split; [lia |]. split; [reflexivity |].
    intros j Hj. assert (j = 0)%Z by lia. subst j. cbn. eauto.
Qed.

Lemma edge_xy_defined (vi : nat) (k j n : Z) (rc : R) :
  (vi < 9)%nat -> (0 <= k < 40)%Z -> (0 <= j)%Z -> (0 <= n)%Z ->
  (forall i : Z, (0 <= i <= n)%Z ->
     exists xy, Munsell._getXy vi (k * 25) (2 * i) = JS.Ok xy) ->
  exists xy,
    Munsell.edge_xy vi (k * 25) (2 * j) (2 * j + 2) (Some (2 * n)%Z) rc
    = JS.Ok xy.
Proof.
  intros Hvi Hk Hj Hn G. unfold Munsell.edge_xy, Munsell.ltOpt.
  destruct (Z.ltb_spec (2 * j) (2 * n)).
  - destruct (G j ltac:(lia)) as [a Ea]. rewrite Ea. cbn [bindR].
    replace (2 * j + 2)%Z with (2 * (j + 1))%Z by lia.
    destruct (G (j + 1)%Z ltac:(lia)) as [d Ed]. rewrite Ed. cbn [bindR].
    eauto.
  - apply G. lia.
Qed.

Lemma interpolateXY_total (h c : R) (vi : nat) :
  0 <= h < 100 -> 0 <= c < 2147483648 -> (vi < 9)%nat ->
  exists r, Munsell._interpolateXY h c vi = JS.Ok r.
Proof.
  intros Hh Hc Hvi. unfold Munsell._interpolateXY. cbv zeta.
  set (k := Zfloor (h * 10 / 25)). set (j := Zfloor (c / 2)).
  assert (Hk : (0 <= k < 40)%Z).
  { unfold k. pose proof (Zfloor_bound (h * 10 / 25)) as [Fl Fu].
    split; [apply (Zfloor_lub 0); lra | apply lt_IZR; lra]. }
  assert (Hj : (0 <= j < 1073741824)%Z).
  { unfold j. pose proof (Zfloor_bound (c / 2)) as [Fl Fu].
    split; [apply (Zfloor_lub 0); lra | apply lt_IZR; lra]. }
  rewrite (toInt32_IZR (k * 25)) by lia.
  rewrite (toInt32_IZR (j * 2)) by lia.
  replace (j * 2)%Z with (2 * j)%Z by lia.
  set (k' := if (k * 25 + 25 =? 1000)%Z then 0%Z else (k + 1)%Z).
  assert (Hk' : (0 <= k' < 40)%Z).
  { unfold k'. destruct (Z.eqb_spec (k * 25 + 25) 1000); lia. }
  replace (if (k * 25 + 25 =? 1000)%Z then 0%Z else (k * 25 + 25)%Z)
    with (k' * 25)%Z
    by (unfold k'; destruct (Z.eqb_spec (k * 25 + 25) 1000); lia).
  destruct (table_row_filled vi k Hvi Hk) as (nl & Hnl & Ml & Gl).
  destruct (table_row_filled vi k' Hvi Hk') as (nu & Hnu & Mu & Gu).
  rewrite Ml, Mu. cbn [bindR Munsell.leOpt].
  destruct ((2 * nl <=? 2 * j)%Z || (2 * nu <=? 2 * j)%Z) eqn:Edge.
  - destruct (edge_xy_defined vi k j nl
                ((c - IZR (2 * j)) / (IZR (2 * j + 2) - IZR (2 * j)))
                Hvi Hk ltac:(lia) Hnl Gl) as [xl El].
    destruct (edge_xy_defined vi k' j nu
                ((c - IZR (2 * j)) / (IZR (2 * j + 2) - IZR (2 * j)))
                Hvi Hk' ltac:(lia) Hnu Gu) as [xu Eu].
    rewrite El, Eu. cbn [bindR]. eauto.
  - apply orb_false_iff in Edge. destruct Edge as [E1 E2].
    apply Z.leb_gt in E1, E2.
    replace (2 * j + 2)%Z with (2 * (j + 1))%Z by lia.
    destruct (Gl (j + 1)%Z ltac:(lia)) as [d Ed].
    destruct (Gu (j + 1)%Z ltac:(lia)) as [C EC].
    destruct (Gl j ltac:(lia)) as [a Ea].
    destruct (Gu j ltac:(lia)) as [b Eb].
    destruct (2 * j =? 0)%Z.
    + rewrite Ed, EC. cbn [bindR]. eauto.
    + rewrite Ea, Ed, Eb, EC. cbn [bindR]. eauto.
Qed.

Lemma scan_V_range (v : R) :
  JS.Rleb Munsell.last_V v = false ->
  (-1 <= Munsell.scan_V Munsell._TBL_V v (-1) < 8)%Z.
Proof.
  unfold Munsell.last_V, Munsell._TBL_V. cbn [last Munsell.scan_V].
  intros H9. unfold JS.Rleb in *.
  repeat match goal with
         | |- context [Rle_dec ?a ?b] => destruct (Rle_dec a b)
         end; try discriminate; cbn; lia.
Qed.

(** X19: [Munsell.toXYZ] returns a colour, without throwing, for every
    value, every hue below 200 and every chroma below 2^31: every read
    of the table it makes falls on a filled cell. *)
Theorem Munsell_toXYZ_total (h v c : R) (st : flags) :
  h < 200 -> c < 2147483648 ->
  exists r : triple * flags, Munsell.toXYZ (h, v, c) st = JS.Ok r.
Proof.
  intros Hh Hc. unfold Munsell.toXYZ.
  set (h' := if JS.Rleb Munsell._MAX_HUE h then h - Munsell._MAX_HUE else h).
  assert (Hh' : h' < 100).
  { unfold h', JS.Rleb, Munsell._MAX_HUE.
    destruct (Rle_dec 100 h); lra. }
  destruct (Munsell._eq0 v || JS.Rltb h' 0 || JS.Rltb c Munsell.MONO_LIMIT_C)
    eqn:A; [eauto |].
  apply orb_false_iff in A. destruct A as [A Ac].
  apply orb_false_iff in A. destruct A as [_ Ah].
  unfold JS.Rltb, Munsell.MONO_LIMIT_C in Ah, Ac.
  destruct (Rlt_dec h' 0) as [| Hh0]; [discriminate |].
  destruct (Rlt_dec c 0.05) as [| Hc0]; [discriminate |].
  assert (T : forall vi, (vi < 9)%nat ->
            exists r, Munsell._interpolateXY h' c vi = JS.Ok r)
    by (intros vi Hvi; apply interpolateXY_total; [lra | lra | exact Hvi]).
  destruct (JS.Rleb Munsell.last_V v) eqn:Top.
  - destruct (T (List.length Munsell._TBL_V - 1)%nat) as [[[x y] i] E];
      [cbn; lia |].
    rewrite E. cbn [bindR]. eauto.
  - pose proof (scan_V_range v Top) as Hs.
    set (vi_l := Munsell.scan_V Munsell._TBL_V v (-1)) in *.
    destruct (T (Z.to_nat (vi_l + 1))) as [[[xu yu] iu] Eu]; [lia |].
    rewrite Eu.
    destruct (vi_l =? -1)%Z.
    + cbn [bindR]. eauto.
    + destruct (T (Z.to_nat vi_l)) as [[[xl yl] il] El]; [lia |].
      rewrite El. cbn [bindR]. eauto.
Qed.

Lemma Munsell_toXYZ_total_witness :
  exists r : triple * flags, Munsell.toXYZ (150, 5, 30) flags0 = JS.Ok r.
Proof.
  apply (Munsell_toXYZ_total 150 5 30 flags0); lra.
Defined.

Lemma interpolateXY_hue_out_of_table (h c : R) (vi : nat) :
  100 <= h < 900 -> (vi < 9)%nat ->
  Munsell._interpolateXY h c vi = JS.TypeError.
Proof.
  intros Hh Hvi. unfold Munsell._interpolateXY. cbv zeta.
  set (k := Zfloor (h * 10 / 25)).
  assert (Hk : (40 <= k < 360)%Z).
  { unfold k. pose proof (Zfloor_bound (h * 10 / 25)) as [Fl Fu].
    split; [apply (Zfloor_lub 40); lra | apply lt_IZR; lra]. }
  rewrite (toInt32_IZR (k * 25)) by lia.
  generalize (JS.toInt32 (JS.Fin (IZR (Zfloor (c / 2) * 2)))). intros c_l.
  destruct (Z.eqb_spec (k * 25 + 25) 1000) as [E | _]; [lia |].
  assert (R1 : forall q, (40 <= q)%Z -> Munsell.hue_row (q * 25) = None).
  { intros q Hq. unfold Munsell.hue_row.
    rewrite Z.mod_mul, Z.div_mul by lia.
    destruct (Z.ltb_spec q 40); [lia |]. now rewrite andb_false_r. }
  assert (M : forall q, (40 <= q)%Z ->
            Munsell._TBL_MAX_C vi (q * 25) = JS.Ok None).
  { intros q Hq. unfold Munsell._TBL_MAX_C. rewrite TBL_planes.
    destruct (Nat.leb_spec 9 vi); [lia |]. now rewrite R1. }
  assert (G : forall q c', (40 <= q)%Z -> c' <> 0%Z ->
            Munsell._getXy vi (q * 25) c' = JS.TypeError).
  { intros q c' Hq Hc'. unfold Munsell._getXy, Munsell._TBL.
    destruct (Z.eqb_spec c' 0); [contradiction |].
    rewrite TBL_planes. destruct (Nat.leb_spec 9 vi); [lia |].
    now rewrite R1. }
  rewrite (M k) by lia.
  replace (k * 25 + 25)%Z with ((k + 1) * 25)%Z by lia.
  rewrite (M (k + 1)%Z) by lia. cbn [bindR Munsell.leOpt orb].
  destruct (Z.eqb_spec c_l 0) as [-> | Hne].
  - rewrite G by lia. reflexivity.
  - rewrite G by lia. reflexivity.
Qed.

(** X20: for a hue from 200 (up to 1000) [Munsell.toXYZ] throws a
    TypeError on a chromatic colour of non-zero value: one subtraction
    of 100 leaves the hue beyond the 40 rows of the table. *)
Theorem Munsell_toXYZ_hue_200_throws (h v c : R) (st : flags) :
  200 <= h < 1000 -> Munsell._EP <= Rabs v -> Munsell.MONO_LIMIT_C <= c ->
  Munsell.toXYZ (h, v, c) st = JS.TypeError.
Proof.
  intros Hh Hv Hc. unfold Munsell.toXYZ.
  rewrite Rleb_true by (unfold Munsell._MAX_HUE; lra).
  assert (Hh' : 100 <= h - Munsell._MAX_HUE < 900)
    by (unfold Munsell._MAX_HUE; lra).
  unfold Munsell._eq0 at 1. rewrite Rltb_false by exact Hv.
  rewrite (Rltb_false (h - Munsell._MAX_HUE) 0) by lra.
  rewrite (Rltb_false c _) by exact Hc. cbn [orb].
  destruct (JS.Rleb Munsell.last_V v) eqn:Top.
  - rewrite interpolateXY_hue_out_of_table by (try exact Hh'; cbn; lia).
    reflexivity.
  - pose proof (scan_V_range v Top) as Hs.
    set (vi_l := Munsell.scan_V Munsell._TBL_V v (-1)) in *.
    destruct (vi_l =? -1)%Z.
    + cbn [bindR].
      rewrite interpolateXY_hue_out_of_table by (try exact Hh'; lia).
      reflexivity.
    + rewrite interpolateXY_hue_out_of_table by (try exact Hh'; lia).
      reflexivity.
Qed.

Lemma Munsell_toXYZ_hue_200_throws_witness :
  Munsell.toXYZ (200, 5, 4) flags0 = JS.TypeError.
Proof.
  apply (Munsell_toXYZ_hue_200_throws 200 5 4 flags0).
  - lra.
  - unfold Munsell._EP. rewrite Rabs_right; lra.
  - unfold Munsell.MONO_LIMIT_C. lra.
Defined.

(** ** PCCS: the hue through Munsell and back *)

Ltac decide_comparisons :=
  repeat match goal with
         | |- context [JS.Rleb ?a ?b] =>
             first [rewrite (Rleb_true a b) by lra
                   | rewrite (Rleb_false a b) by lra]
         | |- context [JS.Rltb ?a ?b] =>
             first [rewrite (Rltb_true a b) by lra
                   | rewrite (Rltb_false a b) by lra]
         end.


Lemma calcPccsH_outside (H : R) :
  H < 0 \/ 100 <= H -> PCCS._calcPccsH (JS.Fin H) = JS.NaN.
Proof.
  intros [HH | HH]; unfold PCCS._calcPccsH, PCCS._MUNSELL_H;
    cbn [tl PCCS.calcPccsH_scan JS.le JS.lt Z.add Pos.add Pos.succ];
    decide_comparisons; reflexivity.
Qed.



(** X22: [PCCS.fromMunsell] with the accurate hue function answers the
    hue NaN for a Munsell hue below 0 or from 100 on (100 included): the
    guard that should wrap the hue reads [Munsell.MAX_HUE], which is
    undefined, and [_calcPccsH] then reads outside its table. *)
Theorem PCCS_fromMunsell_hue_outside
    (calcPccsS : R -> R -> JS.num -> JS.result (option JS.num)) (H V C : R) :
  H < 0 \/ 100 <= H -> C < Munsell.MONO_LIMIT_C ->
  PCCS.fromMunsell PCCS._calcPccsH calcPccsS (H, V, C)
  = JS.Ok (Some (JS.NaN, JS.Fin V, JS.Fin 0)).
Proof.
  intros HH HC. unfold PCCS.fromMunsell. cbn [JS.le Munsell.MAX_HUE].
  rewrite Rleb_false by exact HC. cbn [bindR].
  rewrite calcPccsH_outside by exact HH. reflexivity.
Qed.

Lemma PCCS_fromMunsell_hue_outside_witness :
  PCCS.fromMunsell PCCS._calcPccsH (fun _ _ _ => JS.Ok None) (100, 5, 0)
  = JS.Ok (Some (JS.NaN, JS.Fin 5, JS.Fin 0)).
Proof.
  apply (PCCS_fromMunsell_hue_outside (fun _ _ _ => JS.Ok None) 100 5 0).
  - right. lra.
  - unfold Munsell.MONO_LIMIT_C. lra.
Defined.

(** ** Dichromatic vision *)

Ltac fin_eq := repeat (apply f_equal2); apply (f_equal JS.Fin); lra.

(** X23: [brettelP] and [brettelD] are projections on finite colours:
    applying one twice is applying it once; [brettelP] ignores L and
    keeps M and S, [brettelD] ignores M and keeps L and S. *)
Theorem brettel_projections (l l' m s : R) :
  let P := ColorVisionSimulation.brettelP in
  let D := ColorVisionSimulation.brettelD in
  P (P (JS.Fin l, JS.Fin m, JS.Fin s)) = P (JS.Fin l, JS.Fin m, JS.Fin s)
  /\ P (JS.Fin l, JS.Fin m, JS.Fin s) = P (JS.Fin l', JS.Fin m, JS.Fin s)
  /\ snd (fst (P (JS.Fin l, JS.Fin m, JS.Fin s))) = JS.Fin m
  /\ snd (P (JS.Fin l, JS.Fin m, JS.Fin s)) = JS.Fin s
  /\ D (D (JS.Fin l, JS.Fin m, JS.Fin s)) = D (JS.Fin l, JS.Fin m, JS.Fin s)
  /\ D (JS.Fin l, JS.Fin m, JS.Fin s) = D (JS.Fin l, JS.Fin l', JS.Fin s)
  /\ fst (fst (D (JS.Fin l, JS.Fin m, JS.Fin s))) = JS.Fin l
  /\ snd (D (JS.Fin l, JS.Fin m, JS.Fin s)) = JS.Fin s.
Proof.
  unfold ColorVisionSimulation.brettelP, ColorVisionSimulation.brettelD.
  cbn [JS.mul JS.add fst snd].
  repeat split; try fin_eq; apply (f_equal JS.Fin); lra.
Qed.

(** X24: with a base of non-zero components and a non-zero normalised
    L + M of the simulated colour, [okajimaCorrectionP] and
    [okajimaCorrectionD] multiply the simulated colour by one factor,
    chosen so that the normalised L + M of the result is the normalised
    M (for P) or L (for D) of the original colour. *)
Theorem okajimaCorrection_scales (t l2 m2 s2 b0 b1 b2 : R) :
  b0 <> 0 -> b1 <> 0 -> b2 <> 0 -> l2 / b0 + m2 / b1 <> 0 ->
  (let k := (t / b1) / (l2 / b0 + m2 / b1) in
   exists l3 m3 s3 : R,
     ColorVisionSimulation.okajimaCorrectionP (JS.Fin t)
       (JS.Fin l2, JS.Fin m2, JS.Fin s2) (JS.Fin b0, JS.Fin b1, JS.Fin b2)
     = (JS.Fin l3, JS.Fin m3, JS.Fin s3)
     /\ (l3, m3, s3) = (k * l2, k * m2, k * s2)
     /\ l3 / b0 + m3 / b1 = t / b1)
  /\ (let k := (t / b0) / (l2 / b0 + m2 / b1) in
      exists l3 m3 s3 : R,
        ColorVisionSimulation.okajimaCorrectionD (JS.Fin t)
          (JS.Fin l2, JS.Fin m2, JS.Fin s2) (JS.Fin b0, JS.Fin b1, JS.Fin b2)
        = (JS.Fin l3, JS.Fin m3, JS.Fin s3)
        /\ (l3, m3, s3) = (k * l2, k * m2, k * s2)
        /\ l3 / b0 + m3 / b1 = t / b0).
Proof.
  intros H0 H1 H2 Hd.
  assert (Hd' : l2 * b1 + m2 * b0 <> 0).
  { intros E. apply Hd.
    replace (l2 / b0 + m2 / b1) with ((l2 * b1 + m2 * b0) / (b0 * b1))
      by (field; split; assumption).
    rewrite E. unfold Rdiv. apply Rmult_0_l. }
  unfold ColorVisionSimulation.okajimaCorrectionP,
    ColorVisionSimulation.okajimaCorrectionD,
    ColorVisionSimulation.ALPHA, ColorVisionSimulation.BETA.
  rewrite !div_fin by assumption. cbn [JS.mul JS.add].
  rewrite !div_fin by lra. cbn [JS.mul].
  split; cbv zeta.
  - eexists; eexists; eexists. split; [reflexivity |]. split.
    + f_equal; [f_equal |]; field; repeat split; assumption.
    + field; repeat split; assumption.
  - eexists; eexists; eexists. split; [reflexivity |]. split.
    + f_equal; [f_equal |]; field; repeat split; assumption.
    + field; repeat split; assumption.
Qed.

Lemma okajimaCorrection_scales_witness :
  exists l3 m3 s3 : R,
    ColorVisionSimulation.okajimaCorrectionP (JS.Fin 1)
      (JS.Fin 1, JS.Fin 1, JS.Fin 1) (JS.Fin 1, JS.Fin 1, JS.Fin 1)
    = (JS.Fin l3, JS.Fin m3, JS.Fin s3)
    /\ (l3, m3, s3)
       = (1 / 1 / (1 / 1 + 1 / 1) * 1, 1 / 1 / (1 / 1 + 1 / 1) * 1,
          1 / 1 / (1 / 1 + 1 / 1) * 1)
    /\ l3 / 1 + m3 / 1 = 1 / 1.
Proof.
  apply (proj1 (okajimaCorrection_scales 1 1 1 1 1 1 1
                  ltac:(lra) ltac:(lra) ltac:(lra) ltac:(lra))).
Defined.

(** ** Age simulation *)

Lemma chromaRatio_range (a b : R) :
  0.875 < AgeSimulation._chromaRatio a b < 1.83.
Proof.
  unfold AgeSimulation._chromaRatio.
  set (c := sqrt (a * a + b * b)).
  assert (Hc : 0 <= c) by apply sqrt_pos.
  assert (E1 : 0 < exp (- c / 13.3) <= 1).
  { split; [apply exp_pos |].
    rewrite <- exp_0. destruct (Req_dec c 0) as [-> | Hne].
    - right. f_equal. lra.
    - left. apply exp_increasing. lra. }
  assert (E2 : 0 < exp (- (c - 50) * (c - 50) / (3000 * 3000)) <= 1).
  { split; [apply exp_pos |].
    rewrite <- exp_0.
    assert (S : 0 <= (c - 50) * (c - 50))
      by (replace ((c - 50) * (c - 50)) with (Rsqr (c - 50)) by reflexivity;
          apply Rle_0_sqr).
    destruct (Req_dec ((c - 50) * (c - 50)) 0) as [Z | Hne].
    - right. f_equal.
      replace (- (c - 50) * (c - 50)) with (- ((c - 50) * (c - 50))) by lra.
      rewrite Z. lra.
    - left. apply exp_increasing.
      replace (- (c - 50) * (c - 50)) with (- ((c - 50) * (c - 50))) by lra.
      lra. }
  lra.
Qed.

Lemma polar_norm (h c : R) :
  0 <= c -> sqrt (cos h * c * (cos h * c) + sin h * c * (sin h * c)) = c.
Proof.
  intros Hc.
  replace (cos h * c * (cos h * c) + sin h * c * (sin h * c))
    with (c * c * (Rsqr (sin h) + Rsqr (cos h))) by (unfold Rsqr; lra).
  rewrite sin2_cos2, Rmult_1_r. now apply sqrt_square.
Qed.

(** X25: [labToElderlyAB] and [labToYoungAB] keep the lightness, and
    they multiply, respectively divide, the chroma by [_chromaRatio],
    which lies strictly between 0.875 and 1.83. *)
Theorem AgeSimulation_chroma (ls as_ bs : R) :
  let c := sqrt (as_ * as_ + bs * bs) in
  let k := AgeSimulation._chromaRatio as_ bs in
  let '(le, ae, be) := AgeSimulation.labToElderlyAB (ls, as_, bs) in
  let '(ly, ay, by_) := AgeSimulation.labToYoungAB (ls, as_, bs) in
  0.875 < k < 1.83
  /\ le = ls /\ sqrt (ae * ae + be * be) = c * k
  /\ ly = ls /\ sqrt (ay * ay + by_ * by_) = c / k.
Proof.
  unfold AgeSimulation.labToElderlyAB, AgeSimulation.labToYoungAB. cbv zeta.
  pose proof (chromaRatio_range as_ bs) as Hk.
  pose proof (sqrt_pos (as_ * as_ + bs * bs)) as Hc.
  split; [exact Hk |]. split; [reflexivity |]. split; [| split; [reflexivity |]].
  - apply polar_norm. apply Rmult_le_pos; lra.
  - apply polar_norm. apply Rmult_le_pos; [lra |].
    left. apply Rinv_0_lt_compat. lra.
Qed.

(** ** The chains of [convert] *)

Lemma all_pairs_linked :
  forallb (fun a => forallb (linked_pair a) spaces) spaces = true.
Proof. vm_compute. reflexivity. Qed.

(** X26: for every two different spaces among the nine, in any letter
    case, [convert] finds a chain of at most four conversion functions,
    and the chain is well formed: the innermost function takes the
    source space, each function takes the space the next one returns,
    and the outermost returns the target space. *)
Theorem convert_chains_link (from to : string) :
  In (Dispatcher.toLowerCase from) spaces -> In (Dispatcher.toLowerCase to) spaces ->
  Dispatcher.toLowerCase from <> Dispatcher.toLowerCase to ->
  exists (f : Dispatcher.step) (inner : list Dispatcher.step),
    Dispatcher.select (Dispatcher.type_of from to) Dispatcher.cases = Some (f :: inner)
    /\ links (Dispatcher.toLowerCase from) (Dispatcher.toLowerCase to) (f :: inner) = true
    /\ (List.length inner < 4)%nat.
Proof.
  intros Ha Hb Hne. unfold Dispatcher.type_of.
  pose proof all_pairs_linked as H.
  rewrite forallb_forall in H. specialize (H _ Ha).
  rewrite forallb_forall in H. specialize (H _ Hb).
  unfold linked_pair in H.
  destruct (String.eqb_spec (Dispatcher.toLowerCase from) (Dispatcher.toLowerCase to)) as [E | _];
    [contradiction |].
  cbn [orb] in H.
  destruct (Dispatcher.select _ Dispatcher.cases) as [[| f inner] |]; try discriminate.
  apply andb_true_iff in H. destruct H as [H1 H2].
  exists f, inner. split; [reflexivity |]. split; [exact H1 |].
  now apply Nat.ltb_lt.
Qed.

Lemma convert_chains_link_witness :
  exists (f : Dispatcher.step) (inner : list Dispatcher.step),
    Dispatcher.select (Dispatcher.type_of "PCCS" "rgb") Dispatcher.cases = Some (f :: inner)
    /\ links "pccs" "rgb" (f :: inner) = true
    /\ (List.length inner < 4)%nat.
Proof.
  apply (convert_chains_link "PCCS" "rgb").
  - vm_compute. tauto.
  - vm_compute. tauto.
  - vm_compute. discriminate.
Defined.

(** ** Lab: the lightness scale *)

Lemma Lab_func_join : Rpower Lab._C1 (1 / 3) = Lab._C2 * Lab._C1 + 16 / 116.
Proof.
  replace Lab._C1 with ((6 / 29) ^ 3) at 1 by (unfold Lab._C1; lra).
  rewrite Rpower_cube_third by lra. unfold Lab._C1, Lab._C2. lra.
Qed.

Lemma Lab_func_increasing (a b : R) : a < b -> Lab._func a < Lab._func b.
Proof.
  intros Hab. unfold Lab._func, JS.Rltb.
  assert (P : 0 < Lab._C1) by (unfold Lab._C1; lra).
  assert (Q : 0 < Lab._C2) by (unfold Lab._C2; lra).
  destruct (Rlt_dec Lab._C1 a) as [Ha | Ha], (Rlt_dec Lab._C1 b) as [Hb | Hb].
  - apply Rlt_Rpower_l; lra.
  - lra.
  - apply Rnot_lt_le in Ha.
    apply Rle_lt_trans with (Lab._C2 * Lab._C1 + 16 / 116).
    + apply Rplus_le_compat_r. apply Rmult_le_compat_l; lra.
    + rewrite <- Lab_func_join. apply Rlt_Rpower_l; lra.
  - apply Rplus_lt_compat_r. apply Rmult_lt_compat_l; lra.
Qed.

(** X27: the lightness of [Lab.lightnessFromXYZ] depends on Y alone and is
    strictly increasing in it, from 0 at Y = 0 to 100 at the Y of the
    white point; it is the first component of [Lab.fromXYZ]; and every
    multiple of the white point is neutral: its a and b are 0. *)
Theorem Lab_lightness_scale (x z x' z' t u : R) :
  (t < u -> Lab.lightnessFromXYZ (x, t, z) < Lab.lightnessFromXYZ (x', u, z'))
  /\ Lab.lightnessFromXYZ (x, 0, z) = 0
  /\ Lab.lightnessFromXYZ (x, 1, z) = 100
  /\ Lab.lightnessFromXYZ (x, t, z) = fst (fst (Lab.fromXYZ (x, t, z)))
  /\ (let '(xn, yn, zn) := Lab.XYZ_TRISTIMULUS_VALUES in
      Lab.fromXYZ (t * xn, t * yn, t * zn)
      = (Lab.lightnessFromXYZ (x, t, z), 0, 0)).
Proof.
  unfold Lab.lightnessFromXYZ, Lab.fromXYZ, Lab.XYZ_TRISTIMULUS_VALUES,
    Lab.D65_XYZ, Lab.D65_xyz.
  replace (t / 1) with t by lra. replace (u / 1) with u by lra.
  replace (0 / 1) with 0 by lra. replace (1 / 1) with 1 by lra.
  split; [| split; [| split; [| split]]].
  - intros H. pose proof (Lab_func_increasing t u H). lra.
  - unfold Lab._func, JS.Rltb, Lab._C1, Lab._C2.
    destruct (Rlt_dec _ 0); lra.
  - unfold Lab._func, JS.Rltb, Lab._C1.
    destruct (Rlt_dec _ 1) as [_ | H]; [| lra].
    unfold Rpower. rewrite ln_1, Rmult_0_r, exp_0. lra.
  - reflexivity.
  - replace (t * (0.31273 / 0.32902) / (0.31273 / 0.32902)) with t by (field; lra).
    replace (t * (0.35825 / 0.32902) / (0.35825 / 0.32902)) with t by (field; lra).
    replace (t * 1 / 1) with t by lra.
    f_equal; [f_equal |]; lra.
Qed.

Lemma Lab_lightness_scale_witness :
  Lab.lightnessFromXYZ (0, 0.2, 0) < Lab.lightnessFromXYZ (1, 0.5, 1).
Proof.
  apply (proj1 (Lab_lightness_scale 0 0 1 1 0.2 0.5)). lra.
Defined.

(** ** PCCS: the concise saturation formulas *)

(** X28: the two concise formulas for the saturation are inverse of each
    other: for a lightness above 0 and a saturation [s >= 0],
    [_simplyCalcPccsS] gives [s] back from the chroma that
    [_simplyCalcMunsellC] computes from it. *)
Theorem PCCS_concise_saturation_roundtrip (h l s : R) :
  0 < l -> 0 <= s ->
  exists C : R,
    PCCS._simplyCalcMunsellC h l s = JS.Ok (JS.Fin C)
    /\ 0 <= C
    /\ PCCS._simplyCalcPccsS l C h = JS.Fin s.
Proof.
  intros Hl Hs. unfold PCCS._simplyCalcMunsellC, PCCS._simplyCalcPccsS.
  cbv zeta.
  set (Ct := 12 + 1.7 * sin ((h + 2.2) * PI / 12)).
  set (gt := 0.81 - 0.24 * sin ((h - 2.6) * PI / 12)).
  assert (HCt : 10 < Ct).
  { unfold Ct. pose proof (SIN_bound ((h + 2.2) * PI / 12)). lra. }
  assert (Hgt : 0.5 < gt).
  { unfold gt. pose proof (SIN_bound ((h - 2.6) * PI / 12)). lra. }
  set (D := 1 - exp (- gt * l)).
  assert (HD : 0 < D).
  { unfold D. assert (exp (- gt * l) < exp 0).
    { apply exp_increasing.
      assert (0 < gt * l) by (apply Rmult_lt_0_compat; lra). lra. }
    rewrite exp_0 in *. lra. }
  set (q := 0.077 * s + 0.0040 * s * s).
  assert (Hq : 0 <= q).
  { unfold q. assert (0 <= s * s) by (apply Rmult_le_pos; lra). lra. }
  exists (Ct * q * D). split; [reflexivity |]. split.
  - apply Rmult_le_pos; [apply Rmult_le_pos |]; lra.
  - assert (HCD : Ct * D <> 0).
    { apply Rgt_not_eq. apply Rmult_lt_0_compat; lra. }
    rewrite div_fin by exact HCD.
    replace (- (Ct * q * D) / (Ct * D)) with (- q) by (field; lra).
    cbn [JS.mul JS.sub JS.neg JS.add].
    replace (0.077 * 0.077 + - (4 * 0.004 * - q))
      with ((0.077 + 0.008 * s) * (0.077 + 0.008 * s)) by (unfold q; lra).
    unfold JS.sqrt.
    assert (Hr : 0 <= 0.077 + 0.008 * s) by lra.
    rewrite Rltb_false by (apply Rmult_le_pos; exact Hr).
    rewrite sqrt_square by exact Hr.
    cbn [JS.add]. rewrite div_fin by lra.
    apply (f_equal JS.Fin). lra.
Qed.

Lemma PCCS_concise_saturation_roundtrip_witness :
  exists C : R,
    PCCS._simplyCalcMunsellC 8 5 9 = JS.Ok (JS.Fin C)
    /\ 0 <= C
    /\ PCCS._simplyCalcPccsS 5 C 8 = JS.Fin 9.
Proof.
  apply (PCCS_concise_saturation_roundtrip 8 5 9); lra.
Defined.

(** ** Munsell: hue names *)





(** ** Munsell: interpolation on the nodes of the table *)

Lemma zero_div (a b : R) : a = 0 -> a / b = 0.
Proof. intros ->. unfold Rdiv. apply Rmult_0_l. Qed.

Lemma table_cell_within (vi : nat) (k j n : Z) (xy : R * R) :
  (vi < 9)%nat -> (0 <= k < 40)%Z -> (1 <= j)%Z ->
  Munsell._getXy vi (k * 25) (2 * j) = JS.Ok xy ->
  Munsell._TBL_MAX_C vi (k * 25) = JS.Ok (Some (2 * n)%Z) ->
  (j <= n)%Z.
Proof.
  intros Hvi Hk Hj. unfold Munsell._TBL_MAX_C, Munsell._getXy, Munsell._TBL.
  rewrite TBL_planes. destruct (Nat.leb_spec 9 vi); [lia |].
  rewrite hue_row_multiple by exact Hk.
  destruct (Z.eqb_spec (2 * j) 0) as [E | E]; [lia |].
  destruct (Munsell.src_row vi k) as [cs |]; cbn [bindR].
  - rewrite (Z.mul_comm 2 j), Z.mod_mul, Z.div_mul by lia.
    cbn [Z.eqb andb]. destruct (Z.leb_spec 1 j); [| lia]. cbn [bindR].
    destruct (nth_error (Munsell.decode_row cs) (Z.to_nat (j - 1))) eqn:N;
      [| discriminate].
    intros _ M.
    assert (M' : (2 * Z.of_nat (List.length (Munsell.decode_row cs)) = 2 * n)%Z)
      by congruence.
    assert (L : (Z.to_nat (j - 1) < List.length (Munsell.decode_row cs))%nat)
      by (apply nth_error_Some; congruence).
    lia.
  - discriminate.
Qed.

(** X30: on a node of the table, a hue that is a multiple of 2.5 and an
    even chroma whose cell is filled, [Munsell._interpolateXY] returns
    the chromaticity stored in that cell. *)
Theorem Munsell_interpolateXY_on_grid (vi : nat) (k j : Z) (xy : R * R) :
  (vi < 9)%nat -> (0 <= k < 40)%Z -> (1 <= j < 1073741824)%Z ->
  Munsell._getXy vi (k * 25) (2 * j) = JS.Ok xy ->
  exists inside : bool,
    Munsell._interpolateXY (IZR k * 2.5) (IZR (2 * j)) vi
    = JS.Ok (fst xy, snd xy, inside).
Proof.
  intros Hvi Hk Hj Hxy.
  destruct (table_row_filled vi k Hvi Hk) as (nl & Hnl & Ml & Gl).
  pose proof (table_cell_within vi k j nl xy Hvi Hk (proj1 Hj) Hxy Ml) as Hjn.
  unfold Munsell._interpolateXY. cbv zeta.
  replace (IZR k * 2.5 * 10 / 25) with (IZR k) by lra.
  replace (IZR (2 * j) / 2) with (IZR j) by (rewrite mult_IZR; lra).
  rewrite !ZfloorZ.
  rewrite (toInt32_IZR (k * 25)) by lia.
  rewrite (toInt32_IZR (j * 2)) by lia.
  replace (j * 2)%Z with (2 * j)%Z by lia.
  set (k' := if (k * 25 + 25 =? 1000)%Z then 0%Z else (k + 1)%Z).
  assert (Hk' : (0 <= k' < 40)%Z).
  { unfold k'. destruct (Z.eqb_spec (k * 25 + 25) 1000); lia. }
  replace (if (k * 25 + 25 =? 1000)%Z then 0%Z else (k * 25 + 25)%Z)
    with (k' * 25)%Z
    by (unfold k'; destruct (Z.eqb_spec (k * 25 + 25) 1000); lia).
  destruct (table_row_filled vi k' Hvi Hk') as (nu & Hnu & Mu & Gu).
  rewrite Ml, Mu. cbn [bindR Munsell.leOpt].
  replace ((IZR k * 2.5 * 10 - IZR (k * 25)) / (IZR (k * 25 + 25) - IZR (k * 25)))
    with 0 by (symmetry; apply zero_div; rewrite mult_IZR; lra).
  replace ((IZR (2 * j) - IZR (2 * j)) / (IZR (2 * j + 2) - IZR (2 * j)))
    with 0 by (symmetry; apply zero_div; lra).
  destruct ((2 * nl <=? 2 * j)%Z || (2 * nu <=? 2 * j)%Z) eqn:Edge.
  - destruct (edge_xy_defined vi k' j nu 0 Hvi Hk' ltac:(lia) Hnu Gu) as [xu Eu].
    rewrite Eu.
    unfold Munsell.edge_xy at 1, Munsell.ltOpt.
    destruct (Z.ltb_spec (2 * j) (2 * nl)).
    + rewrite Hxy. cbn [bindR].
      replace (2 * j + 2)%Z with (2 * (j + 1))%Z by lia.
      destruct (Gl (j + 1)%Z ltac:(lia)) as [d Ed]. rewrite Ed. cbn [bindR fst snd].
      exists false. repeat f_equal; lra.
    + assert (nl = j) by lia. subst nl. rewrite Hxy. cbn [bindR].
      exists false. repeat f_equal; lra.
  - apply orb_false_iff in Edge. destruct Edge as [E1 E2].
    apply Z.leb_gt in E1, E2.
    replace (2 * j + 2)%Z with (2 * (j + 1))%Z by lia.
    destruct (Gl (j + 1)%Z ltac:(lia)) as [d Ed].
    destruct (Gu (j + 1)%Z ltac:(lia)) as [C EC].
    destruct (Gu j ltac:(lia)) as [b Eb].
    destruct (Z.eqb_spec (2 * j) 0); [lia |].
    rewrite Hxy, Ed, Eb, EC. cbn [bindR].
    exists true. repeat f_equal; lra.
Qed.

Lemma Munsell_interpolateXY_on_grid_witness :
  exists inside : bool,
    Munsell._interpolateXY (IZR 0 * 2.5) (IZR (2 * 1)) 0
    = JS.Ok (0.363, 0.271, inside).
Proof.
  apply (Munsell_interpolateXY_on_grid 0 0 1 (0.363, 0.271)); try lia.
  unfold Munsell._getXy, Munsell._TBL. cbn -[Rdiv IZR].
  f_equal.
Defined.
